(** * Cursor_ODAM: hook event correlation, intake server, context enhancer,
    context cache, chunk ids and the update guard

  A shallow embedding of the TypeScript sources
  - [hookEventProcessor.ts] (class [HookEventProcessor]),
  - [hookEventServer.ts] (class [HookEventServer]),
  - [memoryContextEnhancer.ts] (class [MemoryContextEnhancer]),
  - [memoryContextProvider.ts] (class [MemoryContextProvider]),
  - [memoryFileUpdater.ts] ([updateMemoryFile], and the chunk ids in
    [updateMemoryAfterResponse]),
  - [cursorChatContextInjector.ts] (the [isUpdating] guard),
  - [odamClient.ts] ([fetchMemoryContext], [getMemoryStats]),
  - [projectKnowledgeIndexer.ts] (the chunk ids of [recordSection]),
  - [memoryStatusBar.ts] and the [cursor-odam-hook] script,
  together with the properties the specification states about them.

  The handlers of the processor are embedded twice: in [Correlator] on
  payloads of the declared interfaces, whose fields are strings, and in
  [Processor] on any value [JSON.parse] can return, which is what the
  server hands them.  [ProcessorFacts] shows that the two agree on the
  payloads of the declared interfaces.  A function that can throw returns
  an [option] or an explicit outcome.

  JavaScript strings are sequences of UTF-16 code units.  They are
  modelled by [string], each [ascii] standing for the code unit of the
  same number, so the model covers the strings whose code units are
  below 256 (Latin-1). *)

From Stdlib Require Import ZArith Ascii String.
From stdpp Require Import gmap strings list fin_maps.

Local Open Scope string_scope.
Local Open Scope Z_scope.
Local Open Scope list_scope.

(** ** JavaScript primitives used by the sources *)

Module Js.

(** [WhiteSpace] and [LineTerminator] code units below 256, the ones
    [String.prototype.trim] strips: TAB, LF, VT, FF, CR, SP and NBSP. *)
Definition isWhiteSpace (c : ascii) : bool :=
  match Ascii.N_of_ascii c with
  | 9 | 10 | 11 | 12 | 13 | 32 | 160 => true
  | _ => false
  end%N.

Fixpoint trimStart (s : string) : string :=
  match s with
  | String c s' => if isWhiteSpace c then trimStart s' else s
  | EmptyString => EmptyString
  end.

Fixpoint trimEnd (s : string) : string :=
  match s with
  | String c s' =>
      match trimEnd s' with
      | EmptyString => if isWhiteSpace c then EmptyString else String c EmptyString
      | t => String c t
      end
  | EmptyString => EmptyString
  end.

(** [s.trim()] *)
Definition trim (s : string) : string := trimEnd (trimStart s).

(** Truthiness of a string: every string but the empty one. *)
Definition truthy (s : string) : bool :=
  match s with
  | EmptyString => false
  | String _ _ => true
  end.

(** Truthiness of an optional string field ([undefined] when absent). *)
Definition truthyO (o : option string) : bool :=
  match o with
  | Some s => truthy s
  | None => false
  end.

(** [o || d] for an optional string field. *)
Definition orElse (o : option string) (d : string) : string :=
  match o with
  | Some s => if truthy s then s else d
  | None => d
  end.

(** [String.prototype.toLowerCase] on code units below 256: A-Z and the
    Latin-1 capitals U+00C0..U+00DE (U+00D7, the multiplication sign,
    apart) move up by 32. *)
Definition lowerChar (c : ascii) : ascii :=
  let n := Ascii.N_of_ascii c in
  if ((65 <=? n) && (n <=? 90))%N then Ascii.ascii_of_N (n + 32)
  else if ((192 <=? n) && (n <=? 222) && negb (n =? 215))%N
       then Ascii.ascii_of_N (n + 32)
  else c.

Fixpoint toLowerCase (s : string) : string :=
  match s with
  | String c s' => String (lowerChar c) (toLowerCase s')
  | EmptyString => EmptyString
  end.

(** [s.startsWith(p)] *)
Fixpoint startsWith (p s : string) : bool :=
  match p, s with
  | EmptyString, _ => true
  | String a p', String b s' => if Ascii.eqb a b then startsWith p' s' else false
  | String _ _, EmptyString => false
  end.

(** [s.includes(p)] *)
Fixpoint includes (p s : string) : bool :=
  if startsWith p s then true
  else match s with
       | String _ s' => includes p s'
       | EmptyString => false
       end.

(** [s.substring(0, n)] *)
Fixpoint prefix (n : nat) (s : string) : string :=
  match n, s with
  | S n', String c s' => String c (prefix n' s')
  | _, _ => EmptyString
  end.

End Js.

(** ** The interaction correlator: [HookEventProcessor] *)

Module Correlator.

(** The three payload interfaces [HookPromptPayload], [HookResponsePayload]
    and [HookThoughtPayload].  [prompt] and [text] are read through
    [payload.prompt || ''], so they are optional here. *)
Record HookPromptPayload := {
  prompt : option string;
  p_conversation_id : option string;
  p_generation_id : option string;
  p_model : option string
}.

Record HookResponsePayload := {
  text : option string;
  conversation_id : option string;
  generation_id : option string
}.

Record HookThoughtPayload := {
  t_text : option string;
  duration_ms : option Z;
  t_conversation_id : option string;
  t_generation_id : option string
}.

Record PendingInteraction := {
  query : string;
  conversationId : option string;
  generationId : option string;
  model : option string;
  createdAt : Z
}.

#[export] Instance PendingInteraction_eq_dec : EqDecision PendingInteraction.
Proof. solve_decision. Defined.

(** The two private index maps of the processor. *)
Record State := {
  pendingByGeneration : gmap string PendingInteraction;
  pendingByConversation : gmap string PendingInteraction
}.

Definition init : State :=
  {| pendingByGeneration := ∅; pendingByConversation := ∅ |}.

(** [HookEventProcessorDeps], as far as the handlers look at it: the
    workspace folder the provider returns (its [fsPath]), and whether a
    logger, a status bar and a user id were supplied. *)
Record Deps := {
  workspace : option string;
  hasLogger : bool;
  hasStatusBar : bool;
  userId : option string
}.

(** What a handler asks of its collaborators. *)
Inductive Effect :=
| UpdateMemoryFile (userQuery workspaceFolder : string)
| UpdateMemoryAfterResponse (userQuery assistantResponse workspaceFolder : string)
| GetMemoryStats (workspaceFolder : string)
| LogCursorContext (thought : string).

Inductive Outcome :=
| Returned
| Thrown (message : string).

Definition Result : Type := State * list Effect * Outcome.

(** The two deletions both branches of [lookupInteraction] perform. *)
Definition remove (interaction : PendingInteraction) (st : State) : State :=
  let byConversation :=
    match conversationId interaction with
    | Some c => if Js.truthy c then delete c (pendingByConversation st)
                else pendingByConversation st
    | None => pendingByConversation st
    end in
  let byGeneration :=
    match generationId interaction with
    | Some g => if Js.truthy g then delete g (pendingByGeneration st)
                else pendingByGeneration st
    | None => pendingByGeneration st
    end in
  {| pendingByGeneration := byGeneration; pendingByConversation := byConversation |}.

(** [lookupInteraction(payload)]: the generation index first, the
    conversation index as a fallback. *)
Definition lookupByConversation (conversation : option string) (st : State)
  : option PendingInteraction * State :=
  match conversation with
  | Some c =>
      if Js.truthy c then
        match pendingByConversation st !! c with
        | Some interaction => (Some interaction, remove interaction st)
        | None => (None, st)
        end
      else (None, st)
  | None => (None, st)
  end.

Definition lookupInteraction (conversation generation : option string) (st : State)
  : option PendingInteraction * State :=
  match generation with
  | Some g =>
      if Js.truthy g then
        match pendingByGeneration st !! g with
        | Some interaction => (Some interaction, remove interaction st)
        | None => lookupByConversation conversation st
        end
      else lookupByConversation conversation st
  | None => lookupByConversation conversation st
  end.

(** The two [set] calls of [handleBeforePrompt]. *)
Definition store (interaction : PendingInteraction) (st : State) : State :=
  let byGeneration :=
    match generationId interaction with
    | Some g => if Js.truthy g then <[g := interaction]> (pendingByGeneration st)
                else pendingByGeneration st
    | None => pendingByGeneration st
    end in
  let byConversation :=
    match conversationId interaction with
    | Some c => if Js.truthy c then <[c := interaction]> (pendingByConversation st)
                else pendingByConversation st
    | None => pendingByConversation st
    end in
  {| pendingByGeneration := byGeneration; pendingByConversation := byConversation |}.

(** [handleBeforePrompt(payload)]; [now] is the value of [Date.now()].
    [updateMemoryFile] catches its own errors, so the call returns. *)
Definition handleBeforePrompt (deps : Deps) (now : Z) (payload : HookPromptPayload)
    (st : State) : Result :=
  match workspace deps with
  | None => (st, [], Thrown "Workspace folder not available")
  | Some workspaceFolder =>
      let userQuery := Js.trim (Js.orElse (prompt payload) "") in
      if negb (Js.truthy userQuery) then (st, [], Returned)
      else
        let interaction :=
          {| query := userQuery;
             conversationId := p_conversation_id payload;
             generationId := p_generation_id payload;
             model := p_model payload;
             createdAt := now |} in
        (store interaction st, [UpdateMemoryFile userQuery workspaceFolder], Returned)
  end.

(** [handleAfterResponse(payload)].  [syncError] is what
    [updateMemoryAfterResponse] throws, if it throws: the handler logs the
    error and throws it again. *)
Definition handleAfterResponse (deps : Deps) (syncError : option string)
    (payload : HookResponsePayload) (st : State) : Result :=
  match workspace deps with
  | None => (st, [], Thrown "Workspace folder not available")
  | Some workspaceFolder =>
      let '(found, st') :=
        lookupInteraction (conversation_id payload) (generation_id payload) st in
      let assistantResponse := Js.trim (Js.orElse (text payload) "") in
      match found with
      | None => (st', [], Returned)
      | Some interaction =>
          if negb (Js.truthy (query interaction)) || negb (Js.truthy assistantResponse)
          then (st', [], Returned)
          else
            let sync :=
              UpdateMemoryAfterResponse (query interaction) assistantResponse
                                        workspaceFolder in
            match syncError with
            | Some e => (st', [sync], Thrown e)
            | None =>
                if hasStatusBar deps && Js.truthyO (userId deps)
                then (st', [sync; GetMemoryStats workspaceFolder], Returned)
                else (st', [sync], Returned)
            end
      end
  end.

(** [handleAfterThought(payload)] *)
Definition handleAfterThought (deps : Deps) (payload : HookThoughtPayload)
    (st : State) : Result :=
  if negb (hasLogger deps) then (st, [], Returned)
  else (st, [LogCursorContext (Js.orElse (t_text payload) "")], Returned).

(** [clear()] *)
Definition clear (st : State) : State := init.

(** The states the processor can be in: from the fresh maps, through
    [set]s of recorded prompts, resolutions and [clear]. *)
Inductive reachable : State -> Prop :=
| reach_init : reachable init
| reach_before deps now payload st :
    reachable st -> reachable (handleBeforePrompt deps now payload st).1.1
| reach_lookup conversation generation st :
    reachable st -> reachable (lookupInteraction conversation generation st).2
| reach_clear st : reachable st -> reachable (clear st).

(** An interaction occurs in an index under some key. *)
Definition pendingIn (m : gmap string PendingInteraction) (i : PendingInteraction) : Prop :=
  exists k, m !! k = Some i.

(** Every entry sits under its own, non-empty key. *)
Definition keyed (st : State) : Prop :=
  (forall k i, pendingByGeneration st !! k = Some i ->
               generationId i = Some k /\ k <> "") /\
  (forall k i, pendingByConversation st !! k = Some i ->
               conversationId i = Some k /\ k <> "").

End Correlator.


(** ** The processor on the bodies the server hands it

    [HookEventServer.handleRequest] declares [let body: any] and casts
    what [JSON.parse] returned to the payload interface of the route, so
    the handlers of [HookEventProcessor] run on any JSON value.  This is
    the processor read that way; [Correlator] is the same code on payloads
    of the declared types. *)

Module Processor.
Import Correlator.

(** A JSON value.  Numbers are kept as integers: the handlers only test
    a number against zero, use it as a key and print it. *)
#[warnings="-register-all"] Inductive Json :=
| JNull
| JBool (b : bool)
| JNumber (n : Z)
| JString (s : string)
| JArray (elements : list Json)
| JObject (members : list (string * Json)).

(** The member [name] of a parsed object; of two members of one name
    [JSON.parse] keeps the later. *)
Fixpoint lastMember (name : string) (members : list (string * Json)) : option Json :=
  match members with
  | [] => None
  | (k, v) :: rest =>
      match lastMember name rest with
      | Some later => Some later
      | None => if String.eqb k name then Some v else None
      end
  end.

(** [payload.name] for a payload that is not [null], and for the names the
    handlers read ([prompt], [text], [conversation_id], [generation_id],
    [model], [duration_ms]): a member of an object, [undefined] (here
    [None]) on an object without it and on a number, a string, a boolean
    or an array. *)
Definition get (payload : Json) (name : string) : option Json :=
  match payload with
  | JObject members => lastMember name members
  | _ => None
  end.

(** A property read throws a [TypeError] on [null], and on nothing else
    that [JSON.parse] returns. *)
Definition isNull (payload : Json) : bool :=
  match payload with
  | JNull => true
  | _ => false
  end.

(** Truthiness of what a property read gave. *)
Definition truthyJ (v : option Json) : bool :=
  match v with
  | None | Some JNull => false
  | Some (JBool b) => b
  | Some (JNumber n) => negb (n =? 0)
  | Some (JString s) => Js.truthy s
  | Some (JArray _) | Some (JObject _) => true
  end.

(** The receiver of [.trim()] in [(v || '').trim()], and the argument
    [v || ''] that [logCursorContext] calls [.substring] on: the string
    itself, the empty string for a falsy value, and no string ([None], a
    [TypeError] at the call) for a truthy value that is not a string. *)
Definition textOf (v : option Json) : option string :=
  match v with
  | Some (JString s) => Some s
  | _ => if truthyJ v then None else Some ""
  end.

(** Whether a value can be spliced into a template literal.  The
    conversion of an object calls its [toString], which a member of that
    name, never a function in parsed JSON, hides: the conversion then
    throws a [TypeError].  An array joins the conversions of its
    elements. *)
Fixpoint printable (v : Json) : bool :=
  match v with
  | JArray elements => forallb printable elements
  | JObject members => negb (existsb (fun m => String.eqb m.1 "toString") members)
  | _ => true
  end.

(** A value held by the processor: a primitive, or an object or array,
    which is held by reference. *)
Inductive Value :=
| VUndefined
| VNull
| VBool (b : bool)
| VNumber (n : Z)
| VString (s : string)
| VRef (r : nat).

#[export] Instance Value_eq_dec : EqDecision Value.
Proof. solve_decision. Defined.

#[export] Instance Value_countable : Countable Value.
Proof.
  refine (inj_countable'
            (fun v => match v with
                      | VUndefined => inl (inl (inl (inl (inl tt))))
                      | VNull => inl (inl (inl (inl (inr tt))))
                      | VBool b => inl (inl (inl (inr b)))
                      | VNumber n => inl (inl (inr n))
                      | VString s => inl (inr s)
                      | VRef r => inr r
                      end)
            (fun x => match x with
                      | inl (inl (inl (inl (inl _)))) => VUndefined
                      | inl (inl (inl (inl (inr _)))) => VNull
                      | inl (inl (inl (inr b))) => VBool b
                      | inl (inl (inr n)) => VNumber n
                      | inl (inr s) => VString s
                      | inr r => VRef r
                      end) _).
  by intros [].
Defined.

Definition truthyValue (v : Value) : bool :=
  match v with
  | VUndefined | VNull => false
  | VBool b => b
  | VNumber n => negb (n =? 0)
  | VString s => Js.truthy s
  | VRef _ => true
  end.

(** What a property read gave, as the processor keeps it; [ref] is the
    reference of the object or array, if it is one. *)
Definition valueOf (ref : nat) (v : option Json) : Value :=
  match v with
  | None => VUndefined
  | Some JNull => VNull
  | Some (JBool b) => VBool b
  | Some (JNumber n) => VNumber n
  | Some (JString s) => VString s
  | Some (JArray _) | Some (JObject _) => VRef ref
  end.

(** [id && map.has(id)] can only hold of a truthy primitive: a [Map]
    compares keys by identity, and an object or array of a body just
    parsed is identical to no key stored before. *)
Definition keyOf (v : option Json) : option Value :=
  match v with
  | Some (JBool true) => Some (VBool true)
  | Some (JNumber n) => if n =? 0 then None else Some (VNumber n)
  | Some (JString s) => if Js.truthy s then Some (VString s) else None
  | _ => None
  end.

(** [PendingInteraction]: the ids and the model are kept as they were
    read, whatever they are. *)
Record PendingInteraction := {
  query : string;
  conversationId : Value;
  generationId : Value;
  model : Value;
  createdAt : Z
}.

(** The two index maps, and the number of references given out so far to
    the objects and arrays the processor keeps. *)
Record State := {
  pendingByGeneration : gmap Value PendingInteraction;
  pendingByConversation : gmap Value PendingInteraction;
  allocated : nat
}.

Definition init : State :=
  {| pendingByGeneration := ∅; pendingByConversation := ∅; allocated := 0 |}.

(** What a handler throws: an [Error] with its message, or the
    [TypeError] of the runtime. *)
Inductive Exception :=
| JsError (message : string)
| TypeError.

Inductive Outcome :=
| Returned
| Thrown (e : Exception).

Definition Result : Type := State * list Effect * Outcome.

(** The two deletions both branches of [lookupInteraction] perform. *)
Definition remove (interaction : PendingInteraction) (st : State) : State :=
  {| pendingByGeneration :=
       if truthyValue (generationId interaction)
       then delete (generationId interaction) (pendingByGeneration st)
       else pendingByGeneration st;
     pendingByConversation :=
       if truthyValue (conversationId interaction)
       then delete (conversationId interaction) (pendingByConversation st)
       else pendingByConversation st;
     allocated := allocated st |}.

Definition lookupByConversation (payload : Json) (st : State)
  : option PendingInteraction * State :=
  match keyOf (get payload "conversation_id") with
  | Some c =>
      match pendingByConversation st !! c with
      | Some interaction => (Some interaction, remove interaction st)
      | None => (None, st)
      end
  | None => (None, st)
  end.

(** [lookupInteraction(payload)] *)
Definition lookupInteraction (payload : Json) (st : State)
  : option PendingInteraction * State :=
  match keyOf (get payload "generation_id") with
  | Some g =>
      match pendingByGeneration st !! g with
      | Some interaction => (Some interaction, remove interaction st)
      | None => lookupByConversation payload st
      end
  | None => lookupByConversation payload st
  end.

(** The two [set] calls of [handleBeforePrompt]. *)
Definition store (interaction : PendingInteraction) (st : State) : State :=
  {| pendingByGeneration :=
       if truthyValue (generationId interaction)
       then <[generationId interaction := interaction]> (pendingByGeneration st)
       else pendingByGeneration st;
     pendingByConversation :=
       if truthyValue (conversationId interaction)
       then <[conversationId interaction := interaction]> (pendingByConversation st)
       else pendingByConversation st;
     allocated := allocated st |}.

(** [handleBeforePrompt(payload)].  The first read of a property of the
    payload throws on [null]; [.trim()] throws on a prompt that is truthy
    and not a string.  The three values kept in the interaction take the
    next three references. *)
Definition handleBeforePrompt (deps : Deps) (now : Z) (payload : Json) (st : State)
  : Result :=
  match workspace deps with
  | None => (st, [], Thrown (JsError "Workspace folder not available"))
  | Some workspaceFolder =>
      if isNull payload then (st, [], Thrown TypeError)
      else
        match textOf (get payload "prompt") with
        | None => (st, [], Thrown TypeError)
        | Some prompt =>
            let userQuery := Js.trim prompt in
            if negb (Js.truthy userQuery) then (st, [], Returned)
            else
              let r := allocated st in
              let interaction :=
                {| query := userQuery;
                   conversationId := valueOf r (get payload "conversation_id");
                   generationId := valueOf (S r) (get payload "generation_id");
                   model := valueOf (S (S r)) (get payload "model");
                   createdAt := now |} in
              (store interaction
                     {| pendingByGeneration := pendingByGeneration st;
                        pendingByConversation := pendingByConversation st;
                        allocated := S (S (S r)) |},
               [UpdateMemoryFile userQuery workspaceFolder], Returned)
        end
  end.

(** [handleAfterResponse(payload)].  The lookup has removed what it found
    when [.trim()] throws on a text that is truthy and not a string. *)
Definition handleAfterResponse (deps : Deps) (syncError : option string)
    (payload : Json) (st : State) : Result :=
  match workspace deps with
  | None => (st, [], Thrown (JsError "Workspace folder not available"))
  | Some workspaceFolder =>
      if isNull payload then (st, [], Thrown TypeError)
      else
        let '(found, st') := lookupInteraction payload st in
        match textOf (get payload "text") with
        | None => (st', [], Thrown TypeError)
        | Some text =>
            let assistantResponse := Js.trim text in
            match found with
            | None => (st', [], Returned)
            | Some interaction =>
                if negb (Js.truthy (query interaction))
                   || negb (Js.truthy assistantResponse)
                then (st', [], Returned)
                else
                  let sync :=
                    UpdateMemoryAfterResponse (query interaction) assistantResponse
                                              workspaceFolder in
                  match syncError with
                  | Some e => (st', [sync], Thrown (JsError e))
                  | None =>
                      if hasStatusBar deps && Js.truthyO (userId deps)
                      then (st', [sync; GetMemoryStats workspaceFolder], Returned)
                      else (st', [sync], Returned)
                  end
            end
        end
  end.

(** [handleAfterThought(payload)].  Without a logger the payload is not
    read.  With one, [null] throws at the first read; the template
    [`THOUGHT (${payload.duration_ms ?? 0}ms)`] throws on a duration that
    cannot be printed; and the logger's [query.substring] throws on a text
    that is truthy and not a string, before anything is logged. *)
Definition handleAfterThought (deps : Deps) (payload : Json) (st : State) : Result :=
  if negb (hasLogger deps) then (st, [], Returned)
  else if isNull payload then (st, [], Thrown TypeError)
  else if negb (printable (default (JNumber 0) (get payload "duration_ms")))
  then (st, [], Thrown TypeError)
  else
    match textOf (get payload "text") with
    | None => (st, [], Thrown TypeError)
    | Some text => (st, [LogCursorContext text], Returned)
    end.

(** [clear()] *)
Definition clear (st : State) : State :=
  {| pendingByGeneration := ∅; pendingByConversation := ∅; allocated := allocated st |}.

(** *** The declared payload types

    A payload of a declared type is the object of its string fields, and a
    state of [Correlator] is the state whose keys are strings. *)

Definition field (name : string) (v : option string) : list (string * Json) :=
  match v with
  | Some s => [(name, JString s)]
  | None => []
  end.

Definition ofPromptPayload (p : HookPromptPayload) : Json :=
  JObject (field "prompt" (prompt p) ++ field "conversation_id" (p_conversation_id p) ++
           field "generation_id" (p_generation_id p) ++ field "model" (p_model p)).

Definition ofResponsePayload (p : HookResponsePayload) : Json :=
  JObject (field "text" (text p) ++ field "conversation_id" (conversation_id p) ++
           field "generation_id" (generation_id p)).

Definition ofThoughtPayload (p : HookThoughtPayload) : Json :=
  JObject (field "text" (t_text p) ++
           match duration_ms p with
           | Some d => [("duration_ms", JNumber d)]
           | None => []
           end ++
           field "conversation_id" (t_conversation_id p) ++
           field "generation_id" (t_generation_id p)).

Definition ofString (v : option string) : Value :=
  match v with
  | Some s => VString s
  | None => VUndefined
  end.

Definition ofInteraction (i : Correlator.PendingInteraction) : PendingInteraction :=
  {| query := Correlator.query i;
     conversationId := ofString (Correlator.conversationId i);
     generationId := ofString (Correlator.generationId i);
     model := ofString (Correlator.model i);
     createdAt := Correlator.createdAt i |}.

Definition ofState (refs : nat) (st : Correlator.State) : State :=
  {| pendingByGeneration :=
       kmap VString (ofInteraction <$> Correlator.pendingByGeneration st);
     pendingByConversation :=
       kmap VString (ofInteraction <$> Correlator.pendingByConversation st);
     allocated := refs |}.

Definition ofOutcome (o : Correlator.Outcome) : Outcome :=
  match o with
  | Correlator.Returned => Returned
  | Correlator.Thrown message => Thrown (JsError message)
  end.

End Processor.

(** ** The event intake surface: [HookEventServer] *)

Module Server.
Import Processor.

(** An [http.IncomingMessage]: the method, the path name of its URL, the
    headers under their lower-cased names, and the chunks of the body. *)
Record Request := {
  method : string;
  pathname : string;
  headers : gmap string string;
  chunks : list string
}.

Inductive ResponseBody :=
| Ok
| Error (error : string).

Record Response := {
  status : Z;
  body : ResponseBody
}.

(** The server: its random token and the processor it dispatches to. *)
Record Server := {
  token : string;
  processor : State
}.

(** The discovery file [odam-hook-config.json]. *)
Record HookServerConfig := {
  cfg_port : Z;
  cfg_token : string;
  cfg_updatedAt : string
}.

(** [writeConfig()]: what is written, nothing while the port is [null]. *)
Definition writeConfig (srv : Server) (port : option Z) (updatedAt : string)
  : option HookServerConfig :=
  match port with
  | None => None
  | Some p => Some {| cfg_port := p; cfg_token := token srv; cfg_updatedAt := updatedAt |}
  end.

(** [validateToken(req)] *)
Definition validateToken (srv : Server) (req : Request) : bool :=
  match headers req !! "x-odam-hook-token" with
  | Some header => if Js.truthy header then String.eqb header (token srv) else false
  | None => false
  end.

(** [readRawBody(req)]; [None] is [null]. *)
Definition readRawBody (req : Request) : option string :=
  match chunks req with
  | [] => None
  | cs =>
      let raw := String.concat "" cs in
      if negb (Js.truthy (Js.trim raw)) then None else Some raw
  end.

Section Intake.

(** [JSON.parse]: any JSON value, [None] when it throws. *)
Variable JSON_parse : string -> option Json.

(** The environment of one request: the processor's dependencies, the
    clock, and the error of the synchronization, if it fails. *)
Variable deps : Correlator.Deps.
Variable now : Z.
Variable syncError : option string.

(** [handleRequest(req, res)]: the new server, what was asked of the
    collaborators, and either the response written or the exception
    thrown.  The parsed body goes to the handler of the route as it is. *)
Definition handleRequest (srv : Server) (req : Request)
  : Server * list Correlator.Effect * (Response + Exception) :=
  if negb (String.eqb (method req) "POST")
  then (srv, [], inl {| status := 405; body := Error "method_not_allowed" |})
  else if negb (validateToken srv req)
  then (srv, [], inl {| status := 401; body := Error "unauthorized" |})
  else
    match readRawBody req with
    | None => (srv, [], inl {| status := 400; body := Error "empty_body" |})
    | Some rawBody =>
        match JSON_parse rawBody with
        | None => (srv, [], inl {| status := 400; body := Error "invalid_json" |})
        | Some parsed =>
            let finish (r : Result)
              : Server * list Correlator.Effect * (Response + Exception) :=
              let '(st, effects, outcome) := r in
              let srv' := {| token := token srv; processor := st |} in
              match outcome with
              | Returned => (srv', effects, inl {| status := 200; body := Ok |})
              | Thrown e => (srv', effects, inr e)
              end in
            if String.eqb (pathname req) "/hook/before" then
              finish (handleBeforePrompt deps now parsed (processor srv))
            else if String.eqb (pathname req) "/hook/after" then
              finish (handleAfterResponse deps syncError parsed (processor srv))
            else if String.eqb (pathname req) "/hook/thought" then
              finish (handleAfterThought deps parsed (processor srv))
            else (srv, [], inl {| status := 404; body := Error "not_found" |})
        end
    end.

(** The request listener installed by [start()]: whatever
    [handleRequest] throws is answered with [500]. *)
Definition requestListener (srv : Server) (req : Request)
  : Server * list Correlator.Effect * Response :=
  let '(srv', effects, r) := handleRequest srv req in
  match r with
  | inl response => (srv', effects, response)
  | inr _ => (srv', effects, {| status := 500; body := Error "internal_error" |})
  end.

End Intake.

(** The remote write: a call of [updateMemoryAfterResponse]. *)
Definition isRemoteWrite (e : Correlator.Effect) : bool :=
  match e with
  | Correlator.UpdateMemoryAfterResponse _ _ _ => true
  | _ => false
  end.

End Server.

(** ** The remote store client: [OdamClient] *)

Module OdamClient.

(** A JSON value of a [Record<string, any>] property bag.  Numbers are
    kept as integers; objects and arrays are not looked into. *)
Inductive JsValue :=
| JsUndefined
| JsNull
| JsBool (b : bool)
| JsNumber (n : Z)
| JsString (s : string)
| JsObject.

#[export] Instance JsValue_eq_dec : EqDecision JsValue.
Proof. solve_decision. Defined.

(** [!v] is false exactly on the truthy values. *)
Definition truthyV (v : JsValue) : bool :=
  match v with
  | JsUndefined | JsNull => false
  | JsBool b => b
  | JsNumber n => negb (n =? 0)
  | JsString s => Js.truthy s
  | JsObject => true
  end.

(** [v === 'literal'] *)
Definition strictEq (v : JsValue) (literal : string) : bool :=
  match v with
  | JsString s => String.eqb s literal
  | _ => false
  end.

(** [CodeMemorySection] *)
Record Item := {
  label : string;
  values : list string
}.

Record CodeMemorySection := {
  title : string;
  items : list Item
}.

(** An element of [CodeMemoryResponse.entities]; [properties] is [None]
    when the entity has no property bag. *)
Record Entity := {
  id : string;
  name : string;
  category : string;
  properties : option (gmap string JsValue)
}.

(** [CodeMemoryResponse], as far as the client, the enhancer and the
    provider read it. *)
Record CodeMemoryResponse := {
  entities_total : Z;
  sections : option (list CodeMemorySection);
  entities : option (list Entity);
  context_text : string
}.

Record MemoryContextResult := {
  context : string;
  memoriesFound : Z;
  codeMemory : option CodeMemoryResponse
}.

(** What the POST to [/api/v1/code-memory/context] comes to. *)
Inductive Remote :=
| RemoteData (data : CodeMemoryResponse)
| RemoteError (message : string).

(** [fetchCodeMemoryContextFromApi]: every error becomes [null]. *)
Definition fetchCodeMemoryContextFromApi (remote : Remote) : option CodeMemoryResponse :=
  match remote with
  | RemoteData data => Some data
  | RemoteError _ => None
  end.

Definition nonEmpty {A} (l : option (list A)) : bool :=
  match l with
  | Some (_ :: _) => true
  | _ => false
  end.

Section Fetch.

(** [formatCodeMemorySectionsAsContext], the text rendered from the
    sections when the response has no [context_text]. *)
Variable formatCodeMemorySectionsAsContext : CodeMemoryResponse -> string.

(** [fetchMemoryContext(query, userId, sessionId)] on the outcome of the
    remote call. *)
Definition fetchMemoryContext (remote : Remote) : MemoryContextResult :=
  let empty := {| context := ""; memoriesFound := 0; codeMemory := None |} in
  match fetchCodeMemoryContextFromApi remote with
  | Some cm =>
      if Js.truthy (context_text cm) || nonEmpty (sections cm) || nonEmpty (entities cm)
      then
        let contextText :=
          if negb (Js.truthy (context_text cm)) && nonEmpty (sections cm)
          then formatCodeMemorySectionsAsContext cm
          else context_text cm in
        {| context := contextText;
           memoriesFound :=
             if negb (entities_total cm =? 0) then entities_total cm
             else match entities cm with
                  | Some es => Z.of_nat (length es)
                  | None => 0
                  end;
           codeMemory := Some cm |}
      else empty
  | None => empty
  end.

End Fetch.

End OdamClient.

(** ** The context enhancement engine: [MemoryContextEnhancer] *)

Module Enhancer.
Import OdamClient.

(** [props.key] with [props = entity.properties || {}]. *)
Definition prop (e : Entity) (key : string) : JsValue :=
  match properties e with
  | Some bag => default JsUndefined (bag !! key)
  | None => JsUndefined
  end.

(** The values [!v] holds of. *)
Definition falsy (v : JsValue) : Prop :=
  v = JsUndefined \/ v = JsNull \/ v = JsBool false \/ v = JsNumber 0 \/ v = JsString "".

(** The three filter predicates. *)
Definition isSuccessful (e : Entity) : bool :=
  strictEq (prop e "status") "success" &&
  (strictEq (prop e "test_status") "passed" || negb (truthyV (prop e "test_status"))).

Definition isProblematic (e : Entity) : bool :=
  strictEq (prop e "status") "failed" ||
  strictEq (prop e "outcome") "regression" ||
  strictEq (prop e "test_status") "failed".

Definition isEffectiveSolution (e : Entity) : bool :=
  strictEq (prop e "status") "success" &&
  (strictEq (prop e "test_status") "passed" || negb (truthyV (prop e "test_status"))) &&
  (strictEq (prop e "outcome") "implemented" ||
   strictEq (prop e "outcome") "bug_fixed" ||
   strictEq (prop e "outcome") "optimized").

Definition findSuccessfulArtifacts (es : list Entity) : list Entity :=
  List.filter isSuccessful es.

Definition findProblematicArtifacts (es : list Entity) : list Entity :=
  List.filter isProblematic es.

Definition findEffectiveSolutions (es : list Entity) : list Entity :=
  List.filter isEffectiveSolution es.

Section Rendering.

(** [formatArtifactForContext(artifact, isSuccessful)] renders one entity.
    It prints the confidence with [toFixed] and splices property values
    into template literals, and so throws a [TypeError] on a confidence
    that is truthy and not a number, or on a value that cannot be
    printed: [None] then. *)
Variable formatArtifactForContext : Entity -> bool -> option string.

(** The property key a value that is not a string converts to: the text
    of a number or of a boolean, what [toString] returns for an object or
    an array; [None] when the conversion throws. *)
Variable toPropertyKey : JsValue -> option string.

(** The properties every plain object inherits from [Object.prototype]:
    eleven functions and the accessor [__proto__].  All are truthy and
    none has a [push]. *)
Definition objectPrototype : list string :=
  [ "constructor"; "hasOwnProperty"; "isPrototypeOf"; "propertyIsEnumerable";
    "toLocaleString"; "toString"; "valueOf"; "__defineGetter__"; "__defineSetter__";
    "__lookupGetter__"; "__lookupSetter__"; "__proto__" ].

Definition inherited (key : string) : bool := existsb (String.eqb key) objectPrototype.

(** [artifact.category || artifact.properties?.[categoryKey] || 'Other'],
    as the property key it is used as. *)
Definition categoryOf (artifact : Entity) (categoryKey : string) : option string :=
  if Js.truthy (category artifact) then Some (category artifact)
  else
    match prop artifact categoryKey with
    | JsString s => if Js.truthy s then Some s else Some "Other"
    | v => if truthyV v then toPropertyKey v else Some "Other"
    end.

(** The object [grouped]: its own properties, in the order they were
    created. *)
Definition Grouped : Type := list (string * list Entity).

(** The keys of [grouped] are never inherited ones. *)
Definition plainKeys (grouped : Grouped) : Prop :=
  Forall (fun entry : string * list Entity => inherited entry.1 = false) grouped.

Definition own (grouped : Grouped) (key : string) : option (list Entity) :=
  snd <$> List.find (fun entry : string * list Entity => String.eqb entry.1 key) grouped.

(** [grouped[key].push(artifact)] on an own property. *)
Fixpoint pushTo (key : string) (artifact : Entity) (grouped : Grouped) : Grouped :=
  match grouped with
  | [] => []
  | (k, artifacts) :: rest =>
      if String.eqb k key then (k, artifacts ++ [artifact]) :: rest
      else (k, artifacts) :: pushTo key artifact rest
  end.

(** One turn of the loop of [groupByCategory].  [grouped[category]] is
    the own property, else the inherited one, else [undefined].  Only in
    the last case is an array created; an inherited value is truthy, so
    nothing is created, and the call of its [push] throws a
    [TypeError]. *)
Definition groupOne (categoryKey : string) (grouped : Grouped) (artifact : Entity)
  : option Grouped :=
  match categoryOf artifact categoryKey with
  | None => None
  | Some key =>
      match own grouped key with
      | Some _ => Some (pushTo key artifact grouped)
      | None =>
          if inherited key then None
          else Some (grouped ++ [(key, [artifact])])
      end
  end.

(** [groupByCategory(artifacts, categoryKey)]; [None] when it throws. *)
Definition groupByCategory (artifacts : list Entity) (categoryKey : string)
  : option Grouped :=
  fold_left (fun grouped artifact =>
               match grouped with
               | Some g => groupOne categoryKey g artifact
               | None => None
               end)
            artifacts (Some []).

(** An array index: the decimal text, without leading zero, of a number
    up to [2^32 - 2]. *)
Definition digit (c : ascii) : option N :=
  let n := Ascii.N_of_ascii c in
  if ((48 <=? n) && (n <=? 57))%N then Some (n - 48)%N else None.

Fixpoint digits (s : string) (acc : N) : option N :=
  match s with
  | EmptyString => Some acc
  | String c s' =>
      match digit c with
      | Some d => digits s' (acc * 10 + d)%N
      | None => None
      end
  end.

Definition arrayIndex (s : string) : option N :=
  match s with
  | EmptyString => None
  | String c s' =>
      if Ascii.eqb c "0" && Js.truthy s' then None
      else match digits s 0 with
           | Some n => if (n <=? 4294967294)%N then Some n else None
           | None => None
           end
  end.

Fixpoint insertIndexed (n : N) (entry : string * list Entity)
    (sorted : list (N * (string * list Entity))) : list (N * (string * list Entity)) :=
  match sorted with
  | [] => [(n, entry)]
  | (m, e) :: rest =>
      if (n <? m)%N then (n, entry) :: sorted
      else (m, e) :: insertIndexed n entry rest
  end.

(** [Object.entries(grouped)]: the array indices in ascending order, then
    the other keys in the order they were created. *)
Definition entries (grouped : Grouped) : Grouped :=
  List.map snd
    (fold_left (fun sorted entry =>
                  match arrayIndex entry.1 with
                  | Some n => insertIndexed n entry sorted
                  | None => sorted
                  end)
               grouped []) ++
  List.filter (fun entry : string * list Entity =>
                 match arrayIndex entry.1 with
                 | Some _ => false
                 | None => true
                 end)
              grouped.

Definition lowerTitle (s : CodeMemorySection) : string := Js.toLowerCase (title s).

(** [existingSections.find(s => s.title.toLowerCase().includes('technical profile'))
    || { title: 'Technical Profile', items: [] }] *)
Definition findTechProfile (existingSections : list CodeMemorySection) : CodeMemorySection :=
  match List.find (fun s => Js.includes "technical profile" (lowerTitle s)) existingSections with
  | Some s => s
  | None => {| title := "Technical Profile"; items := [] |}
  end.

(** [artifacts.map(a => this.formatArtifactForContext(a, isSuccessful))] *)
Definition formatAll (isSuccessful : bool) (artifacts : list Entity) : option (list string) :=
  mapM (fun a => formatArtifactForContext a isSuccessful) artifacts.

(** The items pushed onto the technical profile, one for each entry of
    the grouping. *)
Definition languageItems (successfulArtifacts : list Entity) : option (list Item) :=
  match groupByCategory successfulArtifacts "language" with
  | None => None
  | Some languages =>
      mapM (fun entry : string * list Entity =>
              match formatAll true entry.2 with
              | Some values =>
                  Some {| label := Js.orElse (Some entry.1) "Languages / DSL";
                          values := values |}
              | None => None
              end)
           (entries languages)
  end.

(** The technical profile after the items of the successful artifacts were
    pushed onto it.  The section found is the object of the input: the
    items are pushed onto that object, which the caller does not read
    again. *)
Definition techProfileSection (existingSections : list CodeMemorySection)
    (successfulArtifacts : list Entity) : option CodeMemorySection :=
  let found := findTechProfile existingSections in
  match successfulArtifacts with
  | [] => Some found
  | _ :: _ =>
      match languageItems successfulArtifacts with
      | Some generated => Some {| title := title found; items := items found ++ generated |}
      | None => None
      end
  end.

Definition solutionsSection (values : list string) : CodeMemorySection :=
  {| title := "Proven Solutions";
     items := [ {| label := "Solutions"; values := values |} ] |}.

Definition problemsSection (values : list string) : CodeMemorySection :=
  {| title := "Known Issues";
     items := [ {| label := "Problems"; values := values |} ] |}.

(** [array.push(x)] *)
Definition push {A} (array : list A) (x : A) : list A := array ++ [x].

(** [titles.includes(t)] *)
Definition includesTitle (titles : list string) (t : string) : bool :=
  existsb (String.eqb t) titles.

(** The generated section of a bucket: none for an empty bucket. *)
Definition generatedSection (section : list string -> CodeMemorySection)
    (isSuccessful : bool) (bucket : list Entity) : option (list CodeMemorySection) :=
  match bucket with
  | _ :: _ =>
      match formatAll isSuccessful bucket with
      | Some values => Some [section values]
      | None => None
      end
  | [] => Some []
  end.

(** The last loop of [buildEnhancedSections]: the original sections whose
    lower-cased title is not among the titles emitted so far. *)
Definition keepOthers (existingSections sections : list CodeMemorySection)
  : list CodeMemorySection :=
  let existingTitles := List.map lowerTitle sections in
  fold_left
    (fun sections section =>
       if negb (includesTitle existingTitles (lowerTitle section))
       then push sections section
       else sections)
    existingSections sections.

(** [buildEnhancedSections], statement by statement; [None] when the
    grouping or a rendering throws. *)
Definition buildEnhancedSections (existingSections : list CodeMemorySection)
    (successfulArtifacts problematicArtifacts effectiveSolutions : list Entity)
  : option (list CodeMemorySection) :=
  match techProfileSection existingSections successfulArtifacts with
  | None => None
  | Some tech =>
      let sections := push [] tech in
      match generatedSection solutionsSection true effectiveSolutions with
      | None => None
      | Some solutions =>
          let sections := sections ++ solutions in
          match generatedSection problemsSection false problematicArtifacts with
          | None => None
          | Some problems =>
              let sections := sections ++ problems in
              Some (keepOthers existingSections sections)
          end
      end
  end.

(** [enhanceContext(codeMemory)]; [None] when it throws. *)
Definition enhanceContext (codeMemory : CodeMemoryResponse) : option CodeMemoryResponse :=
  match entities codeMemory with
  | None | Some [] => Some codeMemory
  | Some es =>
      match buildEnhancedSections (default [] (sections codeMemory))
                                  (findSuccessfulArtifacts es)
                                  (findProblematicArtifacts es)
                                  (findEffectiveSolutions es) with
      | Some enhancedSections =>
          Some {| entities_total := entities_total codeMemory;
                  sections := Some enhancedSections;
                  entities := entities codeMemory;
                  context_text := context_text codeMemory |}
      | None => None
      end
  end.

End Rendering.

End Enhancer.

(** ** The local context cache: [MemoryContextProvider] *)

Module ContextProvider.
Import OdamClient.

Record CacheEntry := {
  entry_context : string;
  timestamp : Z
}.

(** The provider: its user id and its cache map. *)
Record Provider := {
  userId : string;
  cache : gmap string CacheEntry
}.

(** [cacheTimeout = 60000], one minute. *)
Definition cacheTimeout : Z := 60000.

(** One call of [client.fetchMemoryContext(userQuery, userId, sessionId)]. *)
Record Fetch := {
  fetch_query : string;
  fetch_userId : string;
  fetch_sessionId : option string
}.

(** What [getMemoryContext] comes to: the string returned, the provider
    afterwards, and the remote fetches performed. *)
Record Lookup := {
  returned : string;
  provider : Provider;
  fetches : list Fetch
}.

Section Provider.

(** [getSessionId(workspacePath)]: the first 16 hex digits of the SHA-256
    digest of the path. *)
Variable getSessionId : string -> string.

(** See [OdamClient.fetchMemoryContext]. *)
Variable formatCodeMemorySectionsAsContext : CodeMemoryResponse -> string.

(** [workspacePath ? this.getSessionId(workspacePath) : undefined] *)
Definition sessionIdOf (workspacePath : option string) : option string :=
  match workspacePath with
  | Some p => if Js.truthy p then Some (getSessionId p) else None
  | None => None
  end.

(** The template [${userId}:${sessionId || 'global'}:${userQuery.substring(0, 50)}] *)
Definition cacheKey (p : Provider) (userQuery : string) (workspacePath : option string)
  : string :=
  userId p +:+ ":" +:+ Js.orElse (sessionIdOf workspacePath) "global" +:+ ":" +:+
  Js.prefix 50 userQuery.

(** The fetch a miss performs. *)
Definition fetchOf (p : Provider) (userQuery : string) (workspacePath : option string) : Fetch :=
  {| fetch_query := userQuery; fetch_userId := userId p;
     fetch_sessionId := sessionIdOf workspacePath |}.

(** [getMemoryContext(userQuery, workspacePath)].  [now] is [Date.now()]
    when the cache is consulted, [stored] is [Date.now()] when the fetched
    context is cached, and [remote] is what the remote store answers if it
    is asked. *)
Definition getMemoryContext (p : Provider) (userQuery : string)
    (workspacePath : option string) (now stored : Z) (remote : Remote) : Lookup :=
  let key := cacheKey p userQuery workspacePath in
  let fetchAndCache :=
    let result := fetchMemoryContext formatCodeMemorySectionsAsContext remote in
    let fetch := fetchOf p userQuery workspacePath in
    if Js.truthy (context result)
    then {| returned := context result;
            provider := {| userId := userId p;
                           cache := <[key := {| entry_context := context result;
                                                timestamp := stored |}]> (cache p) |};
            fetches := [fetch] |}
    else {| returned := context result; provider := p; fetches := [fetch] |} in
  match cache p !! key with
  | Some cached =>
      if now - timestamp cached <? cacheTimeout
      then {| returned := entry_context cached; provider := p; fetches := [] |}
      else fetchAndCache
  | None => fetchAndCache
  end.

(** Successive calls of [getMemoryContext] for one query; each call comes
    with its two clock readings and the answer of the remote store. *)
Fixpoint getMemoryContexts (p : Provider) (userQuery : string)
    (workspacePath : option string) (calls : list (Z * Z * Remote)) : list Lookup :=
  match calls with
  | [] => []
  | (now, stored, remote) :: rest =>
      let r := getMemoryContext p userQuery workspacePath now stored remote in
      r :: getMemoryContexts (provider r) userQuery workspacePath rest
  end.

(** The cache has no fresh entry under [key] at time [now]. *)
Definition missAt (p : Provider) (key : string) (now : Z) : Prop :=
  match cache p !! key with
  | Some cached => cacheTimeout <= now - timestamp cached
  | None => True
  end.

(** [clearCache()] *)
Definition clearCache (p : Provider) : Provider :=
  {| userId := userId p; cache := ∅ |}.

(** The providers that arise from a fresh one. *)
Inductive reachable : Provider -> Prop :=
| reach_new user : reachable {| userId := user; cache := ∅ |}
| reach_get p userQuery workspacePath now stored remote :
    reachable p ->
    reachable (provider (getMemoryContext p userQuery workspacePath now stored remote))
| reach_clearCache p : reachable p -> reachable (clearCache p).

End Provider.

End ContextProvider.

(** ** Chunk ids: [MemoryFileUpdater.updateMemoryAfterResponse] *)

Module FileUpdater.

(** [CodeArtifact] *)
Record CodeArtifact := {
  identifier : string;
  path : option string;
  language : option string;
  summary : option string;
  status : option string;
  tags : option (list string);
  outcome : option string;
  chunk_id : option string;
  diff : option string;
  test_status : option string
}.

(** [CodeInteractionPayload] *)
Record Metadata := {
  branch : option string;
  ticket : option string
}.

Record CodeInteractionPayload := {
  user_id : string;
  session_id : option string;
  query : string;
  response : string;
  artifacts : list CodeArtifact;
  metadata : option Metadata
}.

(** The UTF-8 bytes [Buffer.from(s)] holds, for code units below 256. *)
Definition utf8Char (c : ascii) : list N :=
  let n := Ascii.N_of_ascii c in
  if (n <? 128)%N then [n] else [192 + n / 64; 128 + n mod 64]%N.

Fixpoint utf8 (s : string) : list N :=
  match s with
  | String c s' => utf8Char c ++ utf8 s'
  | EmptyString => []
  end.

Definition base64Alphabet : string :=
  "ABCDEFGHIJKLMNOPQRSTUVWXYZabcdefghijklmnopqrstuvwxyz0123456789+/".

Definition base64Digit (n : N) : ascii :=
  match String.get (N.to_nat n) base64Alphabet with
  | Some c => c
  | None => "="%char
  end.

(** [buffer.toString('base64')] *)
Fixpoint base64 (bytes : list N) : string :=
  match bytes with
  | [] => ""
  | [a] =>
      String (base64Digit (a / 4))
     (String (base64Digit (a mod 4 * 16)) "==")
  | [a; b] =>
      String (base64Digit (a / 4))
     (String (base64Digit (a mod 4 * 16 + b / 16))
     (String (base64Digit (b mod 16 * 4)) "="))
  | a :: b :: c :: rest =>
      String (base64Digit (a / 4))
     (String (base64Digit (a mod 4 * 16 + b / 16))
     (String (base64Digit (b mod 16 * 4 + c / 64))
     (String (base64Digit (c mod 64)) (base64 rest))))
  end%N.

(** [Buffer.from(`${identifier}:${path}`).toString('base64').substring(0, 32)] *)
Definition chunkIdOf (identifier path : string) : string :=
  Js.prefix 32 (base64 (utf8 (identifier +:+ ":" +:+ path))).

(** The body of the [artifacts.map] callback: the artifact, with a chunk
    id assigned when it has none and has an identifier and a path. *)
Definition withChunkId (artifact : CodeArtifact) : CodeArtifact :=
  match path artifact with
  | Some p =>
      if negb (Js.truthyO (chunk_id artifact)) && Js.truthy (identifier artifact)
         && Js.truthy p
      then {| identifier := identifier artifact; path := path artifact;
              language := language artifact; summary := summary artifact;
              status := status artifact; tags := tags artifact;
              outcome := outcome artifact;
              chunk_id := Some (chunkIdOf (identifier artifact) p);
              diff := diff artifact; test_status := test_status artifact |}
      else artifact
  | None => artifact
  end.

Definition artifactsWithChunkId (artifacts : list CodeArtifact) : list CodeArtifact :=
  List.map withChunkId artifacts.

(** The payload [updateMemoryAfterResponse] hands to [recordCodeArtifact]. *)
Definition recordPayload (userId sessionId userQuery assistantResponse : string)
    (artifacts : list CodeArtifact) (metadata : Metadata) : CodeInteractionPayload :=
  {| user_id := userId; session_id := Some sessionId; query := userQuery;
     response := assistantResponse; artifacts := artifactsWithChunkId artifacts;
     metadata := Some metadata |}.

End FileUpdater.

(** ** The update guard: [CursorChatContextInjector.updateContextForChat] *)

Module ChatContextInjector.

(** An asynchronous call that has started and waits at an [await]:
    [updateContextForChat] waits for [fileUpdater.updateMemoryFile], and
    [MemoryFileUpdater.updateMemoryAfterResponse] waits for the record
    request, the settle delay and its own [updateMemoryFile].  Both end by
    writing the memory file of the workspace folder. *)
Inductive Task :=
| UpdateContextForChat (workspaceFolder userQuery : string)
| UpdateMemoryAfterResponse (userQuery assistantResponse workspaceFolder : string).

#[export] Instance Task_eq_dec : EqDecision Task.
Proof. solve_decision. Defined.

Definition workspaceOf (t : Task) : string :=
  match t with
  | UpdateContextForChat w _ => w
  | UpdateMemoryAfterResponse _ _ w => w
  end.

Definition isChatUpdate (t : Task) : bool :=
  match t with
  | UpdateContextForChat _ _ => true
  | UpdateMemoryAfterResponse _ _ _ => false
  end.

(** The injector's flag, the calls in flight, and the workspace folders
    whose memory file was written, latest first. *)
Record State := {
  isUpdating : bool;
  running : list Task;
  written : list string
}.

Definition init : State := {| isUpdating := false; running := []; written := [] |}.

(** The event loop runs one of two things at a time: a call up to its
    [await], or the rest of a call whose awaited promise settled ([wrote]:
    the memory file was written; [threw]: the awaited call threw). *)
Inductive Event :=
| Call (t : Task)
| Settle (t : Task) (wrote threw : bool).

Fixpoint removeFirst (t : Task) (l : list Task) : list Task :=
  match l with
  | [] => []
  | x :: l' => if decide (x = t) then l' else x :: removeFirst t l'
  end.

(** [updateContextForChat] up to its [await]: return at once when the
    flag is set, else set it and start. *)
Definition callUpdateContextForChat (workspaceFolder userQuery : string) (st : State) : State :=
  if isUpdating st then st
  else {| isUpdating := true;
          running := UpdateContextForChat workspaceFolder userQuery :: running st;
          written := written st |}.

(** [updateMemoryAfterResponse] up to its first [await]: no flag is read. *)
Definition callUpdateMemoryAfterResponse (userQuery assistantResponse workspaceFolder : string)
    (st : State) : State :=
  {| isUpdating := isUpdating st;
     running := UpdateMemoryAfterResponse userQuery assistantResponse workspaceFolder
                :: running st;
     written := written st |}.

(** The rest of a call: the file is written or not, and the [finally] of
    [updateContextForChat] resets the flag, also when the update threw. *)
Definition settle (t : Task) (wrote threw : bool) (st : State) : State :=
  {| isUpdating := if isChatUpdate t then false else isUpdating st;
     running := removeFirst t (running st);
     written := if wrote then workspaceOf t :: written st else written st |}.

Definition step (e : Event) (st : State) : option State :=
  match e with
  | Call (UpdateContextForChat w q) => Some (callUpdateContextForChat w q st)
  | Call (UpdateMemoryAfterResponse q r w) => Some (callUpdateMemoryAfterResponse q r w st)
  | Settle t wrote threw =>
      if decide (t ∈ running st) then Some (settle t wrote threw st) else None
  end.

Fixpoint run (trace : list Event) (st : State) : option State :=
  match trace with
  | [] => Some st
  | e :: trace' =>
      match step e st with
      | Some st' => run trace' st'
      | None => None
      end
  end.

Definition reachable (st : State) : Prop := exists trace, run trace init = Some st.

(** The chat updates in flight. *)
Definition chatUpdates (st : State) : list Task := List.filter isChatUpdate (running st).

(** The flag is set exactly while one chat update is in flight. *)
Definition guarded (st : State) : Prop :=
  length (chatUpdates st) = if isUpdating st then 1%nat else 0%nat.

End ChatContextInjector.

(** ** Runs of the processor *)

Module HookRuns.
Import Correlator.

#[export] Instance PendingInteraction_countable : Countable PendingInteraction.
Proof.
  refine (inj_countable'
            (fun i => (query i, conversationId i, generationId i, model i, createdAt i))
            (fun t => match t with
                      | (q, c, g, m, t) =>
                          {| query := q; conversationId := c; generationId := g;
                             model := m; createdAt := t |}
                      end) _).
  by intros [].
Defined.

(** The interactions held by either index. *)
Definition pending (st : State) : gset PendingInteraction :=
  map_img (pendingByGeneration st) ∪ map_img (pendingByConversation st).

(** What reaches the processor: the three hook events, each with the
    dependencies, the clock and the outcome of the synchronization at the
    time it is handled, and [clear()]. *)
Inductive HookEvent :=
| Before (deps : Deps) (now : Z) (payload : HookPromptPayload)
| After (deps : Deps) (syncError : option string) (payload : HookResponsePayload)
| Thought (deps : Deps) (payload : HookThoughtPayload)
| Clear.

Definition handle (e : HookEvent) (st : State) : State * list Effect :=
  match e with
  | Before deps now payload => (handleBeforePrompt deps now payload st).1
  | After deps syncError payload => (handleAfterResponse deps syncError payload st).1
  | Thought deps payload => (handleAfterThought deps payload st).1
  | Clear => (clear st, [])
  end.

(** The events handled one after the other; the effects in order. *)
Fixpoint run (events : list HookEvent) (st : State) : State * list Effect :=
  match events with
  | [] => (st, [])
  | e :: rest =>
      let '(st1, effects1) := handle e st in
      let '(st2, effects2) := run rest st1 in
      (st2, effects1 ++ effects2)
  end.

(** The query a before-event records, if it records one. *)
Definition recordedQuery (e : HookEvent) : option string :=
  match e with
  | Before deps now payload =>
      match workspace deps with
      | Some _ =>
          let userQuery := Js.trim (Js.orElse (prompt payload) "") in
          if Js.truthy userQuery then Some userQuery else None
      | None => None
      end
  | _ => None
  end.

Definition recordedQueries (events : list HookEvent) : list string :=
  omap recordedQuery events.

(** The queries handed to the synchronization. *)
Definition synchronizedQuery (e : Effect) : option string :=
  match e with
  | UpdateMemoryAfterResponse userQuery _ _ => Some userQuery
  | _ => None
  end.

Definition synchronizedQueries (effects : list Effect) : list string :=
  omap synchronizedQuery effects.

(** Every pending query is non-empty and trimmed. *)
Definition trimmedQueries (st : State) : Prop :=
  forall i, i ∈ pending st -> query i <> "" /\ Js.trim (query i) = query i.

End HookRuns.

(** ** What happens to a pending prompt between its recording and its
       resolution *)

Module Consumption.
Import Correlator HookRuns.

(** Whether a before-event records a prompt under the generation id [g]. *)
Definition records (g : string) (e : HookEvent) : bool :=
  match e with
  | Before deps now payload =>
      bool_decide (is_Some (recordedQuery e)) &&
      bool_decide (p_generation_id payload = Some g)
  | _ => false
  end.

(** Whether handling [e] in [st] takes away the entry under the
    generation id [g]: a before-event that records a prompt under [g], an
    after-event that resolves an interaction whose generation id is [g],
    by either key, or [clear()]. *)
Definition displaces (g : string) (e : HookEvent) (st : State) : bool :=
  match e with
  | Before _ _ _ => records g e
  | After deps _ payload =>
      match workspace deps,
            (lookupInteraction (conversation_id payload) (generation_id payload) st).1 with
      | Some _, Some i => bool_decide (generationId i = Some g)
      | _, _ => false
      end
  | Thought _ _ => false
  | Clear => true
  end.

(** No event of the run takes the entry under [g] away. *)
Fixpoint undisturbed (g : string) (events : list HookEvent) (st : State) : bool :=
  match events with
  | [] => true
  | e :: rest => negb (displaces g e st) && undisturbed g rest (handle e st).1
  end.

End Consumption.

(** ** The hook dispatcher: the [cursor-odam-hook] script *)

Module HookRunner.
Import Server.

(** [HookRunnerConfig] *)
Record HookRunnerConfig := {
  port : Z;
  token : string
}.

(** [loadConfig()] on the discovery file: [None] when the file is missing,
    does not parse, or lacks a numeric port or a string token. *)
Definition loadConfig (file : option HookServerConfig) : option HookRunnerConfig :=
  match file with
  | Some c => Some {| port := cfg_port c; token := cfg_token c |}
  | None => None
  end.

(** The options and the body handed to [http.request]. *)
Record ClientRequest := {
  req_hostname : string;
  req_port : Z;
  req_path : string;
  req_method : string;
  req_headers : list (string * string);
  req_timeout : Z;
  req_body : string
}.

(** The request [dispatchEvent(event, payload, config)] sends. *)
Definition dispatchEvent (event payload : string) (config : HookRunnerConfig)
  : ClientRequest :=
  {| req_hostname := "127.0.0.1";
     req_port := port config;
     req_path := "/hook/" +:+ event;
     req_method := "POST";
     req_headers := [ ("Content-Type", "application/json");
                      ("X-ODAM-Hook-Token", token config) ];
     req_timeout := 5000;
     req_body := Js.orElse (Some payload) "{}" |}.

Definition hookTypes : list string := ["before"; "after"; "thought"].

(** [main()]: the exit code and the requests sent.  [argv2] is
    [process.argv[2]], [stdin] the text read from the standard input,
    [file] the discovery file, and [send] what becomes of a request: the
    status code of the response, or [None] when the server is not
    reached. *)
Definition main (argv2 : option string) (stdin : string)
    (file : option HookServerConfig) (send : ClientRequest -> option Z)
  : Z * list ClientRequest :=
  let type := Js.toLowerCase (Js.trim (Js.orElse argv2 "")) in
  if negb (existsb (String.eqb type) hookTypes) then (1, [])
  else if negb (Js.truthy stdin) || (String.length (Js.trim stdin) =? 0)%nat then (1, [])
  else
    match loadConfig file with
    | None => (1, [])
    | Some config =>
        let request := dispatchEvent type stdin config in
        match send request with
        | Some 200 => (0, [request])
        | _ => (1, [request])
        end
    end.

(** The request as the server receives it: the HTTP layer lower-cases the
    header names and delivers the body in chunks (here in one). *)
Definition incoming (r : ClientRequest) : Request :=
  {| method := req_method r;
     pathname := req_path r;
     headers := list_to_map (List.map (fun h : string * string => (Js.toLowerCase h.1, h.2))
                                      (req_headers r));
     chunks := if Js.truthy (req_body r) then [req_body r] else [] |}.

End HookRunner.

(** ** Memory statistics: [OdamClient.getMemoryStats] *)

Module MemoryStats.

(** [CodeMemoryStats] *)
Record CodeMemoryStats := {
  entities_total : Z;
  memories_total : Z;
  search_hits : Z;
  graph_nodes : Z;
  has_session : option bool;
  generated_at : option string
}.

(** The health score is a floating-point number; it is kept as the
    expression that computes it: [0.0], or
    [Math.min(0.8 + totalMemories * 0.05, 1.0)]. *)
Inductive HealthScore :=
| HealthZero
| HealthOf (totalMemories : Z).

(** [MemoryStats], as [getMemoryStats] fills it. *)
Record Stats := {
  user_id : string;
  total_memories : Z;
  entities_count : Z;
  stats_graph_nodes : Z;
  memory_health_score : HealthScore;
  last_updated : string
}.

(** The body posted to [/api/v1/code-memory/context]. *)
Record StatsPayload := {
  payload_user_id : string;
  payload_session_id : option string;
  payload_query : string;
  payload_limit : Z
}.

(** One request: it throws, or it is answered, with or without [stats]. *)
Inductive Attempt :=
| AttemptFailed
| AttemptAnswered (stats : option CodeMemoryStats).

Inductive Step :=
| Post (payload : StatsPayload)
| Wait (milliseconds : Z).

Definition statsPayload (userId : string) (sessionId : option string) : StatsPayload :=
  {| payload_user_id := userId;
     payload_session_id := if Js.truthyO sessionId then sessionId else None;
     payload_query := if Js.truthyO sessionId
                      then "Get all project memory statistics and context"
                      else "Get all user memory statistics";
     payload_limit := 100 |}.

(** The result built from the [stats] of a response; [now] is
    [new Date().toISOString()]. *)
Definition statsOf (userId : string) (stats : CodeMemoryStats) (now : string) : Stats :=
  {| user_id := userId;
     total_memories := memories_total stats;
     entities_count := entities_total stats;
     stats_graph_nodes := graph_nodes stats;
     memory_health_score :=
       if 0 <? entities_total stats then HealthOf (memories_total stats) else HealthZero;
     last_updated := Js.orElse (generated_at stats) now |}.

(** The recursion of [getMemoryStats] on [retryCount]: [budget] counts
    the retries that [retryCount < 2] still allows.  [remote] and [clock]
    give the answer and the time of the request made with a given
    [retryCount]. *)
Fixpoint retryLoop (userId : string) (sessionId : option string)
    (remote : nat -> Attempt) (clock : nat -> string)
    (budget retryCount : nat) : option Stats * list Step :=
  let post := Post (statsPayload userId sessionId) in
  match remote retryCount with
  | AttemptFailed => (None, [post])
  | AttemptAnswered (Some stats) => (Some (statsOf userId stats (clock retryCount)), [post])
  | AttemptAnswered None =>
      match budget with
      | S budget' =>
          let '(result, steps) :=
            retryLoop userId sessionId remote clock budget' (S retryCount) in
          (result, post :: Wait 1000 :: steps)
      | O => (None, [post])
      end
  end.

(** [getMemoryStats(userId, sessionId, retryCount)] *)
Definition getMemoryStats (userId : string) (sessionId : option string)
    (retryCount : nat) (remote : nat -> Attempt) (clock : nat -> string)
  : option Stats * list Step :=
  retryLoop userId sessionId remote clock (2 - retryCount) retryCount.

Definition isPost (s : Step) : bool :=
  match s with
  | Post _ => true
  | Wait _ => false
  end.

Definition posts (steps : list Step) : nat := length (List.filter isPost steps).

End MemoryStats.

(** ** The memory file: [MemoryFileUpdater.updateMemoryFile] and
       [updateMemoryAfterResponse] *)

Module MemoryFile.
Import OdamClient FileUpdater.

(** The body [fetchCodeMemoryContextFromApi] posts. *)
Record ContextPayload := {
  cp_user_id : string;
  cp_query : string;
  cp_session_id : option string;
  cp_limit : Z
}.

(** [query && query.trim().length > 0 ? query.trim() : 'Get user memory context'],
    as [fetchMemoryContext] and [fetchCodeMemoryContextFromApi] both
    compute it. *)
Definition clientQuery (query : string) : string :=
  if Js.truthy query && (0 <? String.length (Js.trim query))%nat
  then Js.trim query
  else "Get user memory context".

(** The body posted for [fetchMemoryContext(query, userId, sessionId)]. *)
Definition contextPayload (query userId : string) (sessionId : option string)
  : ContextPayload :=
  {| cp_user_id := userId;
     cp_query := clientQuery (clientQuery query);
     cp_session_id := sessionId;
     cp_limit := 40 |}.

(** The text handed to [writeMemoryFile]: what [formatContextForRulesFile]
    returns, followed or not by the note that the memory is still empty. *)
Record RulesContent := {
  formatted : string;
  onboarding : bool
}.

(** The updater: its user id, [lastQuery] and [lastContext]. *)
Record Updater := {
  userId : string;
  lastQuery : string;
  lastContext : option RulesContent
}.

Inductive FileEffect :=
| PostContext (payload : ContextPayload)
| WriteMemoryFile (workspaceFolder : string) (content : RulesContent) (written : bool)
| GetGitMetadata (workspaceFolder : string)
| RecordCodeArtifact (payload : CodeInteractionPayload)
| Delay (milliseconds : Z).

Section Updater.

Variable getSessionId : string -> string.
Variable formatCodeMemorySectionsAsContext : CodeMemoryResponse -> string.
Variable formatArtifactForContext : Entity -> bool -> option string.
Variable toPropertyKey : JsValue -> option string.

(** [formatContextForRulesFile(context, memoriesFound, response, codeMemory)];
    the [response] of a fetched result is always [undefined]. *)
Variable formatContextForRulesFile : string -> Z -> option CodeMemoryResponse -> string.

(** [userQuery && userQuery.trim().length > 0] *)
Definition hasQuery (userQuery : string) : bool :=
  Js.truthy userQuery && (0 <? String.length (Js.trim userQuery))%nat.

(** [hasQuery ? userQuery.trim() : this.lastQuery || 'Fetch ODAM memory context'] *)
Definition effectiveQuery (u : Updater) (userQuery : string) : string :=
  if hasQuery userQuery then Js.trim userQuery
  else Js.orElse (Some (lastQuery u)) "Fetch ODAM memory context".

(** The code memory of a fetched result after [enhanceContext]: [None]
    when the enhancer throws, [Some None] when the result has no code
    memory. *)
Definition enhancement (result : MemoryContextResult)
  : option (option CodeMemoryResponse) :=
  match codeMemory result with
  | Some cm =>
      match Enhancer.enhanceContext formatArtifactForContext toPropertyKey cm with
      | Some enhanced => Some (Some enhanced)
      | None => None
      end
  | None => Some None
  end.

(** [updateMemoryFile(userQuery, workspaceFolder)].  [remote] is the answer
    of the remote store, [writeThrows] tells whether [writeMemoryFile]
    throws, and [fallbackThrows] whether the write of the fallback file
    throws as well.  The [try] block covers the enhancer and the write:
    when either throws, nothing is remembered and the fallback file is
    written. *)
Definition updateMemoryFile (u : Updater) (userQuery : string)
    (workspaceFolder : option string) (remote : Remote)
    (writeThrows fallbackThrows : bool) : Updater * list FileEffect :=
  match workspaceFolder with
  | None => (u, [])
  | Some ws =>
      let sessionId := getSessionId ws in
      if negb (hasQuery userQuery) && negb (Js.truthy (lastQuery u)) then (u, [])
      else
        let query := effectiveQuery u userQuery in
        let fetch := PostContext (contextPayload query (userId u) (Some sessionId)) in
        let result := fetchMemoryContext formatCodeMemorySectionsAsContext remote in
        let fallback :=
          WriteMemoryFile ws {| formatted := formatContextForRulesFile "" 0 None;
                                onboarding := false |}
                          (negb fallbackThrows) in
        match enhancement result with
        | None => (u, [fetch; fallback])
        | Some enhanced =>
            let contextToUse :=
              match enhanced with
              | Some cm => if Js.truthy (context_text cm) then context_text cm
                           else context result
              | None => context result
              end in
            let content :=
              {| formatted := formatContextForRulesFile contextToUse
                                                        (memoriesFound result) enhanced;
                 onboarding := negb (Js.truthy (context result)) |} in
            if writeThrows then (u, [fetch; WriteMemoryFile ws content false; fallback])
            else
              ({| userId := userId u; lastQuery := userQuery;
                  lastContext := Some content |},
               [fetch; WriteMemoryFile ws content true])
        end
  end.

(** [updateMemoryAfterResponse(userQuery, assistantResponse, artifacts,
    workspaceFolder)]; [metadata] is what [getGitMetadata] collects.  The
    result of the record request is only logged. *)
Definition updateMemoryAfterResponse (u : Updater) (userQuery assistantResponse : string)
    (artifacts : list CodeArtifact) (workspaceFolder : option string)
    (metadata : Metadata) (remote : Remote) (writeThrows fallbackThrows : bool)
  : Updater * list FileEffect :=
  match workspaceFolder with
  | None => (u, [])
  | Some ws =>
      let sessionId := getSessionId ws in
      let payload :=
        recordPayload (userId u) sessionId userQuery assistantResponse artifacts metadata in
      let '(u', effects) :=
        updateMemoryFile u userQuery workspaceFolder remote writeThrows fallbackThrows in
      (u', GetGitMetadata ws :: RecordCodeArtifact payload :: Delay 2000 :: effects)
  end.

(** What a request of the hook event processor comes to in the updater:
    [handleBeforePrompt] calls [updateMemoryFile(userQuery, workspaceFolder)]
    and [handleAfterResponse] calls
    [updateMemoryAfterResponse(interaction.query, assistantResponse, [],
    workspaceFolder)]; the other two requests leave the updater alone. *)
Definition perform (e : Correlator.Effect) (u : Updater) (metadata : Metadata)
    (remote : Remote) (writeThrows fallbackThrows : bool) : Updater * list FileEffect :=
  match e with
  | Correlator.UpdateMemoryFile userQuery ws =>
      updateMemoryFile u userQuery (Some ws) remote writeThrows fallbackThrows
  | Correlator.UpdateMemoryAfterResponse userQuery assistantResponse ws =>
      updateMemoryAfterResponse u userQuery assistantResponse [] (Some ws) metadata
                                remote writeThrows fallbackThrows
  | Correlator.GetMemoryStats _ | Correlator.LogCursorContext _ => (u, [])
  end.

End Updater.

Definition isWrite (e : FileEffect) : bool :=
  match e with
  | WriteMemoryFile _ _ _ => true
  | _ => false
  end.

Definition isPostContext (e : FileEffect) : bool :=
  match e with
  | PostContext _ => true
  | _ => false
  end.

End MemoryFile.

(** ** Chunk ids of documentation sections:
       [ProjectKnowledgeIndexer.recordSection] *)

Module Indexer.
Import FileUpdater.

(** [`${relativePath}#${section.title || 'section'}`] *)
Definition artifactIdentifier (relativePath title : string) : string :=
  relativePath +:+ "#" +:+ Js.orElse (Some title) "section".

(** [Buffer.from(`${artifactIdentifier}:${relativePath}`).toString('base64')
    .substring(0, 32)] *)
Definition sectionChunkId (relativePath title : string) : string :=
  Js.prefix 32 (base64 (utf8 (artifactIdentifier relativePath title +:+ ":" +:+
                              relativePath))).

(** The artifact of a section, as far as its identity goes. *)
Definition sectionArtifact (relativePath title summary : string) (tags : list string)
  : CodeArtifact :=
  {| identifier := artifactIdentifier relativePath title;
     path := Some relativePath;
     language := Some "markdown";
     summary := Some summary;
     status := Some "success";
     tags := Some tags;
     outcome := Some "documented";
     chunk_id := Some (sectionChunkId relativePath title);
     diff := None;
     test_status := None |}.

End Indexer.

(** ** The status bar item: [MemoryStatusBar] *)

Module StatusBar.

(** The tooltip: the initial text, the statistics (their rendering prints
    a floating-point number), or the notice that they are unavailable. *)
Inductive Tooltip :=
| TooltipToggle
| TooltipStats (stats : MemoryStats.Stats)
| TooltipUnavailable.

Record Item := {
  enabled : bool;
  text : string;
  warningBackground : bool;
  tooltip : Tooltip
}.

(** [updateStatus(enabled)] *)
Definition updateStatus (on : bool) (s : Item) : Item :=
  if on
  then {| enabled := on; text := "$(brain) ODAM"; warningBackground := false;
          tooltip := tooltip s |}
  else {| enabled := on; text := "$(brain) ODAM (off)"; warningBackground := true;
          tooltip := tooltip s |}.

(** The constructor. *)
Definition create : Item :=
  updateStatus false
    {| enabled := false; text := ""; warningBackground := false;
       tooltip := TooltipToggle |}.

(** [updateTooltip(stats)] *)
Definition updateTooltip (stats : option MemoryStats.Stats) (s : Item) : Item :=
  {| enabled := enabled s; text := text s; warningBackground := warningBackground s;
     tooltip := match stats with
                | Some st => TooltipStats st
                | None => TooltipUnavailable
                end |}.

(** [showActivity()] *)
Definition showActivity (s : Item) : Item :=
  if enabled s
  then {| enabled := enabled s; text := "$(sync~spin) ODAM";
          warningBackground := warningBackground s; tooltip := tooltip s |}
  else s.

(** [hideActivity()] *)
Definition hideActivity (s : Item) : Item := updateStatus (enabled s) s.

Inductive Call :=
| UpdateStatus (on : bool)
| UpdateTooltip (stats : option MemoryStats.Stats)
| ShowActivity
| HideActivity.

Definition call (c : Call) (s : Item) : Item :=
  match c with
  | UpdateStatus on => updateStatus on s
  | UpdateTooltip stats => updateTooltip stats s
  | ShowActivity => showActivity s
  | HideActivity => hideActivity s
  end.

(** The calls made one after the other. *)
Definition calls (cs : list Call) (s : Item) : Item :=
  fold_left (fun s c => call c s) cs s.

(** What every call keeps: the text and the background follow the
    enabled flag. *)
Definition consistent (s : Item) : Prop :=
  warningBackground s = negb (enabled s) /\
  (if enabled s
   then text s = "$(brain) ODAM" \/ text s = "$(sync~spin) ODAM"
   else text s = "$(brain) ODAM (off)").

End StatusBar.

(** ** Concrete inputs used by the examples below *)

Module Examples.
Import Correlator Server.

Definition deps0 : Deps :=
  {| workspace := Some "/home/dev/project"; hasLogger := false;
     hasStatusBar := false; userId := Some "user-1" |}.

(** The same dependencies with no folder open. *)
Definition deps_no_workspace : Deps :=
  {| workspace := None; hasLogger := false; hasStatusBar := false;
     userId := Some "user-1" |}.

(** A prompt that carries a conversation id only. *)
Definition before_conversation_only : HookPromptPayload :=
  {| prompt := Some "  how do I sort a list?  ";
     p_conversation_id := Some "conv-1"; p_generation_id := None;
     p_model := None |}.

Definition st_conversation_only : State :=
  (handleBeforePrompt deps0 1000 before_conversation_only init).1.1.

(** A prompt that carries a generation id only. *)
Definition before_generation : HookPromptPayload :=
  {| prompt := Some "fix the failing test";
     p_conversation_id := None; p_generation_id := Some "gen-7";
     p_model := Some "gpt" |}.

(** A double quote, to spell JSON text. *)
Definition dq : string := String (Ascii.ascii_of_nat 34) "".

(** The JSON object with [text] = done and [generation_id] = gen-7. *)
Definition raw_after : string :=
  "{" +:+ dq +:+ "text" +:+ dq +:+ ":" +:+ dq +:+ "done" +:+ dq +:+ "," +:+
  dq +:+ "generation_id" +:+ dq +:+ ":" +:+ dq +:+ "gen-7" +:+ dq +:+ "}".

Definition parsed_after : Processor.Json :=
  Processor.JObject [ ("text", Processor.JString "done");
                      ("generation_id", Processor.JString "gen-7") ].

(** [JSON.parse], tabulated on the one body the examples send. *)
Definition parse_after (raw : string) : option Processor.Json :=
  if String.eqb raw raw_after then Some parsed_after else None.

(** The JSON texts [null] and an object whose [text] is the number 5. *)
Definition raw_null : string := "null".

Definition raw_text_5 : string :=
  "{" +:+ dq +:+ "text" +:+ dq +:+ ":5}".

(** [JSON.parse], tabulated on these three bodies. *)
Definition parse_bodies (raw : string) : option Processor.Json :=
  if String.eqb raw raw_after then Some parsed_after
  else if String.eqb raw raw_null then Some Processor.JNull
  else if String.eqb raw raw_text_5
       then Some (Processor.JObject [("text", Processor.JNumber 5)])
  else None.

(** A server whose processor has recorded [before_conversation_only]. *)
Definition server0 : Server :=
  {| token := "5f3a9c0e77b1";
     processor :=
       (Processor.handleBeforePrompt
          deps0 1000 (Processor.ofPromptPayload before_conversation_only)
          Processor.init).1.1 |}.

Definition post_after (hs : gmap string string) : Request :=
  {| method := "POST"; pathname := "/hook/after"; headers := hs;
     chunks := [raw_after] |}.

(** An authenticated after-event with the body [raw]. *)
Definition post_body (raw : string) : Request :=
  {| method := "POST"; pathname := "/hook/after";
     headers := {[ "x-odam-hook-token" := "5f3a9c0e77b1" ]}; chunks := [raw] |}.

(** An entity marked successful whose [test_status] is the empty string. *)
Definition entity_empty_test_status : OdamClient.Entity :=
  {| OdamClient.id := "e1"; OdamClient.name := "parser";
     OdamClient.category := "code";
     OdamClient.properties :=
       Some {[ "status" := OdamClient.JsString "success";
               "test_status" := OdamClient.JsString "" ]} |}.

(** A rendering for the examples: an artifact is printed by its name. *)
Definition format_by_name (a : OdamClient.Entity) (isSuccessful : bool) : option string :=
  Some (OdamClient.name a).

(** The property keys of the values the examples use that are not
    strings. *)
Definition key_of_value (v : OdamClient.JsValue) : option string :=
  match v with
  | OdamClient.JsBool true => Some "true"
  | OdamClient.JsNumber 3 => Some "3"
  | OdamClient.JsNumber 10 => Some "10"
  | OdamClient.JsObject => Some "[object Object]"
  | _ => None
  end.

(** The two entities of the specification's example. *)
Definition entity_A : OdamClient.Entity :=
  {| OdamClient.id := "a"; OdamClient.name := "A"; OdamClient.category := "";
     OdamClient.properties :=
       Some {[ "status" := OdamClient.JsString "success";
               "test_status" := OdamClient.JsString "passed";
               "outcome" := OdamClient.JsString "bug_fixed" ]} |}.

Definition entity_B : OdamClient.Entity :=
  {| OdamClient.id := "b"; OdamClient.name := "B"; OdamClient.category := "";
     OdamClient.properties := Some {[ "status" := OdamClient.JsString "failed" ]} |}.

(** A successful artifact written in the language [constructor]. *)
Definition entity_constructor : OdamClient.Entity :=
  {| OdamClient.id := "c"; OdamClient.name := "C"; OdamClient.category := "";
     OdamClient.properties :=
       Some {[ "status" := OdamClient.JsString "success";
               "language" := OdamClient.JsString "constructor" ]} |}.

(** Successful artifacts in the languages [python], [10] and [3]. *)
Definition entity_in (name language : string) : OdamClient.Entity :=
  {| OdamClient.id := name; OdamClient.name := name; OdamClient.category := "";
     OdamClient.properties :=
       Some {[ "status" := OdamClient.JsString "success";
               "language" := OdamClient.JsString language ]} |}.

(** An entity that falls in no bucket. *)
Definition entity_draft : OdamClient.Entity :=
  {| OdamClient.id := "d"; OdamClient.name := "D"; OdamClient.category := "";
     OdamClient.properties := Some {[ "status" := OdamClient.JsString "draft" ]} |}.

Definition section_titled (t : string) : OdamClient.CodeMemorySection :=
  {| OdamClient.title := t; OdamClient.items := [] |}.

(** A response with a lower-case technical profile and one more section. *)
Definition memory_AB : OdamClient.CodeMemoryResponse :=
  {| OdamClient.entities_total := 2;
     OdamClient.sections := Some [section_titled "technical profile"; section_titled "Notes"];
     OdamClient.entities := Some [entity_A; entity_B];
     OdamClient.context_text := "" |}.

(** A response two of whose sections differ in the case of their title only. *)
Definition memory_repeated_title : OdamClient.CodeMemoryResponse :=
  {| OdamClient.entities_total := 1;
     OdamClient.sections := Some [section_titled "Notes"; section_titled "notes"];
     OdamClient.entities := Some [entity_draft];
     OdamClient.context_text := "" |}.

(** An artifact without a chunk id, and the same one again. *)
Definition artifact_updateMemoryFile : FileUpdater.CodeArtifact :=
  {| FileUpdater.identifier := "updateMemoryFile";
     FileUpdater.path := Some "src/memoryFileUpdater.ts";
     FileUpdater.language := Some "typescript"; FileUpdater.summary := None;
     FileUpdater.status := Some "success"; FileUpdater.tags := None;
     FileUpdater.outcome := None; FileUpdater.chunk_id := None;
     FileUpdater.diff := None; FileUpdater.test_status := None |}.

Definition artifact_updateMemoryFile_again : FileUpdater.CodeArtifact :=
  {| FileUpdater.identifier := "updateMemoryFile";
     FileUpdater.path := Some "src/memoryFileUpdater.ts";
     FileUpdater.language := None; FileUpdater.summary := Some "second sync";
     FileUpdater.status := Some "draft"; FileUpdater.tags := Some ["wip"];
     FileUpdater.outcome := None; FileUpdater.chunk_id := None;
     FileUpdater.diff := None; FileUpdater.test_status := None |}.

(** An artifact as [extractArtifactsFromResponse] builds it: no path. *)
Definition artifact_from_response : FileUpdater.CodeArtifact :=
  {| FileUpdater.identifier := "cache_data";
     FileUpdater.path := None;
     FileUpdater.language := Some "python";
     FileUpdater.summary := Some "Generated from assistant response";
     FileUpdater.status := Some "success"; FileUpdater.tags := Some ["generated"];
     FileUpdater.outcome := None; FileUpdater.chunk_id := None;
     FileUpdater.diff := None; FileUpdater.test_status := None |}.

(** A chat update in flight. *)
Definition st_chat_update : ChatContextInjector.State :=
  ChatContextInjector.callUpdateContextForChat "/home/dev/project" "how do I sort a list?"
    ChatContextInjector.init.

(** A chat update and two synchronizations start for one workspace
    folder; the two synchronizations then finish, each writing the file. *)
Definition trace_overlap : list ChatContextInjector.Event :=
  [ ChatContextInjector.Call
      (ChatContextInjector.UpdateContextForChat "/home/dev/project" "q0");
    ChatContextInjector.Call
      (ChatContextInjector.UpdateMemoryAfterResponse "q1" "r1" "/home/dev/project");
    ChatContextInjector.Call
      (ChatContextInjector.UpdateMemoryAfterResponse "q2" "r2" "/home/dev/project") ].

Definition trace_overlap_settled : list ChatContextInjector.Event :=
  trace_overlap ++
  [ ChatContextInjector.Settle
      (ChatContextInjector.UpdateMemoryAfterResponse "q1" "r1" "/home/dev/project") true false;
    ChatContextInjector.Settle
      (ChatContextInjector.UpdateMemoryAfterResponse "q2" "r2" "/home/dev/project") true false ].

(** [getSessionId], tabulated on the workspace path the examples use. *)
Definition session_of_path (workspacePath : string) : string :=
  if String.eqb workspacePath "test" then "9f86d081884c7d65" else "0000000000000000".

(** A rendering of the sections for the examples: their titles. *)
Definition format_titles (cm : OdamClient.CodeMemoryResponse) : string :=
  String.concat ", " (List.map OdamClient.title (default [] (OdamClient.sections cm))).

Definition memory_with_context : OdamClient.CodeMemoryResponse :=
  {| OdamClient.entities_total := 0; OdamClient.sections := None;
     OdamClient.entities := None;
     OdamClient.context_text := "User prefers TypeScript" |}.

(** A response that carries nothing. *)
Definition memory_empty : OdamClient.CodeMemoryResponse :=
  {| OdamClient.entities_total := 0; OdamClient.sections := Some [];
     OdamClient.entities := Some []; OdamClient.context_text := "" |}.

Definition provider0 : ContextProvider.Provider :=
  {| ContextProvider.userId := "user-1"; ContextProvider.cache := ∅ |}.

End Examples.

(** ** More concrete inputs *)

Module MoreExamples.
Import Correlator Server HookRuns Examples.

(** The after-event of the conversation of [before_conversation_only]. *)
Definition after_conversation : HookResponsePayload :=
  {| text := Some "  use List.sort  "; conversation_id := Some "conv-1";
     generation_id := None |}.

(** A prompt, then its response, then the same response again. *)
Definition events_twice : list HookEvent :=
  [ Before deps0 1000 before_conversation_only;
    After deps0 None after_conversation;
    After deps0 None after_conversation ].

(** Two prompts of one conversation, sent before the first response. *)
Definition before_first : HookPromptPayload :=
  {| prompt := Some "first question"; p_conversation_id := Some "conv-1";
     p_generation_id := Some "gen-1"; p_model := None |}.

Definition before_second : HookPromptPayload :=
  {| prompt := Some "second question"; p_conversation_id := Some "conv-1";
     p_generation_id := Some "gen-2"; p_model := None |}.

(** The first prompt's generation id, with another prompt. *)
Definition before_first_again : HookPromptPayload :=
  {| prompt := Some "another question"; p_conversation_id := None;
     p_generation_id := Some "gen-1"; p_model := None |}.

(** A prompt whose generation id is the empty string. *)
Definition before_empty_generation : HookPromptPayload :=
  {| prompt := Some "a question"; p_conversation_id := None;
     p_generation_id := Some ""; p_model := None |}.

(** An after-event of the conversation that carries a generation id no
    prompt was recorded under. *)
Definition after_other_generation : HookResponsePayload :=
  {| text := Some "use List.sort"; conversation_id := Some "conv-1";
     generation_id := Some "gen-9" |}.

(** An authenticated POST whose body is white space. *)
Definition post_blank : Request :=
  {| method := "POST"; pathname := "/hook/before";
     headers := {[ "x-odam-hook-token" := "5f3a9c0e77b1" ]};
     chunks := ["  "; " "] |}.

(** Dependencies with a logger and no workspace folder. *)
Definition deps_logger : Deps :=
  {| workspace := None; hasLogger := true; hasStatusBar := false;
     userId := Some "user-1" |}.

(** An authenticated thought event. *)
Definition post_thought : Request :=
  {| method := "POST"; pathname := "/hook/thought";
     headers := {[ "x-odam-hook-token" := "5f3a9c0e77b1" ]};
     chunks := [raw_after] |}.

(** A rendering of the rules file for the examples: the context, or a
    placeholder when it is blank. *)
Definition format_rules (context : string) (memoriesFound : Z)
    (codeMemory : option OdamClient.CodeMemoryResponse) : string :=
  if Js.truthy (Js.trim context) then context else "Memory is empty for now.".

(** An updater that has fetched the context of a query before. *)
Definition updater_after_query : MemoryFile.Updater :=
  {| MemoryFile.userId := "user-1"; MemoryFile.lastQuery := "how do I sort a list?";
     MemoryFile.lastContext := None |}.

(** A fresh updater. *)
Definition updater_new : MemoryFile.Updater :=
  {| MemoryFile.userId := "user-1"; MemoryFile.lastQuery := "";
     MemoryFile.lastContext := None |}.

Definition metadata_main : FileUpdater.Metadata :=
  {| FileUpdater.branch := Some "main"; FileUpdater.ticket := None |}.

(** The remote store has no statistics at first, then has them. *)
Definition stats_later (retryCount : nat) : MemoryStats.Attempt :=
  match retryCount with
  | O => MemoryStats.AttemptAnswered None
  | _ => MemoryStats.AttemptAnswered
           (Some {| MemoryStats.entities_total := 4; MemoryStats.memories_total := 2;
                    MemoryStats.search_hits := 0; MemoryStats.graph_nodes := 7;
                    MemoryStats.has_session := Some true;
                    MemoryStats.generated_at := None |})
  end.

Definition clock_by_attempt (retryCount : nat) : string :=
  match retryCount with
  | O => "2025-01-01T00:00:00.000Z"
  | _ => "2025-01-01T00:00:01.000Z"
  end.

(** The remote store answers with one artifact in the language
    [constructor]. *)
Definition memory_constructor : OdamClient.CodeMemoryResponse :=
  {| OdamClient.entities_total := 1; OdamClient.sections := None;
     OdamClient.entities := Some [entity_constructor];
     OdamClient.context_text := "One artifact" |}.

End MoreExamples.
(** ** Facts about the JavaScript primitives *)

Module JsFacts.
Import Js.

Lemma truthy_spec (s : string) : truthy s = true <-> s <> "".
Proof. destruct s; simpl; split; congruence. Qed.

Lemma truthy_false (s : string) : truthy s = false <-> s = "".
Proof. destruct s; simpl; split; congruence. Qed.

Lemma truthyO_spec (o : option string) :
  truthyO o = true <-> exists s, o = Some s /\ s <> "".
Proof.
  destruct o as [s|]; simpl.
  - rewrite truthy_spec. split; [eauto | intros (s' & [= <-] & H); exact H].
  - split; [discriminate | intros (s' & [=] & _)].
Qed.

End JsFacts.

(** ** Properties of the correlator *)

Module CorrelatorFacts.
Import Correlator Examples MoreExamples.

Lemma lookupByConversation_miss conversation st :
  (forall c, conversation = Some c -> c <> "" -> pendingByConversation st !! c = None) ->
  lookupByConversation conversation st = (None, st).
Proof.
  intros Hmiss. unfold lookupByConversation.
  destruct conversation as [c|]; [|reflexivity].
  destruct (Js.truthy c) eqn:Tc; [|reflexivity].
  apply JsFacts.truthy_spec in Tc. by rewrite (Hmiss c eq_refl Tc).
Qed.

Lemma lookupInteraction_generation_miss conversation generation st :
  (forall g, generation = Some g -> g <> "" -> pendingByGeneration st !! g = None) ->
  lookupInteraction conversation generation st = lookupByConversation conversation st.
Proof.
  intros Hmiss. unfold lookupInteraction.
  destruct generation as [g|]; [|reflexivity].
  destruct (Js.truthy g) eqn:Tg; [|reflexivity].
  apply JsFacts.truthy_spec in Tg. by rewrite (Hmiss g eq_refl Tg).
Qed.

Lemma lookupInteraction_generation_hit conversation g interaction st :
  g <> "" -> pendingByGeneration st !! g = Some interaction ->
  lookupInteraction conversation (Some g) st = (Some interaction, remove interaction st).
Proof.
  intros Hg Hhit. unfold lookupInteraction.
  apply JsFacts.truthy_spec in Hg. by rewrite Hg, Hhit.
Qed.

Lemma lookupByConversation_hit c interaction st :
  c <> "" -> pendingByConversation st !! c = Some interaction ->
  lookupByConversation (Some c) st = (Some interaction, remove interaction st).
Proof.
  intros Hc Hhit. unfold lookupByConversation.
  apply JsFacts.truthy_spec in Hc. by rewrite Hc, Hhit.
Qed.

(** [remove] only ever deletes. *)
Lemma remove_generation_sub interaction st k j :
  pendingByGeneration (remove interaction st) !! k = Some j ->
  pendingByGeneration st !! k = Some j.
Proof.
  unfold remove; simpl.
  destruct (generationId interaction) as [g|]; [|done].
  destruct (Js.truthy g); [|done].
  rewrite lookup_delete. case_decide; [discriminate | done].
Qed.

Lemma remove_conversation_sub interaction st k j :
  pendingByConversation (remove interaction st) !! k = Some j ->
  pendingByConversation st !! k = Some j.
Proof.
  unfold remove; simpl.
  destruct (conversationId interaction) as [c|]; [|done].
  destruct (Js.truthy c); [|done].
  rewrite lookup_delete. case_decide; [discriminate | done].
Qed.

Lemma remove_generation_own interaction st g :
  generationId interaction = Some g -> g <> "" ->
  pendingByGeneration (remove interaction st) !! g = None.
Proof.
  intros Hg Hne. unfold remove; simpl. rewrite Hg.
  apply JsFacts.truthy_spec in Hne. rewrite Hne. apply lookup_delete_eq.
Qed.

Lemma remove_conversation_own interaction st c :
  conversationId interaction = Some c -> c <> "" ->
  pendingByConversation (remove interaction st) !! c = None.
Proof.
  intros Hc Hne. unfold remove; simpl. rewrite Hc.
  apply JsFacts.truthy_spec in Hne. rewrite Hne. apply lookup_delete_eq.
Qed.

Lemma keyed_init : keyed init.
Proof. split; intros k i H; simpl in H; by rewrite lookup_empty in H. Qed.

Lemma keyed_remove interaction st : keyed st -> keyed (remove interaction st).
Proof.
  intros [Hg Hc]. split; intros k i H.
  - apply Hg. by apply remove_generation_sub in H.
  - apply Hc. by apply remove_conversation_sub in H.
Qed.

Lemma keyed_store interaction st : keyed st -> keyed (store interaction st).
Proof.
  intros [Hg Hc]. split; intros k i; unfold store; simpl.
  - destruct (generationId interaction) as [g|] eqn:Eg; [|apply Hg].
    destruct (Js.truthy g) eqn:Tg; [|apply Hg].
    rewrite lookup_insert. case_decide as Hk.
    + intros [= <-]. subst k. split; [done | by apply JsFacts.truthy_spec].
    + apply Hg.
  - destruct (conversationId interaction) as [c|] eqn:Ec; [|apply Hc].
    destruct (Js.truthy c) eqn:Tc; [|apply Hc].
    rewrite lookup_insert. case_decide as Hk.
    + intros [= <-]. subst k. split; [done | by apply JsFacts.truthy_spec].
    + apply Hc.
Qed.

Lemma keyed_lookupByConversation conversation st :
  keyed st -> keyed (lookupByConversation conversation st).2.
Proof.
  intros Hk. unfold lookupByConversation.
  destruct conversation as [c|]; [|done].
  destruct (Js.truthy c); [|done].
  destruct (pendingByConversation st !! c); [|done].
  by apply keyed_remove.
Qed.

Lemma keyed_lookupInteraction conversation generation st :
  keyed st -> keyed (lookupInteraction conversation generation st).2.
Proof.
  intros Hk. unfold lookupInteraction.
  destruct generation as [g|]; [|by apply keyed_lookupByConversation].
  destruct (Js.truthy g); [|by apply keyed_lookupByConversation].
  destruct (pendingByGeneration st !! g); [|by apply keyed_lookupByConversation].
  by apply keyed_remove.
Qed.

Lemma keyed_handleBeforePrompt deps now payload st :
  keyed st -> keyed (handleBeforePrompt deps now payload st).1.1.
Proof.
  intros Hk. unfold handleBeforePrompt.
  destruct (workspace deps); [|done].
  destruct (negb _); [done|]. by apply keyed_store.
Qed.

(** The invariant of the two indexes. *)
Lemma reachable_keyed st : reachable st -> keyed st.
Proof.
  induction 1 as [|deps now payload st _ IH|conversation generation st _ IH|st _ IH].
  - apply keyed_init.
  - by apply keyed_handleBeforePrompt.
  - by apply keyed_lookupInteraction.
  - apply keyed_init.
Qed.

(** In a keyed state a removed interaction is in neither index. *)
Lemma remove_gone interaction st :
  keyed st ->
  ~ pendingIn (pendingByGeneration (remove interaction st)) interaction /\
  ~ pendingIn (pendingByConversation (remove interaction st)) interaction.
Proof.
  intros [Hg Hc]. split; intros [k Hk].
  - pose proof (remove_generation_sub _ _ _ _ Hk) as Hold.
    destruct (Hg _ _ Hold) as [Hid Hne].
    rewrite (remove_generation_own _ st _ Hid Hne) in Hk. discriminate.
  - pose proof (remove_conversation_sub _ _ _ _ Hk) as Hold.
    destruct (Hc _ _ Hold) as [Hid Hne].
    rewrite (remove_conversation_own _ st _ Hid Hne) in Hk. discriminate.
Qed.

(** What [handleBeforePrompt] leaves in the generation index. *)
Lemma handleBeforePrompt_recorded deps now payload st w g :
  workspace deps = Some w ->
  Js.trim (Js.orElse (prompt payload) "") <> "" ->
  p_generation_id payload = Some g -> g <> "" ->
  let recorded :=
    {| query := Js.trim (Js.orElse (prompt payload) "");
       conversationId := p_conversation_id payload;
       generationId := Some g;
       model := p_model payload;
       createdAt := now |} in
  handleBeforePrompt deps now payload st =
    (store recorded st, [UpdateMemoryFile (query recorded) w], Returned) /\
  pendingByGeneration (store recorded st) !! g = Some recorded.
Proof.
  intros Hw Hq Hg Hne recorded. unfold handleBeforePrompt.
  rewrite Hw. apply JsFacts.truthy_spec in Hq. rewrite Hq. simpl negb. cbv iota.
  rewrite Hg. fold recorded. split; [reflexivity|].
  unfold store; simpl. apply JsFacts.truthy_spec in Hne. rewrite Hne.
  apply lookup_insert_eq.
Qed.


(** *** Resolution order (claim C2) *)

(** C2.  In every state the processor can reach, [lookupInteraction]
    resolves by the generation key first: when that key is pending, the
    interaction found is returned and is afterwards in neither index.
    Otherwise it resolves by the conversation key in the same way, and
    when neither key is pending it returns nothing and changes nothing.
    In particular, with both ids supplied and only the conversation id
    pending, the interaction of the conversation is returned. *)
Theorem lookupInteraction_order_and_fallback
  (st : State) (conversation generation : option string) :
  reachable st ->
  (forall g i,
     generation = Some g -> pendingByGeneration st !! g = Some i ->
     lookupInteraction conversation generation st = (Some i, remove i st) /\
     ~ pendingIn (pendingByGeneration (remove i st)) i /\
     ~ pendingIn (pendingByConversation (remove i st)) i) /\
  (forall c i,
     (forall g, generation = Some g -> pendingByGeneration st !! g = None) ->
     conversation = Some c -> pendingByConversation st !! c = Some i ->
     lookupInteraction conversation generation st = (Some i, remove i st) /\
     ~ pendingIn (pendingByGeneration (remove i st)) i /\
     ~ pendingIn (pendingByConversation (remove i st)) i) /\
  ((forall g, generation = Some g -> pendingByGeneration st !! g = None) ->
   (forall c, conversation = Some c -> pendingByConversation st !! c = None) ->
   lookupInteraction conversation generation st = (None, st)) /\
  (forall g c i,
     generation = Some g -> conversation = Some c ->
     pendingByGeneration st !! g = None -> pendingByConversation st !! c = Some i ->
     (lookupInteraction conversation generation st).1 = Some i).
Proof.
intros Hreach. pose proof (reachable_keyed _ Hreach) as Hkeyed.
destruct Hkeyed as [Hg Hc].
assert (Hgen : forall g i,
  generation = Some g -> pendingByGeneration st !! g = Some i ->
  lookupInteraction conversation generation st = (Some i, remove i st)).
{ intros g i -> Hhit. destruct (Hg _ _ Hhit) as [_ Hne].
  by apply lookupInteraction_generation_hit. }
assert (Hconv : forall c i,
  (forall g, generation = Some g -> pendingByGeneration st !! g = None) ->
  conversation = Some c -> pendingByConversation st !! c = Some i ->
  lookupInteraction conversation generation st = (Some i, remove i st)).
{ intros c i Hmiss -> Hhit. destruct (Hc _ _ Hhit) as [_ Hne].
  rewrite (lookupInteraction_generation_miss (Some c) generation st).
  - by apply lookupByConversation_hit.
  - intros g E _. by apply Hmiss. }
repeat split.
- by eapply Hgen.
- by apply (remove_gone i st (conj Hg Hc)).
- by apply (remove_gone i st (conj Hg Hc)).
- by eapply Hconv.
- by apply (remove_gone i st (conj Hg Hc)).
- by apply (remove_gone i st (conj Hg Hc)).
- intros Hmg Hmc.
  rewrite (lookupInteraction_generation_miss conversation generation st).
  + apply lookupByConversation_miss. intros c E _. by apply Hmc.
  + intros g E _. by apply Hmg.
- intros g c i Eg Ec Hmiss Hhit.
  rewrite (Hconv c i); [done | | done | done].
  intros g' E. rewrite Eg in E. by injection E as <-.
Qed.

Lemma lookupInteraction_order_and_fallback_witness :
  reachable st_conversation_only /\
  (lookupInteraction (Some "conv-1") (Some "gen-9") st_conversation_only).1 =
    Some {| query := "how do I sort a list?"; conversationId := Some "conv-1";
            generationId := None; model := None; createdAt := 1000 |}.
Proof.
assert (Hreach : reachable st_conversation_only)
  by (apply reach_before, reach_init).
split; [exact Hreach|].
destruct (lookupInteraction_order_and_fallback st_conversation_only
            (Some "conv-1") (Some "gen-9") Hreach) as (_ & _ & _ & Hboth).
apply (Hboth "gen-9" "conv-1"); reflexivity.
Defined.

(** *** Single consumption (claim C1) *)

(** A prompt recorded under a generation key, resolved by that key. *)
Lemma resolve_recorded deps now payload st w g conversation :
  workspace deps = Some w ->
  Js.trim (Js.orElse (prompt payload) "") <> "" ->
  p_generation_id payload = Some g -> g <> "" ->
  let recorded :=
    {| query := Js.trim (Js.orElse (prompt payload) "");
       conversationId := p_conversation_id payload;
       generationId := Some g;
       model := p_model payload;
       createdAt := now |} in
  let st1 := (handleBeforePrompt deps now payload st).1.1 in
  lookupInteraction conversation (Some g) st1 = (Some recorded, remove recorded st1).
Proof.
  intros Hw Hq Hg Hne recorded st1.
  destruct (handleBeforePrompt_recorded deps now payload st w g Hw Hq Hg Hne)
    as [Hrun Hin].
  fold recorded in Hrun, Hin.
  apply lookupInteraction_generation_hit; [done|].
  unfold st1. by rewrite Hrun.
Qed.

Lemma lookupByConversation_result conversation st :
  (exists i, lookupByConversation conversation st = (Some i, remove i st)) \/
  lookupByConversation conversation st = (None, st).
Proof.
  unfold lookupByConversation. destruct conversation as [c|]; [|by right].
  destruct (Js.truthy c); [|by right].
  destruct (pendingByConversation st !! c) as [i|]; [left; by exists i | by right].
Qed.

Lemma lookupInteraction_result conversation generation st :
  (exists i, lookupInteraction conversation generation st = (Some i, remove i st)) \/
  lookupInteraction conversation generation st = (None, st).
Proof.
  unfold lookupInteraction.
  destruct generation as [g|]; [|apply lookupByConversation_result].
  destruct (Js.truthy g); [|apply lookupByConversation_result].
  destruct (pendingByGeneration st !! g) as [i|]; [left; by exists i|].
  apply lookupByConversation_result.
Qed.

(** With a workspace folder, an after-event leaves the state its lookup
    leaves; without one it leaves the state as it is. *)
Lemma handleAfterResponse_lookup deps syncError payload st :
  (handleAfterResponse deps syncError payload st).1.1 =
    match workspace deps with
    | Some _ => (lookupInteraction (conversation_id payload) (generation_id payload) st).2
    | None => st
    end.
Proof.
  unfold handleAfterResponse. destruct (workspace deps); [|done].
  destruct (lookupInteraction _ _ st) as [[i|] st']; [|done].
  destruct (negb _ || negb _); [done|].
  destruct syncError; [done|]. by destruct (_ && _).
Qed.

Lemma run_step e rest st :
  (HookRuns.run (e :: rest) st).1 = (HookRuns.run rest (HookRuns.handle e st).1).1.
Proof.
  cbn [HookRuns.run]. destruct (HookRuns.handle e st) as [st1 effects1]. cbn [fst].
  by destruct (HookRuns.run rest st1).
Qed.

(** An event that does not displace the entry under [g] keeps it. *)
Lemma displaces_false_keeps g e st i :
  Consumption.displaces g e st = false ->
  pendingByGeneration st !! g = Some i ->
  pendingByGeneration (HookRuns.handle e st).1 !! g = Some i.
Proof.
  intros Hd Hi. destruct e as [deps now payload|deps syncError payload|deps payload|];
    cbn [HookRuns.handle Consumption.displaces] in *.
  - unfold Consumption.records, HookRuns.recordedQuery in Hd.
    unfold handleBeforePrompt. destruct (workspace deps); [|done].
    destruct (Js.truthy (Js.trim (Js.orElse (prompt payload) ""))); [|done].
    cbn [negb fst store generationId pendingByGeneration].
    rewrite bool_decide_true in Hd by (by eexists). cbn [andb] in Hd.
    apply bool_decide_eq_false in Hd.
    destruct (p_generation_id payload) as [g'|]; [|done].
    destruct (Js.truthy g'); [|done].
    rewrite lookup_insert_ne; [done|]. intros ->. by apply Hd.
  - rewrite handleAfterResponse_lookup. destruct (workspace deps); [|done].
    destruct (lookupInteraction_result (conversation_id payload) (generation_id payload) st)
      as [[j E]|E]; rewrite E in Hd |- *; [|done].
    cbn [fst snd] in *. apply bool_decide_eq_false in Hd.
    unfold remove. cbn [pendingByGeneration].
    destruct (generationId j) as [g'|]; [|done].
    destruct (Js.truthy g'); [|done].
    rewrite lookup_delete_ne; [done|]. intros ->. by apply Hd.
  - unfold handleAfterThought. by destruct (negb (hasLogger deps)).
  - discriminate.
Qed.

Lemma undisturbed_keeps g events st i :
  Consumption.undisturbed g events st = true ->
  pendingByGeneration st !! g = Some i ->
  pendingByGeneration (HookRuns.run events st).1 !! g = Some i.
Proof.
  revert st. induction events as [|e rest IH]; intros st Hu Hi; [done|].
  cbn [Consumption.undisturbed] in Hu. apply andb_prop in Hu as [Hd Hu].
  apply negb_true_iff in Hd. rewrite run_step.
  apply IH; [done|]. by apply displaces_false_keeps.
Qed.

(** An event that records nothing under [g] leaves the generation index
    empty at [g] if it was. *)
Lemma records_false_keeps_none g e st :
  Consumption.records g e = false ->
  pendingByGeneration st !! g = None ->
  pendingByGeneration (HookRuns.handle e st).1 !! g = None.
Proof.
  intros Hr Hnone. destruct e as [deps now payload|deps syncError payload|deps payload|];
    cbn [HookRuns.handle Consumption.records] in *.
  - unfold HookRuns.recordedQuery in Hr.
    unfold handleBeforePrompt. destruct (workspace deps); [|done].
    destruct (Js.truthy (Js.trim (Js.orElse (prompt payload) ""))); [|done].
    cbn [negb fst store generationId pendingByGeneration].
    rewrite bool_decide_true in Hr by (by eexists). cbn [andb] in Hr.
    apply bool_decide_eq_false in Hr.
    destruct (p_generation_id payload) as [g'|]; [|done].
    destruct (Js.truthy g'); [|done].
    rewrite lookup_insert_ne; [done|]. intros ->. by apply Hr.
  - rewrite handleAfterResponse_lookup. destruct (workspace deps); [|done].
    destruct (lookupInteraction_result (conversation_id payload) (generation_id payload) st)
      as [[j E]|E]; rewrite E; [|done].
    cbn [snd]. destruct (pendingByGeneration (remove j st) !! g) as [k|] eqn:Ek; [|done].
    apply remove_generation_sub in Ek. congruence.
  - unfold handleAfterThought. by destruct (negb (hasLogger deps)).
  - done.
Qed.

Lemma unrecorded_keeps_none g events st :
  Forall (fun e => Consumption.records g e = false) events ->
  pendingByGeneration st !! g = None ->
  pendingByGeneration (HookRuns.run events st).1 !! g = None.
Proof.
  intros Hall. revert st. induction Hall as [|e rest He _ IH]; intros st Hnone; [done|].
  rewrite run_step. apply IH. by apply records_false_keeps_none.
Qed.

(** C1, as the code has it.  A before-event that is recorded (a workspace
    folder is available, the trimmed prompt is non-empty) under a non-empty
    generation id [g] is returned by a subsequent [lookupInteraction] that
    carries [g], with the trimmed prompt as its query, whatever events
    were handled in between, as long as none of them displaced the entry
    under [g]: no before-event recorded a prompt under [g] again, no
    after-event resolved an interaction whose generation id is [g], and
    the maps were not cleared.  That call deletes the entry under [g] and
    under the conversation id of the prompt.  From then on, until a
    before-event records a prompt under [g] again, nothing is pending
    under [g]: a [lookupInteraction] with [g] is the conversation fallback
    alone, and returns nothing whenever its conversation id is absent or
    not pending; right after the first call this includes the
    conversation id of the recorded prompt. *)
Theorem resolveAfter_single_consumption
  deps now payload st w g (between later : list HookRuns.HookEvent)
  conversation conversation' :
  workspace deps = Some w ->
  Js.trim (Js.orElse (prompt payload) "") <> "" ->
  p_generation_id payload = Some g -> g <> "" ->
  Consumption.undisturbed g between (handleBeforePrompt deps now payload st).1.1 = true ->
  Forall (fun e => Consumption.records g e = false) later ->
  let st1 := (handleBeforePrompt deps now payload st).1.1 in
  let st2 := (HookRuns.run between st1).1 in
  let first := lookupInteraction conversation (Some g) st2 in
  let st3 := (HookRuns.run later first.2).1 in
  (exists i, first = (Some i, remove i st2) /\
             query i = Js.trim (Js.orElse (prompt payload) "") /\
             conversationId i = p_conversation_id payload /\
             generationId i = Some g) /\
  pendingByGeneration first.2 !! g = None /\
  (forall c, p_conversation_id payload = Some c -> c <> "" ->
             pendingByConversation first.2 !! c = None) /\
  lookupInteraction None (Some g) first.2 = (None, first.2) /\
  lookupInteraction (p_conversation_id payload) (Some g) first.2 = (None, first.2) /\
  pendingByGeneration st3 !! g = None /\
  lookupInteraction conversation' (Some g) st3 = lookupByConversation conversation' st3 /\
  ((forall c, conversation' = Some c -> c <> "" ->
              pendingByConversation st3 !! c = None) ->
   lookupInteraction conversation' (Some g) st3 = (None, st3)).
Proof.
  intros Hw Hq Hg Hne Hbetween Hlater st1 st2 first st3.
  set (recorded := {| query := Js.trim (Js.orElse (prompt payload) "");
                      conversationId := p_conversation_id payload;
                      generationId := Some g; model := p_model payload;
                      createdAt := now |}).
  destruct (handleBeforePrompt_recorded deps now payload st w g Hw Hq Hg Hne)
    as [Hrun Hin].
  fold recorded in Hrun, Hin.
  assert (Hst1 : pendingByGeneration st1 !! g = Some recorded)
    by (unfold st1; by rewrite Hrun).
  assert (Hst2 : pendingByGeneration st2 !! g = Some recorded)
    by (by apply undisturbed_keeps).
  assert (Hfirst : first = (Some recorded, remove recorded st2))
    by (by apply lookupInteraction_generation_hit).
  assert (Hgone : pendingByGeneration first.2 !! g = None).
  { rewrite Hfirst. cbn [snd]. by apply remove_generation_own. }
  assert (Hconv : forall c, p_conversation_id payload = Some c -> c <> "" ->
                            pendingByConversation first.2 !! c = None).
  { intros c Hc Hcne. rewrite Hfirst. cbn [snd]. by apply remove_conversation_own. }
  assert (Hst3 : pendingByGeneration st3 !! g = None)
    by (by apply unrecorded_keeps_none).
  assert (Hmiss : forall s conversation2,
     pendingByGeneration s !! g = None ->
     lookupInteraction conversation2 (Some g) s = lookupByConversation conversation2 s).
  { intros s conversation2 Hs. apply lookupInteraction_generation_miss.
    by intros g' [= <-] _. }
  split; [by exists recorded|]. split; [exact Hgone|]. split; [exact Hconv|].
  split; [by rewrite (Hmiss _ _ Hgone)|]. split.
  { rewrite (Hmiss _ _ Hgone). by apply lookupByConversation_miss. }
  split; [exact Hst3|]. split; [by apply Hmiss|].
  intros Hnone. rewrite (Hmiss _ _ Hst3). by apply lookupByConversation_miss.
Qed.

Lemma resolveAfter_single_consumption_witness :
  let between :=
    [ HookRuns.Before deps0 3000 before_first;
      HookRuns.After deps0 None after_conversation ] in
  let st1 := (handleBeforePrompt deps0 2000 before_generation st_conversation_only).1.1 in
  let st2 := (HookRuns.run between st1).1 in
  let first := lookupInteraction None (Some "gen-7") st2 in
  Consumption.undisturbed "gen-7" between st1 = true /\
  first.1 = Some {| query := "fix the failing test"; conversationId := None;
                    generationId := Some "gen-7"; model := Some "gpt";
                    createdAt := 2000 |} /\
  lookupInteraction None (Some "gen-7") first.2 = (None, first.2).
Proof.
  intros between st1 st2 first.
  assert (H1 : workspace deps0 = Some "/home/dev/project") by reflexivity.
  assert (H2 : Js.trim (Js.orElse (prompt before_generation) "") <> "") by discriminate.
  assert (H3 : p_generation_id before_generation = Some "gen-7") by reflexivity.
  assert (H4 : "gen-7" <> "") by discriminate.
  assert (H5 : Consumption.undisturbed "gen-7" between st1 = true) by reflexivity.
  destruct (resolveAfter_single_consumption deps0 2000 before_generation
              st_conversation_only _ _ between [] None None H1 H2 H3 H4 H5
              (Forall_nil_2 _))
    as ((i & Hi & Hquery & Hc & Hgen) & _ & _ & Hnone & _).
  split; [exact H5|]. split; [reflexivity | exact Hnone].
Defined.

(** The sentence of the specification fails in both halves.  After the
    prompt under ["gen-7"] was consumed, a second resolution with the same
    generation id that also carries the conversation id of another pending
    prompt returns that other prompt.  And a prompt recorded under
    ["gen-1"] in the conversation ["conv-1"] is consumed by an after-event
    of that conversation with another generation id, through the fallback,
    so that the resolution that carries ["gen-1"] returns nothing; it is
    likewise lost when a second prompt is recorded under ["gen-1"], which
    is then the one returned, and when the maps are cleared.  A prompt
    whose generation id is the empty string is handed to the updater but
    kept under no key, and no resolution returns it. *)
Lemma second_resolve_falls_back :
  (let st1 := (handleBeforePrompt deps0 2000 before_generation st_conversation_only).1.1 in
   let first := lookupInteraction (Some "conv-1") (Some "gen-7") st1 in
   let second := lookupInteraction (Some "conv-1") (Some "gen-7") first.2 in
   query <$> first.1 = Some "fix the failing test" /\
   query <$> second.1 = Some "how do I sort a list?" /\
   second.1 <> None) /\
  (let st1 := (handleBeforePrompt deps0 1000 before_first init).1.1 in
   let between := HookRuns.After deps0 None after_other_generation in
   let st2 := (HookRuns.handle between st1).1 in
   pendingByGeneration st1 !! "gen-1" <> None /\
   Consumption.displaces "gen-1" between st1 = true /\
   (HookRuns.handle between st1).2 =
     [UpdateMemoryAfterResponse "first question" "use List.sort" "/home/dev/project"] /\
   lookupInteraction None (Some "gen-1") st2 = (None, st2) /\
   lookupInteraction (Some "conv-1") (Some "gen-1") st2 = (None, st2)) /\
  (let st1 := (handleBeforePrompt deps0 1000 before_first init).1.1 in
   let again := HookRuns.Before deps0 1500 before_first_again in
   let st2 := (HookRuns.handle again st1).1 in
   Consumption.displaces "gen-1" again st1 = true /\
   query <$> (lookupInteraction None (Some "gen-1") st2).1 = Some "another question") /\
  (let st1 := (handleBeforePrompt deps0 1000 before_first init).1.1 in
   let st2 := (HookRuns.handle HookRuns.Clear st1).1 in
   Consumption.displaces "gen-1" HookRuns.Clear st1 = true /\
   lookupInteraction (Some "conv-1") (Some "gen-1") st2 = (None, st2)) /\
  (let r := handleBeforePrompt deps0 1000 before_empty_generation init in
   r.1.2 = [UpdateMemoryFile "a question" "/home/dev/project"] /\
   r.1.1 = init /\
   lookupInteraction None (Some "") r.1.1 = (None, r.1.1)).
Proof.
  split; [|split; [|split; [|split]]].
  - vm_compute. repeat split; discriminate.
  - vm_compute. repeat split; discriminate.
  - vm_compute. by split.
  - vm_compute. by split.
  - vm_compute. by repeat split.
Qed.

End CorrelatorFacts.

(** ** The processor on payloads of the declared types *)

Module ProcessorFacts.
Import Processor.

#[local] Instance VString_inj : Inj (=) (=) VString.
Proof. by intros s t [= ->]. Qed.

Lemma orElse_empty (v : option string) : Js.orElse v "" = default "" v.
Proof.
  destruct v as [s|]; [|done]. cbn [Js.orElse default].
  destruct (Js.truthy s) eqn:T; [done|].
  destruct (decide (s = "")) as [->|Hne]; [done|].
  apply JsFacts.truthy_spec in Hne. congruence.
Qed.

Lemma textOf_string (v : option string) : textOf (JString <$> v) = Some (Js.orElse v "").
Proof. rewrite orElse_empty. by destruct v. Qed.

Lemma keyOf_string (v : option string) :
  keyOf (JString <$> v) =
    match v with
    | Some s => if Js.truthy s then Some (VString s) else None
    | None => None
    end.
Proof. by destruct v. Qed.

Lemma valueOf_string ref (v : option string) : valueOf ref (JString <$> v) = ofString v.
Proof. by destruct v. Qed.

Lemma get_prompt_payload p :
  get (ofPromptPayload p) "prompt" = JString <$> Correlator.prompt p /\
  get (ofPromptPayload p) "conversation_id" = JString <$> Correlator.p_conversation_id p /\
  get (ofPromptPayload p) "generation_id" = JString <$> Correlator.p_generation_id p /\
  get (ofPromptPayload p) "model" = JString <$> Correlator.p_model p.
Proof. by destruct p as [[a|] [b|] [c|] [d|]]. Qed.

Lemma get_response_payload p :
  get (ofResponsePayload p) "text" = JString <$> Correlator.text p /\
  get (ofResponsePayload p) "conversation_id" = JString <$> Correlator.conversation_id p /\
  get (ofResponsePayload p) "generation_id" = JString <$> Correlator.generation_id p.
Proof. by destruct p as [[a|] [b|] [c|]]. Qed.

Lemma get_thought_payload p :
  get (ofThoughtPayload p) "text" = JString <$> Correlator.t_text p /\
  get (ofThoughtPayload p) "duration_ms" = JNumber <$> Correlator.duration_ms p.
Proof. by destruct p as [[a|] [b|] [c|] [d|]]. Qed.

Lemma lookup_generation refs st g :
  pendingByGeneration (ofState refs st) !! VString g
    = ofInteraction <$> Correlator.pendingByGeneration st !! g.
Proof. cbn [ofState pendingByGeneration]. by rewrite (lookup_kmap VString), lookup_fmap. Qed.

Lemma lookup_conversation refs st c :
  pendingByConversation (ofState refs st) !! VString c
    = ofInteraction <$> Correlator.pendingByConversation st !! c.
Proof. cbn [ofState pendingByConversation]. by rewrite (lookup_kmap VString), lookup_fmap. Qed.

Lemma remove_typed refs i st :
  remove (ofInteraction i) (ofState refs st) = ofState refs (Correlator.remove i st).
Proof.
  unfold remove, Correlator.remove, ofState.
  cbn [generationId conversationId ofInteraction pendingByGeneration pendingByConversation
       allocated Correlator.pendingByGeneration Correlator.pendingByConversation].
  f_equal.
  - destruct (Correlator.generationId i) as [g|]; cbn [ofString truthyValue]; [|done].
    destruct (Js.truthy g); [|done]. by rewrite fmap_delete, (kmap_delete VString).
  - destruct (Correlator.conversationId i) as [c|]; cbn [ofString truthyValue]; [|done].
    destruct (Js.truthy c); [|done]. by rewrite fmap_delete, (kmap_delete VString).
Qed.

Lemma store_typed refs refs' i st :
  store (ofInteraction i)
        {| pendingByGeneration := pendingByGeneration (ofState refs st);
           pendingByConversation := pendingByConversation (ofState refs st);
           allocated := refs' |}
    = ofState refs' (Correlator.store i st).
Proof.
  unfold store, Correlator.store, ofState.
  cbn [generationId conversationId ofInteraction pendingByGeneration pendingByConversation
       allocated Correlator.pendingByGeneration Correlator.pendingByConversation].
  f_equal.
  - destruct (Correlator.generationId i) as [g|]; cbn [ofString truthyValue]; [|done].
    destruct (Js.truthy g); [|done]. by rewrite fmap_insert, (kmap_insert VString).
  - destruct (Correlator.conversationId i) as [c|]; cbn [ofString truthyValue]; [|done].
    destruct (Js.truthy c); [|done]. by rewrite fmap_insert, (kmap_insert VString).
Qed.

Lemma lookupByConversation_typed refs p st :
  lookupByConversation (ofResponsePayload p) (ofState refs st) =
    let r := Correlator.lookupByConversation (Correlator.conversation_id p) st in
    (ofInteraction <$> r.1, ofState refs r.2).
Proof.
  unfold lookupByConversation, Correlator.lookupByConversation.
  destruct (get_response_payload p) as (_ & -> & _). rewrite keyOf_string.
  destruct (Correlator.conversation_id p) as [c|]; [|done].
  destruct (Js.truthy c); [|done]. rewrite lookup_conversation.
  destruct (Correlator.pendingByConversation st !! c) as [i|]; [|done].
  cbn [fmap option_fmap option_map fst snd]. by rewrite remove_typed.
Qed.

(** The lookup on a payload of the declared type is the lookup by its two
    ids. *)
Lemma lookupInteraction_typed refs p st :
  lookupInteraction (ofResponsePayload p) (ofState refs st) =
    let r := Correlator.lookupInteraction (Correlator.conversation_id p)
                                          (Correlator.generation_id p) st in
    (ofInteraction <$> r.1, ofState refs r.2).
Proof.
  unfold lookupInteraction, Correlator.lookupInteraction.
  destruct (get_response_payload p) as (_ & _ & ->). rewrite keyOf_string.
  destruct (Correlator.generation_id p) as [g|]; [|apply lookupByConversation_typed].
  destruct (Js.truthy g); [|apply lookupByConversation_typed].
  rewrite lookup_generation.
  destruct (Correlator.pendingByGeneration st !! g) as [i|];
    [|apply lookupByConversation_typed].
  cbn [fmap option_fmap option_map fst snd]. by rewrite remove_typed.
Qed.

(** On a prompt payload of the declared type [handleBeforePrompt] does
    what it does on the record of its fields. *)
Lemma handleBeforePrompt_typed deps now p refs st :
  exists refs',
    handleBeforePrompt deps now (ofPromptPayload p) (ofState refs st) =
      let r := Correlator.handleBeforePrompt deps now p st in
      (ofState refs' r.1.1, r.1.2, ofOutcome r.2).
Proof.
  unfold handleBeforePrompt, Correlator.handleBeforePrompt.
  destruct (Correlator.workspace deps) as [w|]; [|by exists refs].
  destruct (get_prompt_payload p) as (-> & -> & -> & ->).
  cbn [isNull ofPromptPayload]. rewrite textOf_string.
  destruct (Js.truthy (Js.trim (Js.orElse (Correlator.prompt p) ""))) eqn:T;
    cbn [negb]; [|by exists refs].
  exists (S (S (S refs))). cbv zeta. cbn [fst snd ofOutcome allocated].
  rewrite !valueOf_string. by rewrite <- (store_typed refs (S (S (S refs)))).
Qed.

Lemma handleAfterResponse_typed deps syncError p refs st :
  handleAfterResponse deps syncError (ofResponsePayload p) (ofState refs st) =
    let r := Correlator.handleAfterResponse deps syncError p st in
    (ofState refs r.1.1, r.1.2, ofOutcome r.2).
Proof.
  unfold handleAfterResponse, Correlator.handleAfterResponse.
  destruct (Correlator.workspace deps) as [w|]; [|done].
  cbn [isNull ofResponsePayload]. fold (ofResponsePayload p).
  rewrite lookupInteraction_typed. cbv zeta.
  destruct (get_response_payload p) as (-> & _ & _). rewrite textOf_string.
  destruct (Correlator.lookupInteraction _ _ st) as [[i|] st']; [|done].
  cbn [fmap option_fmap option_map fst snd ofInteraction query].
  destruct (negb _ || negb _); [done|].
  destruct syncError; [done|]. by destruct (_ && _).
Qed.

Lemma handleAfterThought_typed deps p refs st :
  handleAfterThought deps (ofThoughtPayload p) (ofState refs st) =
    let r := Correlator.handleAfterThought deps p st in
    (ofState refs r.1.1, r.1.2, ofOutcome r.2).
Proof.
  unfold handleAfterThought, Correlator.handleAfterThought.
  destruct (negb (Correlator.hasLogger deps)); [done|].
  destruct (get_thought_payload p) as (-> & ->). rewrite textOf_string.
  cbn [isNull ofThoughtPayload].
  by destruct (Correlator.duration_ms p).
Qed.

Lemma clear_typed refs st : clear (ofState refs st) = ofState refs (Correlator.clear st).
Proof.
  unfold clear, Correlator.clear, ofState, Correlator.init.
  cbn [allocated Correlator.pendingByGeneration Correlator.pendingByConversation].
  by rewrite fmap_empty, (kmap_empty VString).
Qed.

End ProcessorFacts.

(** ** Properties of the intake surface *)

Module ServerFacts.
Import Correlator Server Examples.

Lemma validateToken_spec srv req :
  validateToken srv req = true <->
  headers req !! "x-odam-hook-token" = Some (token srv) /\ token srv <> "".
Proof.
  unfold validateToken.
  destruct (headers req !! "x-odam-hook-token") as [h|]; [|split; [done | by intros [? _]]].
  destruct (Js.truthy h) eqn:Th.
  - rewrite String.eqb_eq. apply JsFacts.truthy_spec in Th. split.
    + intros <-. done.
    + by intros [[= ->] _].
  - apply JsFacts.truthy_false in Th. subst h. split; [done|].
    intros [[= <-] Hne]. done.
Qed.

Lemma validateToken_mismatch srv req :
  headers req !! "x-odam-hook-token" <> Some (token srv) ->
  validateToken srv req = false.
Proof.
  intros Hne. destruct (validateToken srv req) eqn:E; [|done].
  apply validateToken_spec in E. by destruct E.
Qed.

Lemma handleAfterResponse_state deps syncError payload st :
  (handleAfterResponse deps syncError payload st).1.1 = st \/
  (handleAfterResponse deps syncError payload st).1.1 =
    (lookupInteraction (conversation_id payload) (generation_id payload) st).2.
Proof.
  unfold handleAfterResponse. destruct (workspace deps); [|by left].
  destruct (lookupInteraction _ _ st) as [[i|] st']; [|by right].
  destruct (negb _ || negb _); [by right|].
  destruct syncError; [by right|]. destruct (_ && _); by right.
Qed.

(** The answer to an authenticated POST with a parsed body on one of the
    three routes: 200 when the handler returns, 500 when it throws. *)
Lemma requestListener_route JSON_parse deps now syncError srv req rawBody parsed :
  method req = "POST" -> validateToken srv req = true ->
  readRawBody req = Some rawBody -> JSON_parse rawBody = Some parsed ->
  forall (r : Processor.Result),
    (pathname req = "/hook/before" /\
     r = Processor.handleBeforePrompt deps now parsed (processor srv)) \/
    (pathname req = "/hook/after" /\
     r = Processor.handleAfterResponse deps syncError parsed (processor srv)) \/
    (pathname req = "/hook/thought" /\
     r = Processor.handleAfterThought deps parsed (processor srv)) ->
    requestListener JSON_parse deps now syncError srv req =
      ({| token := token srv; processor := r.1.1 |}, r.1.2,
       match r.2 with
       | Processor.Returned => {| status := 200; body := Ok |}
       | Processor.Thrown _ => {| status := 500; body := Error "internal_error" |}
       end).
Proof.
  intros Hpost Htoken Hbody Hparse r Hroute.
  unfold requestListener, handleRequest. rewrite Hpost, Htoken, Hbody, Hparse.
  destruct Hroute as [[-> ->]|[[-> ->]|[-> ->]]]; simpl String.eqb; cbv iota; cbn [negb].
  - by destruct (Processor.handleBeforePrompt deps now parsed (processor srv))
      as [[st effects] [|e]].
  - by destruct (Processor.handleAfterResponse deps syncError parsed (processor srv))
      as [[st effects] [|e]].
  - by destruct (Processor.handleAfterThought deps parsed (processor srv))
      as [[st effects] [|e]].
Qed.

(** *** Authentication (claim C4) *)

(** C4, as the code has it.  The token travels in the header
    [X-ODAM-Hook-Token] (lower-cased by the HTTP layer): a request passes
    [validateToken] iff that header carries the non-empty token the server
    published in its discovery file.  A POST request whose header is
    missing or differs from the token is answered with 401: nothing is
    asked of any collaborator and the server, with the pending maps of its
    processor, is unchanged.  A request that is not a POST is answered with
    405 before the token is looked at, with the same absence of effects. *)
Theorem unauthorized_request_rejected
  JSON_parse deps now syncError (srv : Server) (req : Request) :
  (forall port updatedAt config,
     writeConfig srv (Some port) updatedAt = Some config ->
     (validateToken srv req = true <->
      headers req !! "x-odam-hook-token" = Some (cfg_token config) /\
      cfg_token config <> "")) /\
  (method req = "POST" ->
   headers req !! "x-odam-hook-token" <> Some (token srv) ->
   requestListener JSON_parse deps now syncError srv req =
     (srv, [], {| status := 401; body := Error "unauthorized" |})) /\
  (method req <> "POST" ->
   requestListener JSON_parse deps now syncError srv req =
     (srv, [], {| status := 405; body := Error "method_not_allowed" |})).
Proof.
  split; [|split].
  - intros port updatedAt config [= <-]. apply validateToken_spec.
  - intros Hpost Hbad. unfold requestListener, handleRequest.
    rewrite Hpost. simpl. by rewrite validateToken_mismatch.
  - intros Hnot. unfold requestListener, handleRequest.
    apply String.eqb_neq in Hnot. by rewrite Hnot.
Qed.

Lemma unauthorized_request_rejected_witness :
  requestListener parse_after deps0 0 None server0
                  (post_after {[ "x-odam-hook-token" := "guess" ]}) =
    (server0, [], {| status := 401; body := Error "unauthorized" |}) /\
  requestListener parse_after deps0 0 None server0
                  {| method := "GET"; pathname := "/hook/after";
                     headers := ∅; chunks := [] |} =
    (server0, [], {| status := 405; body := Error "method_not_allowed" |}).
Proof.
  split.
  - apply (unauthorized_request_rejected parse_after deps0 0 None
             server0 (post_after {[ "x-odam-hook-token" := "guess" ]}));
      [reflexivity | discriminate].
  - apply (unauthorized_request_rejected parse_after deps0 0 None
             server0 {| method := "GET"; pathname := "/hook/after";
                        headers := ∅; chunks := [] |}).
    discriminate.
Defined.

(** The sentence of the specification fails twice: a request that carries the right
    token in a header named [X-Hook-Token] is rejected, and a request with
    a wrong token that is not a POST is answered with 405, not 401. *)
Lemma x_hook_token_header_not_accepted :
  (requestListener parse_after deps0 0 None server0
     (post_after {[ "x-hook-token" := token server0 ]})).2 =
    {| status := 401; body := Error "unauthorized" |} /\
  status (requestListener parse_after deps0 0 None server0
            {| method := "GET"; pathname := "/hook/after";
               headers := {[ "x-odam-hook-token" := "guess" ]};
               chunks := [raw_after] |}).2 = 405.
Proof. split; reflexivity. Qed.

(** *** Dropped after-events (claim C3) *)

(** An after-event that resolves nothing, or whose text is blank, asks
    for nothing; it returns when a workspace folder is open, the payload
    is not [null] and the text is a string or falsy, and throws
    otherwise. *)
Lemma handleAfterResponse_dropped deps syncError payload st :
  (Processor.lookupInteraction payload st).1 = None \/
  Js.trim <$> Processor.textOf (Processor.get payload "text") = Some "" ->
  let r := Processor.handleAfterResponse deps syncError payload st in
  r.1.2 = [] /\
  (r.2 = Processor.Returned <->
   is_Some (workspace deps) /\ Processor.isNull payload = false /\
   is_Some (Processor.textOf (Processor.get payload "text"))) /\
  (workspace deps = None \/ Processor.isNull payload = true -> r.1.1 = st) /\
  (workspace deps = None ->
   r.2 = Processor.Thrown (Processor.JsError "Workspace folder not available")).
Proof.
  intros Hdrop r. unfold r, Processor.handleAfterResponse.
  destruct (workspace deps) as [w|].
  2: { cbn. repeat split; try done. by intros [[? [=]] _]. }
  destruct (Processor.isNull payload).
  { cbn. repeat split; try done. by intros (_ & [=] & _). }
  destruct (Processor.lookupInteraction payload st) as [found st'].
  cbn [fst] in Hdrop.
  destruct (Processor.textOf (Processor.get payload "text")) as [text|].
  2: { cbn. repeat split; try done; try (by intros [[=]|[=]]). by intros (_ & _ & [? [=]]). }
  assert (Hret : forall effects,
    (st', effects, Processor.Returned).2 = Processor.Returned <->
    is_Some (Some w) /\ false = false /\ is_Some (Some text)) by (by split).
  destruct found as [i|].
  2: { cbn [fst snd]. repeat split; try done; by intros [[=]|[=]]. }
  destruct Hdrop as [[=]|Hblank]. cbn [fmap option_fmap option_map] in Hblank.
  injection Hblank as Hblank. rewrite Hblank. cbn [Js.truthy negb]. rewrite orb_true_r.
  cbn [fst snd]. repeat split; try done; by intros [[=]|[=]].
Qed.

(** C3, as the code has it.  An authenticated after-event whose
    interaction does not resolve, or whose trimmed text is empty, never
    reaches the synchronization: nothing is asked of any collaborator.
    The event is dropped and answered with 200 exactly when a workspace
    folder is available, the parsed body is not [null], and its text is a
    string or falsy.  Otherwise the handler throws and the answer is 500:
    without a workspace folder, or on the body [null], before it looks
    anything up, so that the server is unchanged; on a text that is truthy
    and not a string, after the lookup. *)
Theorem unresolved_after_dropped
  JSON_parse deps now syncError (srv : Server) (req : Request) rawBody parsed :
  method req = "POST" ->
  validateToken srv req = true ->
  readRawBody req = Some rawBody ->
  JSON_parse rawBody = Some parsed ->
  pathname req = "/hook/after" ->
  (Processor.lookupInteraction parsed (processor srv)).1 = None \/
  Js.trim <$> Processor.textOf (Processor.get parsed "text") = Some "" ->
  let run := requestListener JSON_parse deps now syncError srv req in
  run.1.2 = [] /\
  (forall e, e ∈ run.1.2 -> isRemoteWrite e = false) /\
  (run.2 = {| status := 200; body := Ok |} <->
   is_Some (workspace deps) /\ parsed <> Processor.JNull /\
   is_Some (Processor.textOf (Processor.get parsed "text"))) /\
  (run.2 <> {| status := 200; body := Ok |} ->
   run.2 = {| status := 500; body := Error "internal_error" |}) /\
  (workspace deps = None \/ parsed = Processor.JNull ->
   run = (srv, [], {| status := 500; body := Error "internal_error" |})).
Proof.
  intros Hpost Htoken Hbody Hparse Hpath Hdrop run.
  pose proof (requestListener_route JSON_parse deps now syncError srv req rawBody parsed
                Hpost Htoken Hbody Hparse
                (Processor.handleAfterResponse deps syncError parsed (processor srv))
                (or_intror (or_introl (conj Hpath eq_refl)))) as Hrun.
  fold run in Hrun.
  destruct (handleAfterResponse_dropped deps syncError parsed (processor srv) Hdrop)
    as (Heff & Hret & Hst & Hnow).
  cbv zeta in Heff, Hret, Hst, Hnow.
  assert (Hnull : Processor.isNull parsed = false <-> parsed <> Processor.JNull).
  { destruct parsed; cbn; split; (done || by intros H) . }
  rewrite Hrun. cbn [fst snd]. rewrite Heff.
  split; [done|]. split; [by intros e He; apply elem_of_nil in He|]. split; [|split].
  - rewrite <- Hnull, <- Hret.
    destruct (Processor.handleAfterResponse _ _ _ _).2; split; (done || discriminate).
  - destruct (Processor.handleAfterResponse _ _ _ _).2; [done|]. by intros _.
  - intros Hthrow.
    assert (Hnot : (Processor.handleAfterResponse deps syncError parsed (processor srv)).2
                   <> Processor.Returned).
    { intros E. apply Hret in E as ([w Hw] & Hn & _).
      destruct Hthrow as [E'|E']; [congruence|]. subst parsed. discriminate. }
    rewrite Hst.
    + destruct srv.
      by destruct (Processor.handleAfterResponse _ _ _ _).2.
    + destruct Hthrow as [Hw | ->]; [by left | by right].
Qed.

Lemma unresolved_after_dropped_witness :
  let req := post_after {[ "x-odam-hook-token" := "5f3a9c0e77b1" ]} in
  let run := requestListener parse_after deps0 0 None server0 req in
  run.1.2 = [] /\ run.2 = {| status := 200; body := Ok |}.
Proof.
  intros req run.
  destruct (unresolved_after_dropped parse_after deps0 0 None
              server0 req raw_after parsed_after)
    as (Hnone & _ & Hok & _); try reflexivity.
  - left. reflexivity.
  - split; [exact Hnone|]. apply Hok. split; [by eexists|]. split; [discriminate|].
    by eexists.
Defined.

(** An after-event that resolves is handed to the synchronization with
    the stored query and the trimmed text, and answered with 200. *)
Example resolved_after_synchronizes :
  let srv := {| token := "5f3a9c0e77b1";
                processor :=
                  (Processor.handleBeforePrompt
                     deps0 2000 (Processor.ofPromptPayload before_generation)
                     (processor server0)).1.1 |} in
  let run := requestListener parse_after deps0 0 None srv
               (post_after {[ "x-odam-hook-token" := "5f3a9c0e77b1" ]}) in
  run.1.2 = [UpdateMemoryAfterResponse "fix the failing test" "done" "/home/dev/project"] /\
  run.2 = {| status := 200; body := Ok |} /\
  Processor.pendingByGeneration (processor run.1.1) = ∅ /\
  Processor.pendingByConversation (processor run.1.1)
    = Processor.pendingByConversation (processor server0).
Proof. vm_compute. repeat split; reflexivity. Qed.

(** The sentence of the specification fails here: an after-event that
    resolves nothing is answered with 500 when no workspace folder is
    open, when its body is [null], and when its text is the number 5. *)
Lemma after_without_workspace_is_500 :
  (let req := post_after {[ "x-odam-hook-token" := "5f3a9c0e77b1" ]} in
   (Processor.lookupInteraction parsed_after (processor server0)).1 = None /\
   (requestListener parse_after deps_no_workspace 0 None server0 req).2 =
     {| status := 500; body := Error "internal_error" |} /\
   status (requestListener parse_after deps_no_workspace 0 None server0 req).2 <> 200) /\
  (parse_bodies raw_null = Some Processor.JNull /\
   (Processor.lookupInteraction Processor.JNull (processor server0)).1 = None /\
   requestListener parse_bodies deps0 0 None server0 (post_body raw_null) =
     (server0, [], {| status := 500; body := Error "internal_error" |})) /\
  (parse_bodies raw_text_5 = Some (Processor.JObject [("text", Processor.JNumber 5)]) /\
   (Processor.lookupInteraction (Processor.JObject [("text", Processor.JNumber 5)])
                                (processor server0)).1 = None /\
   requestListener parse_bodies deps0 0 None server0 (post_body raw_text_5) =
     (server0, [], {| status := 500; body := Error "internal_error" |})).
Proof.
  split; [|split].
  - repeat split; (reflexivity || discriminate).
  - repeat split; reflexivity.
  - repeat split; reflexivity.
Qed.

End ServerFacts.

(** ** Properties of the enhancer *)

Module EnhancerFacts.
Import OdamClient Enhancer Examples.

Lemma strictEq_spec v literal : strictEq v literal = true <-> v = JsString literal.
Proof.
  destruct v; simpl; try (split; [discriminate | intros [=]]).
  rewrite String.eqb_eq. split; [by intros -> | by intros [= ->]].
Qed.

Lemma truthyV_false v : truthyV v = false <-> falsy v.
Proof.
  unfold falsy. destruct v as [| |b|n|s|]; simpl.
  - split; [by left | done].
  - split; [by right; left | done].
  - split.
    + intros ->. by right; right; left.
    + intros [H|[H|[H|[H|H]]]]; by inversion H.
  - rewrite negb_false_iff, Z.eqb_eq. split.
    + intros ->. by right; right; right; left.
    + intros [H|[H|[H|[H|H]]]]; by inversion H.
  - rewrite JsFacts.truthy_false. split.
    + intros ->. by right; right; right; right.
    + intros [H|[H|[H|[H|H]]]]; by inversion H.
  - split; [done|]. intros [H|[H|[H|[H|H]]]]; by inversion H.
Qed.

Lemma isSuccessful_spec e :
  isSuccessful e = true <->
  prop e "status" = JsString "success" /\
  (prop e "test_status" = JsString "passed" \/ falsy (prop e "test_status")).
Proof.
  unfold isSuccessful.
  by rewrite andb_true_iff, orb_true_iff, negb_true_iff, !strictEq_spec, truthyV_false.
Qed.

Lemma isProblematic_spec e :
  isProblematic e = true <->
  prop e "status" = JsString "failed" \/
  prop e "outcome" = JsString "regression" \/
  prop e "test_status" = JsString "failed".
Proof.
  unfold isProblematic. rewrite !orb_true_iff, !strictEq_spec. tauto.
Qed.

Lemma isEffectiveSolution_spec e :
  isEffectiveSolution e = true <->
  isSuccessful e = true /\
  (prop e "outcome" = JsString "implemented" \/
   prop e "outcome" = JsString "bug_fixed" \/
   prop e "outcome" = JsString "optimized").
Proof.
  unfold isEffectiveSolution, isSuccessful.
  rewrite !andb_true_iff, !orb_true_iff, !strictEq_spec. tauto.
Qed.

(** *** Classification (claim C5) *)

(** C5, as the code has it.  An entity of the list is kept as Successful
    iff its status is [success] and its [test_status] is [passed] or falsy
    (absent, [null], [false], [0] or the empty string); as Problematic iff
    its status is [failed], or its outcome is [regression], or its
    [test_status] is [failed]; as EffectiveSolution iff it is Successful
    and its outcome is [implemented], [bug_fixed] or [optimized]. *)
Theorem classification_predicates (es : list Entity) (e : Entity) :
  (e ∈ findSuccessfulArtifacts es <->
     e ∈ es /\
     prop e "status" = JsString "success" /\
     (prop e "test_status" = JsString "passed" \/ falsy (prop e "test_status"))) /\
  (e ∈ findProblematicArtifacts es <->
     e ∈ es /\
     (prop e "status" = JsString "failed" \/
      prop e "outcome" = JsString "regression" \/
      prop e "test_status" = JsString "failed")) /\
  (e ∈ findEffectiveSolutions es <->
     e ∈ findSuccessfulArtifacts es /\
     (prop e "outcome" = JsString "implemented" \/
      prop e "outcome" = JsString "bug_fixed" \/
      prop e "outcome" = JsString "optimized")).
Proof.
  unfold findSuccessfulArtifacts, findProblematicArtifacts, findEffectiveSolutions.
  rewrite !list_elem_of_In, !filter_In, <- !list_elem_of_In.
  rewrite isSuccessful_spec, isProblematic_spec, isEffectiveSolution_spec,
    isSuccessful_spec.
  tauto.
Qed.

Lemma classification_predicates_witness :
  entity_A ∈ [entity_A; entity_B] /\
  entity_A ∈ findSuccessfulArtifacts [entity_A; entity_B] /\
  entity_A ∈ findEffectiveSolutions [entity_A; entity_B] /\
  entity_B ∈ findProblematicArtifacts [entity_A; entity_B].
Proof.
  assert (HA : entity_A ∈ [entity_A; entity_B]) by (apply elem_of_cons; by left).
  assert (HB : entity_B ∈ [entity_A; entity_B])
    by (apply elem_of_cons; right; apply elem_of_cons; by left).
  destruct (classification_predicates [entity_A; entity_B] entity_A)
    as (Hsucc & _ & Heff).
  destruct (classification_predicates [entity_A; entity_B] entity_B)
    as (_ & Hprob & _).
  assert (HS : entity_A ∈ findSuccessfulArtifacts [entity_A; entity_B]).
  { apply Hsucc. split; [exact HA|]. split; [reflexivity | left; reflexivity]. }
  split; [exact HA|]. split; [exact HS|]. split.
  - apply Heff. split; [exact HS|]. right; left. reflexivity.
  - apply Hprob. split; [exact HB|]. left. reflexivity.
Defined.

(** The sentence of the specification fails here: an entity whose
    [test_status] is present but empty is kept as Successful, although its
    [test_status] is neither [passed] nor absent. *)
Lemma empty_test_status_is_successful :
  entity_empty_test_status ∈ findSuccessfulArtifacts [entity_empty_test_status] /\
  properties entity_empty_test_status ≫= (.!! "test_status") = Some (JsString "") /\
  ~ (prop entity_empty_test_status "status" = JsString "success" /\
     (prop entity_empty_test_status "test_status" = JsString "passed" \/
      prop entity_empty_test_status "test_status" = JsUndefined)).
Proof.
  split; [|split].
  - vm_compute. apply list_elem_of_here.
  - reflexivity.
  - intros [_ [H|H]]; vm_compute in H; discriminate.
Qed.

(** *** The re-rendered section list (claim C6) *)

Section RenderingFacts.

Variable formatArtifactForContext : Entity -> bool -> option string.
Variable toPropertyKey : JsValue -> option string.

Local Abbreviation categoryOf := (categoryOf toPropertyKey).
Local Abbreviation groupOne := (groupOne toPropertyKey).
Local Abbreviation groupByCategory := (groupByCategory toPropertyKey).
Local Abbreviation formatAll := (formatAll formatArtifactForContext).
Local Abbreviation languageItems := (languageItems formatArtifactForContext toPropertyKey).
Local Abbreviation techProfileSection :=
  (techProfileSection formatArtifactForContext toPropertyKey).
Local Abbreviation generatedSection := (generatedSection formatArtifactForContext).
Local Abbreviation buildEnhancedSections :=
  (buildEnhancedSections formatArtifactForContext toPropertyKey).

Lemma fold_push_filter {A} (keep : A -> bool) (l acc : list A) :
  fold_left (fun sections section => if keep section then push sections section else sections)
            l acc = acc ++ List.filter keep l.
Proof.
  revert acc. induction l as [|x l IH]; intros acc; simpl.
  - by rewrite app_nil_r.
  - rewrite IH. destruct (keep x); [|done].
    unfold push. by rewrite <- app_assoc.
Qed.

Lemma filter_sublist_of {A} (keep : A -> bool) (l : list A) :
  List.filter keep l `sublist_of` l.
Proof.
  induction l as [|x l IH]; simpl; [constructor|].
  destruct (keep x); by constructor.
Qed.

Lemma includesTitle_spec titles t : includesTitle titles t = true <-> t ∈ titles.
Proof.
  unfold includesTitle. rewrite existsb_exists, list_elem_of_In. split.
  - intros (x & Hin & Heq). apply String.eqb_eq in Heq. by subst.
  - intros Hin. exists t. split; [done | apply String.eqb_refl].
Qed.

Lemma keepOthers_unfold existing sections :
  keepOthers existing sections =
    sections ++
    List.filter
      (fun s => negb (includesTitle (List.map lowerTitle sections) (lowerTitle s)))
      existing.
Proof. unfold keepOthers. apply fold_push_filter. Qed.

(** **** When the grouping throws *)

Lemma inherited_spec key : inherited key = true <-> key ∈ objectPrototype.
Proof.
  unfold inherited. rewrite existsb_exists, list_elem_of_In. split.
  - intros (x & Hin & Heq). apply String.eqb_eq in Heq. by subst.
  - intros Hin. exists key. split; [done | apply String.eqb_refl].
Qed.

Lemma own_plain grouped key artifacts :
  plainKeys grouped -> own grouped key = Some artifacts -> inherited key = false.
Proof.
  unfold own. intros Hplain Hown.
  destruct (List.find _ grouped) as [entry|] eqn:E; [|done].
  apply find_some in E as [Hin Heq]. apply String.eqb_eq in Heq. subst key.
  unfold plainKeys in Hplain. rewrite Forall_forall in Hplain.
  apply Hplain. by apply list_elem_of_In.
Qed.

Lemma pushTo_plain key artifact grouped :
  plainKeys grouped -> plainKeys (pushTo key artifact grouped).
Proof.
  unfold plainKeys. induction 1 as [|[k l] rest Hk Hrest IH]; cbn [pushTo]; [constructor|].
  destruct (String.eqb k key); by constructor.
Qed.

Lemma groupOne_spec categoryKey grouped artifact :
  plainKeys grouped ->
  match groupOne categoryKey grouped artifact with
  | Some grouped' =>
      plainKeys grouped' /\
      exists key, categoryOf artifact categoryKey = Some key /\ key ∉ objectPrototype
  | None =>
      match categoryOf artifact categoryKey with
      | Some key => key ∈ objectPrototype
      | None => True
      end
  end.
Proof.
  intros Hplain. unfold Enhancer.groupOne.
  destruct (categoryOf artifact categoryKey) as [key|]; [|done].
  destruct (own grouped key) as [artifacts|] eqn:Hown.
  - split; [by apply pushTo_plain|]. exists key. split; [done|].
    rewrite <- inherited_spec. by rewrite (own_plain _ _ _ Hplain Hown).
  - destruct (inherited key) eqn:Hin; [by apply inherited_spec|].
    split.
    + apply Forall_app. split; [done|]. by constructor.
    + exists key. split; [done|]. rewrite <- inherited_spec. by rewrite Hin.
Qed.

Lemma group_fold_None categoryKey artifacts :
  fold_left (fun grouped artifact =>
               match grouped with
               | Some g => groupOne categoryKey g artifact
               | None => None
               end) artifacts None = None.
Proof. by induction artifacts. Qed.

Lemma group_fold_spec categoryKey artifacts grouped :
  plainKeys grouped ->
  fold_left (fun grouped artifact =>
               match grouped with
               | Some g => groupOne categoryKey g artifact
               | None => None
               end) artifacts (Some grouped) = None <->
  Exists (fun a => match categoryOf a categoryKey with
                   | Some key => key ∈ objectPrototype
                   | None => True
                   end) artifacts.
Proof.
  revert grouped. induction artifacts as [|a rest IH]; intros grouped Hplain; cbn [fold_left].
  - split; [done|]. by intros H; apply Exists_nil in H.
  - pose proof (groupOne_spec categoryKey grouped a Hplain) as Hone.
    destruct (groupOne categoryKey grouped a) as [grouped'|].
    + destruct Hone as [Hplain' (key & Hkey & Hnot)].
      rewrite (IH grouped' Hplain'), Exists_cons. split; [by right|].
      intros [Ha|Hrest]; [|done]. by rewrite Hkey in Ha.
    + rewrite group_fold_None, Exists_cons. split; [by left | done].
Qed.

Lemma groupByCategory_throws artifacts categoryKey :
  groupByCategory artifacts categoryKey = None <->
  Exists (fun a => match categoryOf a categoryKey with
                   | Some key => key ∈ objectPrototype
                   | None => True
                   end) artifacts.
Proof. apply group_fold_spec. constructor. Qed.

(** **** The sections emitted first *)

Lemma find_includes_title (p : string) (l : list CodeMemorySection) s :
  List.find (fun s => Js.includes p (lowerTitle s)) l = Some s ->
  Js.includes p (lowerTitle s) = true.
Proof. intros H. by apply find_some in H as [_ H]. Qed.

Lemma techProfile_title existing successful tech :
  techProfileSection existing successful = Some tech ->
  Js.includes "technical profile" (lowerTitle tech) = true.
Proof.
  assert (H : Js.includes "technical profile" (lowerTitle (findTechProfile existing)) = true).
  { unfold findTechProfile.
    destruct (List.find _ existing) as [s|] eqn:E; [|reflexivity].
    by apply find_includes_title in E. }
  unfold Enhancer.techProfileSection. destruct successful; [by intros [= <-]|].
  destruct (languageItems _); by intros [= <-].
Qed.

Lemma generatedSection_cases section isSuccessful bucket out :
  generatedSection section isSuccessful bucket = Some out ->
  (bucket = [] /\ out = []) \/
  (bucket <> [] /\ exists values,
     formatAll isSuccessful bucket = Some values /\ out = [section values]).
Proof.
  unfold Enhancer.generatedSection. destruct bucket as [|a l]; [by intros [= <-]; left|].
  destruct (formatAll isSuccessful (a :: l)) as [values|]; [|done].
  intros [= <-]. right. split; [done|]. by exists values.
Qed.

Lemma generatedSection_is_Some section isSuccessful bucket :
  is_Some (generatedSection section isSuccessful bucket) <->
  is_Some (formatAll isSuccessful bucket).
Proof.
  unfold Enhancer.generatedSection. destruct bucket as [|a l].
  - split; intros _; by eexists.
  - destruct (formatAll isSuccessful (a :: l)); split; intros [x H]; (done || by eexists).
Qed.

(** The titles emitted first never repeat. *)
Lemma emitted_titles_NoDup tech solutions problems effective problematic :
  Js.includes "technical profile" (lowerTitle tech) = true ->
  generatedSection solutionsSection true effective = Some solutions ->
  generatedSection problemsSection false problematic = Some problems ->
  NoDup (List.map lowerTitle (tech :: solutions ++ problems)).
Proof.
  intros Htech Hs Hp.
  assert (Hts : lowerTitle tech <> "proven solutions")
    by (intros E; rewrite E in Htech; discriminate).
  assert (Htp : lowerTitle tech <> "known issues")
    by (intros E; rewrite E in Htech; discriminate).
  apply generatedSection_cases in Hs as [[_ ->]|(_ & vs & _ & ->)];
    apply generatedSection_cases in Hp as [[_ ->]|(_ & vp & _ & ->)];
    cbn [List.map app];
    repeat (apply NoDup_cons; split); try apply NoDup_nil_2;
    rewrite ?elem_of_cons, ?elem_of_nil; try (intuition congruence).
  intros [E|[]]. discriminate E.
Qed.

Lemma filter_map_NoDup {A B} (f : A -> B) (keep : A -> bool) (l : list A) :
  NoDup (List.map f l) -> NoDup (List.map f (List.filter keep l)).
Proof.
  induction l as [|x l IH]; simpl; [done|].
  rewrite NoDup_cons. intros [Hx Hl]. destruct (keep x); simpl; [|by apply IH].
  apply NoDup_cons. split; [|by apply IH].
  intros Hin. apply Hx. apply list_elem_of_In, in_map_iff in Hin as (y & Hy & Hin).
  apply filter_In in Hin as [Hin _].
  apply list_elem_of_In, in_map_iff. by exists y.
Qed.

Lemma buildEnhancedSections_Some existing successful problematic effective out :
  buildEnhancedSections existing successful problematic effective = Some out <->
  exists tech solutions problems,
    techProfileSection existing successful = Some tech /\
    generatedSection solutionsSection true effective = Some solutions /\
    generatedSection problemsSection false problematic = Some problems /\
    out = keepOthers existing (tech :: solutions ++ problems).
Proof.
  unfold Enhancer.buildEnhancedSections, push.
  destruct (techProfileSection existing successful) as [tech|].
  2: { split; [done|]. by intros (? & ? & ? & [=] & _). }
  destruct (generatedSection solutionsSection true effective) as [solutions|].
  2: { split; [done|]. by intros (? & ? & ? & _ & [=] & _). }
  destruct (generatedSection problemsSection false problematic) as [problems|].
  2: { split; [done|]. by intros (? & ? & ? & _ & _ & [=] & _). }
  cbn [app]. split.
  - intros [= <-]. by exists tech, solutions, problems.
  - by intros (? & ? & ? & [= <-] & [= <-] & [= <-] & ->).
Qed.


End RenderingFacts.


(** The example of the specification: the output lists [A] under
    [Proven Solutions] and [B] under [Known Issues], and reuses the
    lower-case technical profile. *)
Example enhanceContext_example :
  sections <$> enhanceContext format_by_name key_of_value memory_AB =
    Some (Some [ {| title := "technical profile";
                    items := [ {| label := "Other"; values := ["A"] |} ] |};
                 {| title := "Proven Solutions";
                    items := [ {| label := "Solutions"; values := ["A"] |} ] |};
                 {| title := "Known Issues";
                    items := [ {| label := "Problems"; values := ["B"] |} ] |};
                 {| title := "Notes"; items := [] |} ]).
Proof. reflexivity. Qed.

(** The entries of the grouping come with the array indices first, in
    ascending order. *)
Example languageItems_order :
  languageItems format_by_name key_of_value
                [entity_in "p" "python"; entity_in "t" "10"; entity_in "q" "python";
                 entity_in "s" "3"; entity_in "z" "03"] =
    Some [ {| label := "3"; values := ["s"] |}; {| label := "10"; values := ["t"] |};
           {| label := "python"; values := ["p"; "q"] |};
           {| label := "03"; values := ["z"] |} ].
Proof. reflexivity. Qed.


End EnhancerFacts.

(** ** Properties of the context cache *)

Module ContextProviderFacts.
Import OdamClient ContextProvider Examples.

Section ProviderFacts.

Variable getSessionId : string -> string.
Variable formatCodeMemorySectionsAsContext : CodeMemoryResponse -> string.

Local Abbreviation cacheKey := (cacheKey getSessionId).
Local Abbreviation sessionIdOf := (sessionIdOf getSessionId).
Local Abbreviation getMemoryContext :=
  (getMemoryContext getSessionId formatCodeMemorySectionsAsContext).
Local Abbreviation getMemoryContexts :=
  (getMemoryContexts getSessionId formatCodeMemorySectionsAsContext).
Local Abbreviation fetchMemoryContext := (fetchMemoryContext formatCodeMemorySectionsAsContext).

Local Abbreviation fetchOf := (fetchOf getSessionId).

Lemma getMemoryContext_hit p q ws now stored remote cached :
  cache p !! cacheKey p q ws = Some cached ->
  now - timestamp cached < cacheTimeout ->
  getMemoryContext p q ws now stored remote =
    {| returned := entry_context cached; provider := p; fetches := [] |}.
Proof.
  intros Hc Hfresh. unfold ContextProvider.getMemoryContext. rewrite Hc.
  apply Z.ltb_lt in Hfresh. by rewrite Hfresh.
Qed.

Lemma getMemoryContext_miss p q ws now stored remote :
  missAt p (cacheKey p q ws) now ->
  getMemoryContext p q ws now stored remote =
    let result := fetchMemoryContext remote in
    if Js.truthy (context result)
    then {| returned := context result;
            provider := {| userId := userId p;
                           cache := <[cacheKey p q ws :=
                                        {| entry_context := context result;
                                           timestamp := stored |}]> (cache p) |};
            fetches := [fetchOf p q ws] |}
    else {| returned := context result; provider := p; fetches := [fetchOf p q ws] |}.
Proof.
  unfold missAt, ContextProvider.getMemoryContext. intros Hmiss.
  destruct (cache p !! cacheKey p q ws) as [cached|]; [|reflexivity].
  apply Z.ltb_ge in Hmiss. by rewrite Hmiss.
Qed.

Lemma getMemoryContext_miss_iff p q ws now stored remote :
  fetches (getMemoryContext p q ws now stored remote) <> [] <->
  missAt p (cacheKey p q ws) now.
Proof.
  split.
  - unfold missAt, ContextProvider.getMemoryContext.
    destruct (cache p !! cacheKey p q ws) as [cached|]; [|done].
    destruct (now - timestamp cached <? cacheTimeout) eqn:E; [done|].
    intros _. by apply Z.ltb_ge.
  - intros Hmiss. rewrite getMemoryContext_miss by done. cbv zeta.
    by destruct (Js.truthy _).
Qed.

Lemma missAt_later p key now now' : missAt p key now -> now <= now' -> missAt p key now'.
Proof.
  unfold missAt. destruct (cache p !! key); [|done]. lia.
Qed.

Lemma getMemoryContext_userId p q ws now stored remote :
  userId (provider (getMemoryContext p q ws now stored remote)) = userId p.
Proof.
  unfold ContextProvider.getMemoryContext.
  destruct (cache p !! _) as [cached|]; [destruct (_ <? _)|];
    try destruct (Js.truthy _); reflexivity.
Qed.

(** *** Round trip, lazy expiry and [clearCache] (claim C7) *)

(** C7.  A lookup that fetched and stored a context is followed, for any
    query and workspace with the same cache key and within the TTL of the
    store (in particular immediately), by a hit: the stored context is
    returned, nothing is fetched and the cache is unchanged.  A lookup on an
    entry whose age has reached the TTL is a miss: the remote store is
    asked, and the key is still in the map afterwards, with the old entry
    untouched when the fetch brought nothing.  [clearCache] empties the
    map. *)
Theorem cache_round_trip_and_lazy_expiry (p : Provider) :
  (forall q ws q' ws',
     Js.orElse (sessionIdOf ws') "global" = Js.orElse (sessionIdOf ws) "global" ->
     Js.prefix 50 q' = Js.prefix 50 q ->
     cacheKey p q' ws' = cacheKey p q ws) /\
  (forall q ws now stored remote q' ws' now' stored' remote',
     let first := getMemoryContext p q ws now stored remote in
     fetches first <> [] -> returned first <> "" ->
     cacheKey p q' ws' = cacheKey p q ws ->
     now' - stored < cacheTimeout ->
     cache (provider first) !! cacheKey p q ws =
       Some {| entry_context := returned first; timestamp := stored |} /\
     getMemoryContext (provider first) q' ws' now' stored' remote' =
       {| returned := returned first; provider := provider first; fetches := [] |}) /\
  (forall q ws now stored remote cached,
     cache p !! cacheKey p q ws = Some cached ->
     cacheTimeout <= now - timestamp cached ->
     let r := getMemoryContext p q ws now stored remote in
     fetches r = [fetchOf p q ws] /\
     returned r = context (fetchMemoryContext remote) /\
     is_Some (cache (provider r) !! cacheKey p q ws) /\
     (returned r = "" -> provider r = p)) /\
  cache (clearCache p) = ∅.
Proof.
  split; [|split; [|split]].
  - intros q ws q' ws' Hs Hq. unfold ContextProvider.cacheKey. by rewrite Hs, Hq.
  - intros q ws now stored remote q' ws' now' stored' remote' first Hfetched Hres Hkey Hnow.
    apply getMemoryContext_miss_iff in Hfetched.
    assert (Hfirst : first =
      {| returned := context (fetchMemoryContext remote);
         provider := {| userId := userId p;
                        cache := <[cacheKey p q ws :=
                                     {| entry_context := context (fetchMemoryContext remote);
                                        timestamp := stored |}]> (cache p) |};
         fetches := [fetchOf p q ws] |}).
    { unfold first in *. rewrite getMemoryContext_miss in Hres |- * by done.
      cbv zeta in *. destruct (Js.truthy _) eqn:T; [done|].
      apply JsFacts.truthy_false in T. simpl in Hres. done. }
    rewrite Hfirst. cbn [returned provider].
    assert (Hstored :
      <[cacheKey p q ws := {| entry_context := context (fetchMemoryContext remote);
                              timestamp := stored |}]> (cache p) !! cacheKey p q ws =
      Some {| entry_context := context (fetchMemoryContext remote); timestamp := stored |})
      by apply lookup_insert_eq.
    split; [exact Hstored|].
    apply (getMemoryContext_hit _ q' ws' now' stored' remote'
             {| entry_context := context (fetchMemoryContext remote); timestamp := stored |});
      [|done].
    unfold ContextProvider.cacheKey in Hkey |- *. cbn [userId cache]. rewrite Hkey.
    exact Hstored.
  - intros q ws now stored remote cached Hc Hold r.
    assert (Hmiss : missAt p (cacheKey p q ws) now) by (unfold missAt; by rewrite Hc).
    unfold r. rewrite getMemoryContext_miss by done. cbv zeta.
    destruct (Js.truthy _) eqn:T; cbn [returned provider fetches cache].
    + repeat split.
      * rewrite lookup_insert_eq. by eexists.
      * intros E. rewrite E in T. discriminate.
    + repeat split. rewrite Hc. by eexists.
  - reflexivity.
Qed.

(** *** Only non-empty contexts are cached (claim C10) *)

Lemma cache_non_empty_step p q ws now stored remote :
  (forall k e, cache p !! k = Some e -> entry_context e <> "") ->
  forall k e,
    cache (provider (getMemoryContext p q ws now stored remote)) !! k = Some e ->
    entry_context e <> "".
Proof.
  intros Hinv k e. unfold ContextProvider.getMemoryContext.
  destruct (cache p !! cacheKey p q ws) as [cached|];
    [destruct (_ <? _); [apply Hinv|]|];
    (destruct (Js.truthy _) eqn:T; [|apply Hinv]);
    cbn [provider cache]; rewrite lookup_insert; case_decide;
    try apply Hinv; intros [= <-]; by apply JsFacts.truthy_spec.
Qed.

(** C10.  Every entry of the cache of a provider has a non-empty context.
    Every remote failure comes back from the client as an empty context.
    A lookup that fetches an empty context returns it and leaves the
    provider as it was, so that successive lookups for that query, at
    later times and as long as the fetch stays empty, all ask the remote
    store. *)
Theorem cached_contexts_non_empty :
  (forall p, reachable getSessionId formatCodeMemorySectionsAsContext p ->
             forall k e, cache p !! k = Some e -> entry_context e <> "") /\
  (forall message, context (fetchMemoryContext (RemoteError message)) = "") /\
  (forall p q ws now stored remote,
     let r := getMemoryContext p q ws now stored remote in
     fetches r <> [] -> context (fetchMemoryContext remote) = "" ->
     returned r = "" /\ provider r = p) /\
  (forall p q ws now0 calls,
     missAt p (cacheKey p q ws) now0 ->
     Forall (fun call : Z * Z * Remote =>
               now0 <= call.1.1 /\ context (fetchMemoryContext call.2) = "") calls ->
     Forall (fun r => fetches r = [fetchOf p q ws] /\ returned r = "" /\ provider r = p)
            (getMemoryContexts p q ws calls)).
Proof.
  assert (Hempty : forall p q ws now stored remote,
    missAt p (cacheKey p q ws) now -> context (fetchMemoryContext remote) = "" ->
    getMemoryContext p q ws now stored remote =
      {| returned := ""; provider := p; fetches := [fetchOf p q ws] |}).
  { intros p q ws now stored remote Hmiss Hctx.
    rewrite getMemoryContext_miss by done. cbv zeta. by rewrite Hctx. }
  split; [|split; [|split]].
  - induction 1 as [user|p q ws now stored remote _ IH|p _ IH]; intros k e.
    + cbn [cache]. by rewrite lookup_empty.
    + by apply cache_non_empty_step.
    + cbn [clearCache cache]. by rewrite lookup_empty.
  - reflexivity.
  - intros p q ws now stored remote r Hfetched Hctx.
    apply getMemoryContext_miss_iff in Hfetched.
    unfold r. by rewrite Hempty.
  - intros p q ws now0 calls Hmiss Hcalls.
    induction Hcalls as [|[[now stored] remote] rest [Hlater Hctx] _ IH];
      cbn [ContextProvider.getMemoryContexts]; [constructor|].
    cbn [fst snd] in Hlater, Hctx.
    rewrite Hempty by (by eauto using missAt_later).
    constructor; [done|]. exact IH.
Qed.

End ProviderFacts.

Lemma cache_round_trip_and_lazy_expiry_witness :
  let first := getMemoryContext session_of_path format_titles provider0
                 "which language do I prefer?" (Some "test") 1000 1005
                 (RemoteData memory_with_context) in
  fetches first <> [] /\ returned first <> "" /\
  getMemoryContext session_of_path format_titles (provider first)
    "which language do I prefer?" (Some "test") 1005 1010 (RemoteError "offline") =
    {| returned := "User prefers TypeScript"; provider := provider first; fetches := [] |}.
Proof.
  intros first.
  assert (H1 : fetches first <> []) by discriminate.
  assert (H2 : returned first <> "") by discriminate.
  split; [exact H1|]. split; [exact H2|].
  destruct (cache_round_trip_and_lazy_expiry session_of_path format_titles provider0)
    as (_ & Hround & _).
  destruct (Hround "which language do I prefer?" (Some "test") 1000 1005
              (RemoteData memory_with_context)
              "which language do I prefer?" (Some "test") 1005 1010
              (RemoteError "offline") H1 H2 eq_refl) as [_ Hhit]; [reflexivity|].
  exact Hhit.
Defined.

Lemma cached_contexts_non_empty_witness :
  let calls := [ (10, 11, RemoteError "timeout");
                 (20, 21, RemoteData memory_empty);
                 (30, 31, RemoteError "offline") ] in
  missAt provider0 (cacheKey session_of_path provider0 "anything new?" None) 5 /\
  Forall (fun call : Z * Z * Remote =>
            5 <= call.1.1 /\ context (fetchMemoryContext format_titles call.2) = "") calls /\
  Forall (fun r => fetches r = [fetchOf session_of_path provider0 "anything new?" None] /\
                   returned r = "" /\ provider r = provider0)
    (getMemoryContexts session_of_path format_titles provider0 "anything new?" None calls).
Proof.
  intros calls.
  assert (Hmiss : missAt provider0
                    (cacheKey session_of_path provider0 "anything new?" None) 5)
    by exact I.
  assert (Hcalls : Forall (fun call : Z * Z * Remote =>
            5 <= call.1.1 /\
            context (fetchMemoryContext format_titles call.2) = "") calls).
  { repeat constructor; (reflexivity || discriminate). }
  destruct (cached_contexts_non_empty session_of_path format_titles) as (_ & _ & _ & Hall).
  split; [exact Hmiss|]. split; [exact Hcalls|].
  exact (Hall provider0 "anything new?" None 5 calls Hmiss Hcalls).
Defined.

End ContextProviderFacts.

(** ** Properties of the chunk ids *)

Module FileUpdaterFacts.
Import FileUpdater Examples.

Example chunkIdOf_foo_bar : chunkIdOf "foo" "bar" = "Zm9vOmJhcg==".
Proof. reflexivity. Qed.

Example chunkIdOf_truncated :
  chunkIdOf "updateMemoryFile" "src/memoryFileUpdater.ts" =
    "dXBkYXRlTWVtb3J5RmlsZTpzcmMvbWVt".
Proof. reflexivity. Qed.

(** The identifier [cafe] with an acute accent on the e (code unit 233). *)
Example chunkIdOf_latin1 :
  chunkIdOf ("caf" +:+ String (Ascii.ascii_of_nat 233) "") "src/a.ts" =
    "Y2Fmw6k6c3JjL2EudHM=".
Proof. reflexivity. Qed.

Lemma utf8Char_cons c : exists b bs, utf8Char c = b :: bs.
Proof. unfold utf8Char. destruct (_ <? _)%N; eauto. Qed.

Lemma base64_cons b bs : exists c s, base64 (b :: bs) = String c s.
Proof. destruct bs as [|b' [|b'' bs]]; simpl; eauto. Qed.

(** A derived chunk id is never empty. *)
Lemma chunkIdOf_truthy identifier path :
  Js.truthy identifier = true -> Js.truthy (chunkIdOf identifier path) = true.
Proof.
  destruct identifier as [|c s]; [discriminate|]. intros _.
  unfold chunkIdOf. simpl utf8.
  destruct (utf8Char_cons c) as (b & bs & ->). simpl app.
  destruct (base64_cons b (bs ++ utf8 (s +:+ ":" +:+ path))) as (d & t & ->).
  reflexivity.
Qed.

Lemma withChunkId_chunk_id (a : CodeArtifact) :
  chunk_id (withChunkId a) =
    match path a with
    | Some p =>
        if negb (Js.truthyO (chunk_id a)) && Js.truthy (identifier a) && Js.truthy p
        then Some (chunkIdOf (identifier a) p)
        else chunk_id a
    | None => chunk_id a
    end.
Proof.
  unfold withChunkId. destruct (path a) as [p|]; [|reflexivity].
  by destruct (_ && _ && _).
Qed.

Lemma withChunkId_idempotent (a : CodeArtifact) :
  withChunkId (withChunkId a) = withChunkId a.
Proof.
  destruct (path a) as [p|] eqn:Hp.
  - destruct (negb (Js.truthyO (chunk_id a)) && Js.truthy (identifier a) && Js.truthy p)
      eqn:E.
    + assert (Hw : withChunkId a =
        {| identifier := identifier a; path := path a;
           language := language a; summary := summary a;
           status := status a; tags := tags a; outcome := outcome a;
           chunk_id := Some (chunkIdOf (identifier a) p);
           diff := diff a; test_status := test_status a |})
        by (unfold withChunkId; by rewrite Hp, E).
      rewrite Hw. unfold withChunkId. cbn [path chunk_id identifier Js.truthyO].
      apply andb_prop in E as [E _]. apply andb_prop in E as [_ Hid].
      rewrite Hp. by rewrite (chunkIdOf_truthy _ p Hid).
    + assert (Hw : withChunkId a = a) by (unfold withChunkId; by rewrite Hp, E).
      by rewrite !Hw.
  - assert (Hw : withChunkId a = a) by (unfold withChunkId; by rewrite Hp).
    by rewrite !Hw.
Qed.

(** C9, as the code has it.  The artifacts of the record request are the
    given ones passed through [withChunkId].  An artifact without a chunk
    id that has a non-empty identifier and a non-empty path is sent with
    the first 32 characters of the base64 text of [identifier:path]; one
    that lacks a path, or whose identifier or path is empty, is sent
    without a chunk id.  Either way what is sent depends on the identifier
    and the path alone, so two artifacts without chunk id, with the same
    identifier and path, are sent with the same chunk id; and syncing again
    what was sent changes nothing. *)
Theorem chunk_id_derivation
  (userId sessionId userQuery assistantResponse : string)
  (given : list CodeArtifact) (metadata : Metadata) :
  let sent := artifacts (recordPayload userId sessionId userQuery assistantResponse
                                       given metadata) in
  sent = List.map withChunkId given /\
  (forall a p, a ∈ given -> chunk_id a = None ->
     path a = Some p -> identifier a <> "" -> p <> "" ->
     chunk_id (withChunkId a) = Some (chunkIdOf (identifier a) p)) /\
  (forall a, a ∈ given -> chunk_id a = None ->
     path a = None \/ path a = Some "" \/ identifier a = "" ->
     chunk_id (withChunkId a) = None) /\
  (forall a b, a ∈ given -> b ∈ given ->
     chunk_id a = None -> chunk_id b = None ->
     identifier a = identifier b -> path a = path b ->
     chunk_id (withChunkId a) = chunk_id (withChunkId b)) /\
  artifacts (recordPayload userId sessionId userQuery assistantResponse sent metadata) = sent.
Proof.
  intros sent. split; [reflexivity|]. split; [|split; [|split]].
  - intros a p _ Hnone Hp Hid Hpne. rewrite withChunkId_chunk_id, Hnone, Hp.
    apply JsFacts.truthy_spec in Hid, Hpne. by rewrite Hid, Hpne.
  - intros a _ Hnone Hcases. rewrite withChunkId_chunk_id, Hnone.
    destruct (path a) as [p|]; [|reflexivity].
    destruct Hcases as [H|[H|H]]; [discriminate| |].
    + injection H as ->. simpl. by rewrite andb_false_r.
    + rewrite H. reflexivity.
  - intros a b _ _ Ha Hb Hid Hpath.
    by rewrite !withChunkId_chunk_id, Ha, Hb, Hid, Hpath.
  - unfold sent. cbn [artifacts recordPayload]. unfold artifactsWithChunkId.
    rewrite map_map. apply map_ext. intros a. apply withChunkId_idempotent.
Qed.

Lemma chunk_id_derivation_witness :
  let given := [artifact_updateMemoryFile; artifact_updateMemoryFile_again] in
  artifact_updateMemoryFile ∈ given /\
  artifact_updateMemoryFile_again ∈ given /\
  chunk_id (withChunkId artifact_updateMemoryFile) =
    Some "dXBkYXRlTWVtb3J5RmlsZTpzcmMvbWVt" /\
  chunk_id (withChunkId artifact_updateMemoryFile) =
    chunk_id (withChunkId artifact_updateMemoryFile_again).
Proof.
  intros given.
  assert (Ha : artifact_updateMemoryFile ∈ given) by (apply elem_of_cons; by left).
  assert (Hb : artifact_updateMemoryFile_again ∈ given)
    by (apply elem_of_cons; right; apply elem_of_cons; by left).
  destruct (chunk_id_derivation "user-1" "9f86d081884c7d65" "q" "r" given
              {| branch := None; ticket := None |}) as (_ & Hone & _ & Hsame & _).
  split; [exact Ha|]. split; [exact Hb|]. split.
  - rewrite (Hone _ "src/memoryFileUpdater.ts" Ha eq_refl eq_refl); [reflexivity| |];
      discriminate.
  - apply Hsame; (assumption || reflexivity).
Defined.

(** The sentence of the specification fails here: an artifact extracted from a response has
    an identifier and no path; it has no chunk id, and none is derived. *)
Lemma artifact_without_path_gets_no_chunk_id :
  chunk_id artifact_from_response = None /\
  List.map chunk_id
    (artifacts (recordPayload "user-1" "9f86d081884c7d65" "q" "r"
                              [artifact_from_response]
                              {| branch := None; ticket := None |})) = [None].
Proof. split; reflexivity. Qed.

End FileUpdaterFacts.

(** ** Properties of the update guard *)

Module ChatContextInjectorFacts.
Import ChatContextInjector Examples.

Lemma filter_removeFirst_other (t : Task) (l : list Task) :
  isChatUpdate t = false ->
  List.filter isChatUpdate (removeFirst t l) = List.filter isChatUpdate l.
Proof.
  intros Ht. induction l as [|x l IH]; simpl; [done|].
  case_decide as E.
  - subst x. by rewrite Ht.
  - simpl. by rewrite IH.
Qed.

Lemma filter_removeFirst_chat (t : Task) (l : list Task) :
  isChatUpdate t = true -> t ∈ l ->
  S (length (List.filter isChatUpdate (removeFirst t l))) =
  length (List.filter isChatUpdate l).
Proof.
  intros Ht. induction l as [|x l IH]; simpl; intros Hin.
  - by apply elem_of_nil in Hin.
  - case_decide as E.
    + subst x. by rewrite Ht.
    + apply elem_of_cons in Hin as [->|Hin]; [done|].
      simpl. destruct (isChatUpdate x); simpl; by rewrite IH.
Qed.

Lemma guarded_step e st st' : guarded st -> step e st = Some st' -> guarded st'.
Proof.
  unfold guarded, chatUpdates. intros Hg.
  destruct e as [[w q|q r w]|t wrote threw]; simpl.
  - intros [= <-]. unfold callUpdateContextForChat.
    destruct (isUpdating st) eqn:F; [by rewrite F|].
    simpl. by rewrite Hg.
  - intros [= <-]. simpl. exact Hg.
  - case_decide as Hin; [|discriminate]. intros [= <-]. simpl.
    destruct (isChatUpdate t) eqn:Ht.
    + pose proof (filter_removeFirst_chat t (running st) Ht Hin) as Hlen.
      destruct (isUpdating st); lia.
    + by rewrite filter_removeFirst_other.
Qed.

Lemma guarded_run trace st st' : guarded st -> run trace st = Some st' -> guarded st'.
Proof.
  revert st. induction trace as [|e trace IH]; simpl; intros st Hg.
  - by intros [= <-].
  - destruct (step e st) as [st1|] eqn:E; [|discriminate].
    apply IH. by eapply guarded_step.
Qed.

Lemma reachable_guarded st : reachable st -> guarded st.
Proof. intros [trace Hrun]. by apply (guarded_run trace init). Qed.

(** C8, as the code has it.  In every state the injector reaches: while
    its flag is set, a call of [updateContextForChat] returns at once and
    leaves everything as it was (nothing is started, queued or written);
    when the chat update in flight settles, whether it threw or not, the
    flag is reset and the next call starts a new update; so at most one
    chat update is ever in flight, and one is exactly while the flag is
    set. *)
Theorem updateContextForChat_single_flight (st : State) :
  reachable st ->
  (isUpdating st = true ->
   forall w q, step (Call (UpdateContextForChat w q)) st = Some st) /\
  (forall t wrote threw,
     isChatUpdate t = true -> t ∈ running st ->
     exists st',
       step (Settle t wrote threw) st = Some st' /\
       isUpdating st' = false /\
       forall w q,
         step (Call (UpdateContextForChat w q)) st' =
           Some {| isUpdating := true;
                   running := UpdateContextForChat w q :: running st';
                   written := written st' |}) /\
  (length (chatUpdates st) <= 1)%nat /\
  (isUpdating st = true <-> exists t, chatUpdates st = [t]).
Proof.
  intros Hreach. pose proof (reachable_guarded st Hreach) as Hg.
  unfold guarded in Hg. split; [|split; [|split]].
  - intros F w q. simpl. unfold callUpdateContextForChat. by rewrite F.
  - intros t wrote threw Ht Hin. exists (settle t wrote threw st).
    simpl. rewrite decide_True by done. split; [done|]. split.
    + simpl. by rewrite Ht.
    + intros w q. unfold callUpdateContextForChat. simpl. by rewrite Ht.
  - destruct (isUpdating st); lia.
  - split.
    + intros F. rewrite F in Hg.
      destruct (chatUpdates st) as [|t [|t' l]]; try discriminate. by exists t.
    + intros [t Ht]. rewrite Ht in Hg. by destruct (isUpdating st).
Qed.

Lemma updateContextForChat_single_flight_witness :
  reachable st_chat_update /\
  isUpdating st_chat_update = true /\
  step (Call (UpdateContextForChat "/home/dev/project" "another question")) st_chat_update =
    Some st_chat_update.
Proof.
  assert (Hreach : reachable st_chat_update).
  { exists [Call (UpdateContextForChat "/home/dev/project" "how do I sort a list?")].
    reflexivity. }
  destruct (updateContextForChat_single_flight st_chat_update Hreach) as (Hskip & _).
  split; [exact Hreach|]. split; [reflexivity|].
  apply Hskip. reflexivity.
Defined.

(** The sentence of the specification fails here: while the flag is set, two
    synchronizations ([updateMemoryAfterResponse]) for the same workspace
    folder are started, none is skipped, the three calls are in flight
    together, and both synchronizations write the memory file while the
    flag is still set. *)
Lemma synchronization_not_guarded :
  (exists st,
     run trace_overlap init = Some st /\
     isUpdating st = true /\
     running st =
       [ UpdateMemoryAfterResponse "q2" "r2" "/home/dev/project";
         UpdateMemoryAfterResponse "q1" "r1" "/home/dev/project";
         UpdateContextForChat "/home/dev/project" "q0" ]) /\
  (exists st,
     run trace_overlap_settled init = Some st /\
     isUpdating st = true /\
     written st = ["/home/dev/project"; "/home/dev/project"]).
Proof. split; eexists; repeat split; reflexivity. Qed.

End ChatContextInjectorFacts.

Ltac in_list :=
  repeat first [apply list_elem_of_here | apply list_elem_of_further].

(** ** More about the JavaScript primitives *)

Module TrimFacts.
Import Js.

Lemma trimStart_head c t s : trimStart s = String c t -> isWhiteSpace c = false.
Proof.
  induction s as [|a s IH]; simpl; [discriminate|].
  destruct (isWhiteSpace a) eqn:E; [exact IH|].
  intros [= <- <-]. exact E.
Qed.

Lemma trimStart_fixed c t : isWhiteSpace c = false -> trimStart (String c t) = String c t.
Proof. intros H. simpl. by rewrite H. Qed.

Lemma trimEnd_cons c s : isWhiteSpace c = false -> trimEnd (String c s) = String c (trimEnd s).
Proof. intros H. simpl. destruct (trimEnd s); [by rewrite H | done]. Qed.

Lemma trimEnd_unfold c s :
  trimEnd (String c s) =
    match trimEnd s with
    | EmptyString => if isWhiteSpace c then EmptyString else String c EmptyString
    | t => String c t
    end.
Proof. reflexivity. Qed.

Lemma trimEnd_idempotent s : trimEnd (trimEnd s) = trimEnd s.
Proof.
  induction s as [|c s IH]; [done|]. rewrite (trimEnd_unfold c s).
  destruct (trimEnd s) as [|d u] eqn:E.
  - destruct (isWhiteSpace c) eqn:W; [done|]. simpl. by rewrite W.
  - rewrite trimEnd_unfold, IH. done.
Qed.

Lemma trim_idempotent s : trim (trim s) = trim s.
Proof.
  unfold trim. destruct (trimStart s) as [|c t] eqn:E; [done|].
  pose proof (trimStart_head _ _ _ E) as W.
  rewrite (trimEnd_cons c t W), (trimStart_fixed c _ W).
  rewrite <- (trimEnd_cons c t W). apply trimEnd_idempotent.
Qed.

Lemma trim_nonempty_head s c t : trim s = String c t -> isWhiteSpace c = false.
Proof.
  unfold trim. destruct (trimStart s) as [|a u] eqn:E; [discriminate|].
  pose proof (trimStart_head _ _ _ E) as W.
  rewrite (trimEnd_cons a u W). by intros [= <- _].
Qed.

End TrimFacts.

(** ** More about the correlator: frames, invariants and runs *)

Module HookRunsFacts.
Import Correlator HookRuns Examples MoreExamples.

Lemma elem_of_pending st i :
  i ∈ pending st <->
  pendingIn (pendingByGeneration st) i \/ pendingIn (pendingByConversation st) i.
Proof. unfold pending, pendingIn. by rewrite elem_of_union, !elem_of_map_img. Qed.

Lemma pending_init : pending init = ∅.
Proof.
  apply set_eq. intros i. rewrite elem_of_pending. unfold pendingIn. simpl.
  split; [|by intros ?%elem_of_empty].
  intros [[k H]|[k H]]; by rewrite lookup_empty in H.
Qed.

Lemma lookupByConversation_cases conversation st :
  (exists i, lookupByConversation conversation st = (Some i, remove i st) /\
             i ∈ pending st) \/
  lookupByConversation conversation st = (None, st).
Proof.
  unfold lookupByConversation. destruct conversation as [c|]; [|by right].
  destruct (Js.truthy c); [|by right].
  destruct (pendingByConversation st !! c) as [i|] eqn:E; [|by right].
  left. exists i. split; [done|]. apply elem_of_pending. right. by exists c.
Qed.

Lemma lookupInteraction_cases conversation generation st :
  (exists i, lookupInteraction conversation generation st = (Some i, remove i st) /\
             i ∈ pending st) \/
  lookupInteraction conversation generation st = (None, st).
Proof.
  unfold lookupInteraction.
  destruct generation as [g|]; [|apply lookupByConversation_cases].
  destruct (Js.truthy g); [|apply lookupByConversation_cases].
  destruct (pendingByGeneration st !! g) as [i|] eqn:E; [|apply lookupByConversation_cases].
  left. exists i. split; [done|]. apply elem_of_pending. left. by exists g.
Qed.

Lemma pending_store i st : pending (store i st) ⊆ {[i]} ∪ pending st.
Proof.
  intros j. rewrite elem_of_union, elem_of_singleton, !elem_of_pending.
  unfold pendingIn, store; simpl. intros [[k H]|[k H]].
  - destruct (generationId i) as [g|]; [|right; left; by exists k].
    destruct (Js.truthy g); [|right; left; by exists k].
    rewrite lookup_insert in H. case_decide; [left; congruence|].
    right; left. by exists k.
  - destruct (conversationId i) as [c|]; [|right; right; by exists k].
    destruct (Js.truthy c); [|right; right; by exists k].
    rewrite lookup_insert in H. case_decide; [left; congruence|].
    right; right. by exists k.
Qed.

Lemma pending_remove i st : keyed st -> pending (remove i st) ⊆ pending st ∖ {[i]}.
Proof.
  intros Hk j. rewrite elem_of_difference, elem_of_singleton, !elem_of_pending.
  destruct (CorrelatorFacts.remove_gone i st Hk) as [Hg Hc].
  unfold pendingIn in *. intros [[k H]|[k H]].
  - split.
    + left. exists k. by apply CorrelatorFacts.remove_generation_sub in H.
    + intros ->. apply Hg. by exists k.
  - split.
    + right. exists k. by apply CorrelatorFacts.remove_conversation_sub in H.
    + intros ->. apply Hc. by exists k.
Qed.

Lemma size_pending_store i st :
  (size (pending (store i st)) <= S (size (pending st)))%nat.
Proof.
  etrans; [apply subseteq_size, pending_store|].
  rewrite size_union_alt, size_singleton.
  apply le_n_S, subseteq_size. intros x Hx.
  by apply elem_of_difference in Hx as [? _].
Qed.

Lemma size_pending_remove i st :
  keyed st -> i ∈ pending st ->
  (S (size (pending (remove i st))) <= size (pending st))%nat.
Proof.
  intros Hk Hin.
  assert (Hsub : (size (pending (remove i st)) <= size (pending st ∖ {[i]}))%nat)
    by (by apply subseteq_size, pending_remove).
  assert (Hone : {[i]} ⊆ pending st) by (by apply singleton_subseteq_l).
  rewrite (size_difference (pending st) {[i]} Hone), size_singleton in Hsub.
  assert (Hpos : (1 <= size (pending st))%nat).
  { pose proof (subseteq_size _ _ Hone) as H. by rewrite size_singleton in H. }
  lia.
Qed.

Lemma keyed_handleAfterResponse deps syncError payload st :
  keyed st -> keyed (handleAfterResponse deps syncError payload st).1.1.
Proof.
  intros Hk.
  destruct (ServerFacts.handleAfterResponse_state deps syncError payload st) as [-> | ->];
    [done|]. by apply CorrelatorFacts.keyed_lookupInteraction.
Qed.

Lemma keyed_handle e st : keyed st -> keyed (handle e st).1.
Proof.
  intros Hk. destruct e as [deps now payload|deps syncError payload|deps payload|]; simpl.
  - by apply CorrelatorFacts.keyed_handleBeforePrompt.
  - by apply keyed_handleAfterResponse.
  - unfold handleAfterThought. by destruct (negb _).
  - apply CorrelatorFacts.keyed_init.
Qed.

Lemma handleBeforePrompt_cases deps now payload st :
  (exists w i,
     workspace deps = Some w /\
     recordedQuery (Before deps now payload) = Some (query i) /\
     query i = Js.trim (Js.orElse (prompt payload) "") /\
     query i <> "" /\
     conversationId i = p_conversation_id payload /\
     generationId i = p_generation_id payload /\
     handleBeforePrompt deps now payload st =
       (store i st, [UpdateMemoryFile (query i) w], Returned)) \/
  (recordedQuery (Before deps now payload) = None /\
   (handleBeforePrompt deps now payload st).1 = (st, [])).
Proof.
  unfold handleBeforePrompt, recordedQuery.
  destruct (workspace deps) as [w|]; [|by right].
  destruct (Js.truthy (Js.trim (Js.orElse (prompt payload) ""))) eqn:T; [|by right].
  left.
  exists w, {| query := Js.trim (Js.orElse (prompt payload) "");
               conversationId := p_conversation_id payload;
               generationId := p_generation_id payload;
               model := p_model payload; createdAt := now |}.
  cbn [query conversationId generationId negb].
  repeat (split; [reflexivity|]).
  split; [by apply JsFacts.truthy_spec|]. repeat (split; [reflexivity|]). reflexivity.
Qed.

Lemma handleAfterResponse_cases deps syncError payload st :
  (exists w i,
     workspace deps = Some w /\
     lookupInteraction (conversation_id payload) (generation_id payload) st =
       (Some i, remove i st) /\
     i ∈ pending st /\
     (handleAfterResponse deps syncError payload st).1.1 = remove i st /\
     ((handleAfterResponse deps syncError payload st).1.2 = [] \/
      query i <> "" /\ Js.trim (Js.orElse (text payload) "") <> "" /\
      exists more,
        (handleAfterResponse deps syncError payload st).1.2 =
          UpdateMemoryAfterResponse (query i) (Js.trim (Js.orElse (text payload) "")) w
          :: more /\
        synchronizedQueries more = [])) \/
  (handleAfterResponse deps syncError payload st).1 = (st, []).
Proof.
  unfold handleAfterResponse.
  destruct (workspace deps) as [w|]; [|by right].
  destruct (lookupInteraction_cases (conversation_id payload) (generation_id payload) st)
    as [(i & -> & Hin)| ->]; [|by right].
  left. exists w, i. split; [done|]. split; [done|]. split; [done|].
  destruct (Js.truthy (query i)) eqn:Tq; simpl; [|by split; [|left]].
  destruct (Js.truthy (Js.trim (Js.orElse (text payload) ""))) eqn:Tr; simpl;
    [|by split; [|left]].
  apply JsFacts.truthy_spec in Tq, Tr.
  destruct syncError as [e|]; [|destruct (hasStatusBar deps && Js.truthyO (userId deps))];
    simpl; (split; [done|]); right; (split; [done|]); (split; [done|]); by eexists.
Qed.

Lemma synchronizedQueries_cons q r w more :
  synchronizedQueries (UpdateMemoryAfterResponse q r w :: more) =
    q :: synchronizedQueries more.
Proof. reflexivity. Qed.

(** One event: the synchronization it starts, if any, is that of an
    interaction that was pending, and is paid for by that interaction. *)
Lemma handle_step e st :
  keyed st ->
  (length (synchronizedQueries (handle e st).2) + size (pending (handle e st).1)
   <= match recordedQuery e with Some _ => 1 | None => 0 end + size (pending st))%nat /\
  (forall q, q ∈ synchronizedQueries (handle e st).2 ->
             exists i, i ∈ pending st /\ query i = q) /\
  (forall i, i ∈ pending (handle e st).1 ->
             i ∈ pending st \/ recordedQuery e = Some (query i)).
Proof.
  intros Hk. destruct e as [deps now payload|deps syncError payload|deps payload|].
  - cbn [handle].
    destruct (handleBeforePrompt_cases deps now payload st)
      as [(w & i & _ & Hrec & _ & _ & _ & _ & ->)|[Hrec ->]]; rewrite Hrec; simpl.
    + split; [|split].
      * pose proof (size_pending_store i st). lia.
      * by intros q ?%elem_of_nil.
      * intros j Hj. apply pending_store in Hj.
        apply elem_of_union in Hj as [->%elem_of_singleton|Hj]; [by right | by left].
    + split; [lia|]. split; [by intros q ?%elem_of_nil | by left].
  - cbn [handle recordedQuery].
    destruct (handleAfterResponse_cases deps syncError payload st)
      as [(w & i & _ & _ & Hin & Hst & Heff)| ->].
    + rewrite Hst. pose proof (size_pending_remove i st Hk Hin) as Hsize.
      assert (Hsub : forall j, j ∈ pending (remove i st) -> j ∈ pending st).
      { intros j Hj. apply (pending_remove i st Hk) in Hj.
        by apply elem_of_difference in Hj as [? _]. }
      destruct Heff as [-> | (_ & _ & more & -> & Hmore)].
      * simpl. split; [lia|]. split; [by intros q ?%elem_of_nil | by left; apply Hsub].
      * rewrite synchronizedQueries_cons, Hmore. simpl.
        split; [lia|]. split; [|by left; apply Hsub].
        intros q ->%list_elem_of_singleton. by exists i.
    + simpl. split; [lia|]. split; [by intros q ?%elem_of_nil | by left].
  - cbn [handle recordedQuery]. unfold handleAfterThought.
    destruct (negb (hasLogger deps)); simpl;
      (split; [lia|]); (split; [by intros q ?%elem_of_nil | by left]).
  - change (handle Clear st) with (init, @nil Effect). cbn [recordedQuery fst snd].
    rewrite pending_init, size_empty. simpl.
    split; [lia|]. split; [by intros q ?%elem_of_nil | by intros i ?%elem_of_empty].
Qed.

Lemma run_cons e rest st :
  run (e :: rest) st =
    ((run rest (handle e st).1).1, (handle e st).2 ++ (run rest (handle e st).1).2).
Proof.
  simpl. destruct (handle e st) as [st1 eff1]. simpl.
  by destruct (run rest st1) as [st2 eff2].
Qed.

Lemma run_from_keyed events st :
  keyed st ->
  (length (synchronizedQueries (run events st).2) + size (pending (run events st).1)
   <= length (recordedQueries events) + size (pending st))%nat /\
  (forall q, q ∈ synchronizedQueries (run events st).2 ->
             q ∈ recordedQueries events \/ exists i, i ∈ pending st /\ query i = q).
Proof.
  revert st. induction events as [|e rest IH]; intros st Hk.
  - simpl. split; [lia|]. by intros q ?%elem_of_nil.
  - rewrite run_cons. cbn [fst snd].
    destruct (handle_step e st Hk) as (Hcount & Hsync & Hpend).
    destruct (IH (handle e st).1 (keyed_handle e st Hk)) as (IHcount & IHsync).
    unfold synchronizedQueries in *. rewrite omap_app, length_app.
    assert (Hrec : recordedQueries (e :: rest) =
                   match recordedQuery e with Some y => [y] | None => [] end
                   ++ recordedQueries rest).
    { unfold recordedQueries. simpl. by destruct (recordedQuery e). }
    rewrite Hrec, length_app. clear Hrec.
    split.
    + destruct (recordedQuery e); simpl in *; lia.
    + intros q [Hq|Hq]%elem_of_app.
      * right. by apply Hsync.
      * destruct (IHsync q Hq) as [Hrec|(i & Hi & <-)].
        -- left. apply elem_of_app. by right.
        -- destruct (Hpend i Hi) as [Hold| ->]; [right; by exists i|].
           left. apply elem_of_app. left. apply elem_of_cons. by left.
Qed.

Lemma reachable_trimmed st : reachable st -> trimmedQueries st.
Proof.
  induction 1 as [|deps now payload st Hreach IH|conversation generation st Hreach IH
                 |st _ _]; intros j Hj.
  - rewrite pending_init in Hj. by apply elem_of_empty in Hj.
  - destruct (handleBeforePrompt_cases deps now payload st)
      as [(w & i & _ & _ & Hq & Hne & _ & _ & Hrun)|[_ Hrun]].
    + rewrite Hrun in Hj. cbn [fst] in Hj. apply pending_store in Hj.
      apply elem_of_union in Hj as [->%elem_of_singleton|Hj]; [|by apply IH].
      split; [done|]. rewrite Hq. apply TrimFacts.trim_idempotent.
    + rewrite Hrun in Hj. by apply IH.
  - destruct (lookupInteraction_cases conversation generation st)
      as [(i & Hrun & _)|Hrun]; rewrite Hrun in Hj; cbn [snd] in Hj; [|by apply IH].
    apply (pending_remove i st (CorrelatorFacts.reachable_keyed st Hreach)) in Hj.
    apply elem_of_difference in Hj as [Hj _]. by apply IH.
  - change (clear st) with init in Hj. rewrite pending_init in Hj.
    by apply elem_of_empty in Hj.
Qed.

(** *** Handlers touch the entries of one interaction only *)

(** X1.  A before-event changes the generation index at most under its
    own generation id and the conversation index at most under its own
    conversation id, and never removes a key; with a blank prompt it
    changes nothing and asks for nothing.  A resolution changes each index
    at most under the corresponding id of the interaction it returns, and
    changes nothing when it returns none. *)
Theorem handlers_touch_own_keys deps now payload conversation generation (st : State) :
  let st1 := (handleBeforePrompt deps now payload st).1.1 in
  let found := lookupInteraction conversation generation st in
  (forall k, p_generation_id payload <> Some k ->
             pendingByGeneration st1 !! k = pendingByGeneration st !! k) /\
  (forall k, p_conversation_id payload <> Some k ->
             pendingByConversation st1 !! k = pendingByConversation st !! k) /\
  (forall k, is_Some (pendingByGeneration st !! k) ->
             is_Some (pendingByGeneration st1 !! k)) /\
  (forall k, is_Some (pendingByConversation st !! k) ->
             is_Some (pendingByConversation st1 !! k)) /\
  (Js.trim (Js.orElse (prompt payload) "") = "" ->
   (handleBeforePrompt deps now payload st).1 = (st, [])) /\
  (forall i k, found.1 = Some i ->
     (generationId i <> Some k ->
      pendingByGeneration found.2 !! k = pendingByGeneration st !! k) /\
     (conversationId i <> Some k ->
      pendingByConversation found.2 !! k = pendingByConversation st !! k)) /\
  (found.1 = None -> found.2 = st).
Proof.
  intros st1 found.
  assert (Hstore : forall i,
    (forall k, generationId i <> Some k ->
       pendingByGeneration (store i st) !! k = pendingByGeneration st !! k) /\
    (forall k, conversationId i <> Some k ->
       pendingByConversation (store i st) !! k = pendingByConversation st !! k) /\
    (forall k, is_Some (pendingByGeneration st !! k) ->
               is_Some (pendingByGeneration (store i st) !! k)) /\
    (forall k, is_Some (pendingByConversation st !! k) ->
               is_Some (pendingByConversation (store i st) !! k))).
  { intros i. unfold store; simpl. repeat split; intros k.
    - destruct (generationId i) as [g|]; [|done]. destruct (Js.truthy g); [|done].
      intros Hne. rewrite lookup_insert_ne; [done | congruence].
    - destruct (conversationId i) as [c|]; [|done]. destruct (Js.truthy c); [|done].
      intros Hne. rewrite lookup_insert_ne; [done | congruence].
    - destruct (generationId i) as [g|]; [|done]. destruct (Js.truthy g); [|done].
      rewrite lookup_insert. by case_decide.
    - destruct (conversationId i) as [c|]; [|done]. destruct (Js.truthy c); [|done].
      rewrite lookup_insert. by case_decide. }
  assert (Hremove : forall i k,
    (generationId i <> Some k ->
       pendingByGeneration (remove i st) !! k = pendingByGeneration st !! k) /\
    (conversationId i <> Some k ->
       pendingByConversation (remove i st) !! k = pendingByConversation st !! k)).
  { intros i k. unfold remove; simpl. split.
    - destruct (generationId i) as [g|]; [|done]. destruct (Js.truthy g); [|done].
      intros Hne. rewrite lookup_delete_ne; [done | congruence].
    - destruct (conversationId i) as [c|]; [|done]. destruct (Js.truthy c); [|done].
      intros Hne. rewrite lookup_delete_ne; [done | congruence]. }
  destruct (handleBeforePrompt_cases deps now payload st)
    as [(w & i & _ & _ & Hq & Hne & Hc & Hg & Hrun)|[_ Hrun]].
  - unfold st1. rewrite Hrun. cbn [fst]. rewrite <- Hc, <- Hg.
    destruct (Hstore i) as (H1 & H2 & H3 & H4).
    split; [exact H1|]. split; [exact H2|]. split; [exact H3|]. split; [exact H4|].
    split; [intros E; by rewrite <- Hq in E|].
    unfold found.
    destruct (lookupInteraction_cases conversation generation st) as [(j & -> & _)| ->].
    + split; [|done]. intros i' k [= <-]. apply Hremove.
    + split; [|done]. intros i' k [=].
  - unfold st1. rewrite Hrun. cbn [fst].
    repeat (split; [done|]). unfold found.
    destruct (lookupInteraction_cases conversation generation st) as [(j & -> & _)| ->].
    + split; [|done]. intros i' k [= <-]. apply Hremove.
    + split; [|done]. intros i' k [=].
Qed.

(** *** What an after-event does to a reachable state *)

(** X2.  In a state the processor reaches, every pending query is
    non-empty and trimmed.  With a workspace folder available, an
    after-event then consumes the interaction it resolves whatever
    follows; it starts the synchronization, with the stored query and the
    trimmed text, iff an interaction resolves and the trimmed text is
    non-empty; and it throws iff that synchronization throws. *)
Theorem after_event_consumes deps syncError payload (st : State) w :
  reachable st -> workspace deps = Some w ->
  let found := lookupInteraction (conversation_id payload) (generation_id payload) st in
  let response := Js.trim (Js.orElse (text payload) "") in
  let r := handleAfterResponse deps syncError payload st in
  trimmedQueries st /\
  r.1.1 = found.2 /\
  (forall q a w',
     UpdateMemoryAfterResponse q a w' ∈ r.1.2 <->
     (exists i, found.1 = Some i /\ q = query i) /\
     a = response /\ response <> "" /\ w' = w) /\
  (forall e, r.2 = Thrown e <->
             syncError = Some e /\ is_Some found.1 /\ response <> "").
Proof.
  intros Hreach Hw found response r.
  pose proof (reachable_trimmed st Hreach) as Htrim.
  split; [exact Htrim|].
  unfold r, handleAfterResponse. rewrite Hw. fold found. fold response.
  destruct (lookupInteraction_cases (conversation_id payload) (generation_id payload) st)
    as [(i & Hfound & Hin)|Hfound]; fold found in Hfound; rewrite Hfound; cbn [fst snd].
  - destruct (Htrim i Hin) as [Hq _]. apply JsFacts.truthy_spec in Hq. rewrite Hq.
    cbn [negb orb].
    destruct (Js.truthy response) eqn:Tr; cbn [negb].
    + apply JsFacts.truthy_spec in Tr.
      assert (Hsync : forall more q a w',
        (forall x, x ∈ more -> x = GetMemoryStats w) ->
        UpdateMemoryAfterResponse q a w' ∈
          UpdateMemoryAfterResponse (query i) response w :: more <->
        (exists i0, Some i = Some i0 /\ q = query i0) /\
        a = response /\ response <> "" /\ w' = w).
      { intros more q a w' Hmore. rewrite elem_of_cons. split.
        - intros [[= -> -> ->]|Hin']; [by eauto 6|].
          by apply Hmore in Hin'.
        - intros ((i0 & [= <-] & ->) & -> & _ & ->). by left. }
      destruct syncError as [e|]; [|destruct (hasStatusBar deps && Js.truthyO (userId deps))];
        cbn [fst snd]; (split; [done|]); split.
      * intros q a w'. apply Hsync. by intros x ?%elem_of_nil.
      * intros e'. split; [intros [= ->]; by eauto | by intros ([= ->] & _)].
      * intros q a w'. apply Hsync. by intros x ->%list_elem_of_singleton.
      * intros e'. split; [done | by intros ([=] & _)].
      * intros q a w'. apply Hsync. by intros x ?%elem_of_nil.
      * intros e'. split; [done | by intros ([=] & _)].
    + apply JsFacts.truthy_false in Tr. cbn [fst snd]. split; [done|]. split.
      * intros q a w'. split; [by intros ?%elem_of_nil | by intros (_ & _ & ? & _)].
      * intros e'. split; [done | by intros (_ & _ & ?)].
  - cbn [fst snd]. split; [done|]. split.
    + intros q a w'. split; [by intros ?%elem_of_nil | by intros ((i0 & [=] & _) & _)].
    + intros e'. split; [done | by intros (_ & [i0 [=]] & _)].
Qed.

Lemma handlers_touch_own_keys_witness :
  let st1 := (handleBeforePrompt deps0 2000 before_generation st_conversation_only).1.1 in
  p_conversation_id before_generation <> Some "conv-1" /\
  pendingByConversation st1 !! "conv-1" =
    pendingByConversation st_conversation_only !! "conv-1" /\
  is_Some (pendingByConversation st1 !! "conv-1").
Proof.
  intros st1.
  destruct (handlers_touch_own_keys deps0 2000 before_generation None None
              st_conversation_only) as (_ & Hconv & _ & Hkeep & _).
  assert (Hne : p_conversation_id before_generation <> Some "conv-1") by discriminate.
  split; [exact Hne|]. split; [exact (Hconv "conv-1" Hne)|].
  apply Hkeep. by eexists.
Defined.

Lemma after_event_consumes_witness :
  let r := handleAfterResponse deps0 None after_conversation st_conversation_only in
  reachable st_conversation_only /\
  workspace deps0 = Some "/home/dev/project" /\
  UpdateMemoryAfterResponse "how do I sort a list?" "use List.sort" "/home/dev/project"
    ∈ r.1.2 /\
  r.1.1 = init.
Proof.
  intros r.
  assert (Hreach : reachable st_conversation_only) by (apply reach_before, reach_init).
  assert (Hw : workspace deps0 = Some "/home/dev/project") by reflexivity.
  destruct (after_event_consumes deps0 None after_conversation st_conversation_only
              _ Hreach Hw) as (_ & Hst & Hsync & _).
  split; [exact Hreach|]. split; [exact Hw|]. split.
  - apply Hsync. split; [eexists; split; reflexivity|]. repeat split. discriminate.
  - etrans; [exact Hst | reflexivity].
Defined.

(** *** Runs: what is synchronized was recorded *)

(** X3.  In every run of the processor from its initial state, a query
    handed to the synchronization is the trimmed prompt of a before-event
    of the run that was recorded: no after-event synchronizes a query that
    no prompt supplied. *)
Theorem synchronized_queries_were_recorded (events : list HookEvent) (q : string) :
  q ∈ synchronizedQueries (run events init).2 -> q ∈ recordedQueries events.
Proof.
  intros Hq.
  destruct (run_from_keyed events init CorrelatorFacts.keyed_init) as [_ Hsync].
  destruct (Hsync q Hq) as [Hrec|(i & Hi & _)]; [exact Hrec|].
  rewrite pending_init in Hi. by apply elem_of_empty in Hi.
Qed.

Lemma synchronized_queries_were_recorded_witness :
  "how do I sort a list?" ∈ synchronizedQueries (run events_twice init).2 /\
  "how do I sort a list?" ∈ recordedQueries events_twice.
Proof.
  assert (H : "how do I sort a list?" ∈ synchronizedQueries (run events_twice init).2)
    by (vm_compute; apply list_elem_of_here).
  split; [exact H|]. exact (synchronized_queries_were_recorded events_twice _ H).
Defined.

(** X4.  In every run of the processor from its initial state, the number
    of synchronizations started, plus the number of interactions still
    pending at the end, is at most the number of prompts recorded: a
    recorded prompt is synchronized at most once, whatever after-events
    follow. *)
Theorem synchronizations_bounded_by_prompts (events : list HookEvent) :
  (length (synchronizedQueries (run events init).2) + size (pending (run events init).1)
   <= length (recordedQueries events))%nat.
Proof.
  destruct (run_from_keyed events init CorrelatorFacts.keyed_init) as [Hcount _].
  rewrite pending_init, size_empty in Hcount. lia.
Qed.

(** The response sent twice is synchronized once. *)
Example response_sent_twice :
  synchronizedQueries (run events_twice init).2 = ["how do I sort a list?"] /\
  recordedQueries events_twice = ["how do I sort a list?"].
Proof. split; reflexivity. Qed.

(** *** Two prompts of one conversation *)

(** X5.  When two prompts of one conversation are recorded, with
    different generation ids, before the first response arrives, resolving
    the first by its generation id also deletes the conversation entry,
    which by then belongs to the second prompt: afterwards the second
    prompt no longer resolves by the conversation id alone, and still
    resolves by its own generation id. *)
Theorem first_response_drops_conversation_entry
  deps1 now1 p1 deps2 now2 p2 (st : State) w1 w2 c g1 g2 :
  workspace deps1 = Some w1 -> workspace deps2 = Some w2 ->
  Js.trim (Js.orElse (prompt p1) "") <> "" ->
  Js.trim (Js.orElse (prompt p2) "") <> "" ->
  p_conversation_id p1 = Some c -> p_conversation_id p2 = Some c -> c <> "" ->
  p_generation_id p1 = Some g1 -> p_generation_id p2 = Some g2 ->
  g1 <> "" -> g2 <> "" -> g1 <> g2 ->
  let st1 := (handleBeforePrompt deps1 now1 p1 st).1.1 in
  let st2 := (handleBeforePrompt deps2 now2 p2 st1).1.1 in
  let first := lookupInteraction (Some c) (Some g1) st2 in
  (query <$> first.1) = Some (Js.trim (Js.orElse (prompt p1) "")) /\
  pendingByConversation first.2 !! c = None /\
  lookupInteraction (Some c) None first.2 = (None, first.2) /\
  (forall conversation,
     query <$> (lookupInteraction conversation (Some g2) first.2).1 =
       Some (Js.trim (Js.orElse (prompt p2) ""))).
Proof.
  intros Hw1 Hw2 Hq1 Hq2 Hc1 Hc2 Hc Hg1 Hg2 Hne1 Hne2 Hne st1 st2 first.
  destruct (CorrelatorFacts.handleBeforePrompt_recorded deps1 now1 p1 st w1 g1
              Hw1 Hq1 Hg1 Hne1) as [Hrun1 Hin1].
  destruct (CorrelatorFacts.handleBeforePrompt_recorded deps2 now2 p2 st1 w2 g2
              Hw2 Hq2 Hg2 Hne2) as [Hrun2 Hin2].
  cbv zeta in Hrun1, Hin1, Hrun2, Hin2.
  set (i1 := {| query := Js.trim (Js.orElse (prompt p1) "");
                conversationId := p_conversation_id p1; generationId := Some g1;
                model := p_model p1; createdAt := now1 |}) in *.
  set (i2 := {| query := Js.trim (Js.orElse (prompt p2) "");
                conversationId := p_conversation_id p2; generationId := Some g2;
                model := p_model p2; createdAt := now2 |}) in *.
  assert (Hst1 : st1 = store i1 st) by (unfold st1; by rewrite Hrun1).
  assert (Hst2 : st2 = store i2 st1) by (unfold st2; by rewrite Hrun2).
  assert (Tc : Js.truthy c = true) by (by apply JsFacts.truthy_spec).
  assert (T1 : Js.truthy g1 = true) by (by apply JsFacts.truthy_spec).
  assert (T2 : Js.truthy g2 = true) by (by apply JsFacts.truthy_spec).
  assert (Hgen1 : pendingByGeneration st2 !! g1 = Some i1).
  { rewrite Hst2. unfold store at 1. cbn [pendingByGeneration generationId i2].
    rewrite T2, lookup_insert_ne by done. by rewrite Hst1. }
  assert (Hgen2 : pendingByGeneration st2 !! g2 = Some i2) by (by rewrite Hst2).
  assert (Hfirst : first = (Some i1, remove i1 st2))
    by (by apply CorrelatorFacts.lookupInteraction_generation_hit).
  assert (Hconv : pendingByConversation first.2 !! c = None).
  { rewrite Hfirst. cbn [snd]. by apply CorrelatorFacts.remove_conversation_own. }
  split; [by rewrite Hfirst|]. split; [exact Hconv|]. split.
  - unfold lookupInteraction. apply CorrelatorFacts.lookupByConversation_miss.
    by intros c' [= <-] _.
  - intros conversation.
    rewrite (CorrelatorFacts.lookupInteraction_generation_hit conversation g2 i2);
      [done | done |].
    rewrite Hfirst. cbn [snd]. unfold remove.
    cbn [pendingByGeneration generationId i1]. rewrite T1.
    by rewrite lookup_delete_ne.
Qed.

Lemma first_response_drops_conversation_entry_witness :
  let st2 := (handleBeforePrompt deps0 2 before_second
                (handleBeforePrompt deps0 1 before_first init).1.1).1.1 in
  let first := lookupInteraction (Some "conv-1") (Some "gen-1") st2 in
  query <$> first.1 = Some "first question" /\
  lookupInteraction (Some "conv-1") None first.2 = (None, first.2) /\
  query <$> (lookupInteraction (Some "conv-1") (Some "gen-2") first.2).1 =
    Some "second question".
Proof.
  intros st2 first.
  destruct (first_response_drops_conversation_entry deps0 1 before_first deps0 2
              before_second init "/home/dev/project" "/home/dev/project"
              "conv-1" "gen-1" "gen-2")
    as (H1 & _ & H3 & H4); try reflexivity; try discriminate.
  split; [exact H1|]. split; [exact H3 | exact (H4 (Some "conv-1"))].
Defined.

End HookRunsFacts.

(** ** More about the intake surface *)

Module IntakeFacts.
Import Correlator Server Examples MoreExamples.

Lemma readRawBody_blank req :
  readRawBody req = None <-> Js.trim (String.concat "" (chunks req)) = "".
Proof.
  unfold readRawBody. destruct (chunks req) as [|c cs]; [done|].
  destruct (Js.truthy (Js.trim _)) eqn:T; simpl.
  - apply JsFacts.truthy_spec in T. split; [done | by intros ?].
  - apply JsFacts.truthy_false in T. by split.
Qed.



(** X7.  An authenticated thought event with a parsed body never changes
    the server and asks for no memory update, with or without a workspace
    folder.  Without a logger it is answered 200 and nothing happens, also
    for the body [null].  With a logger it is answered 200, after one log
    entry of the text, exactly when the body is not [null], the duration
    can be printed and the text is a string or falsy; otherwise the
    handler throws before anything is logged and the answer is 500. *)
Theorem thought_events_change_nothing
  JSON_parse deps now syncError (srv : Server) (req : Request) rawBody parsed :
  method req = "POST" -> validateToken srv req = true ->
  readRawBody req = Some rawBody -> JSON_parse rawBody = Some parsed ->
  pathname req = "/hook/thought" ->
  let run := requestListener JSON_parse deps now syncError srv req in
  let duration := default (Processor.JNumber 0) (Processor.get parsed "duration_ms") in
  run.1.1 = srv /\
  (hasLogger deps = false -> run = (srv, [], {| status := 200; body := Ok |})) /\
  (forall text,
     hasLogger deps = true -> parsed <> Processor.JNull ->
     Processor.printable duration = true ->
     Processor.textOf (Processor.get parsed "text") = Some text ->
     run = (srv, [LogCursorContext text], {| status := 200; body := Ok |})) /\
  (hasLogger deps = true ->
   parsed = Processor.JNull \/ Processor.printable duration = false \/
   Processor.textOf (Processor.get parsed "text") = None ->
   run = (srv, [], {| status := 500; body := Error "internal_error" |})).
Proof.
  intros Hpost Htoken Hbody Hparse Hpath run duration.
  pose proof (ServerFacts.requestListener_route
                JSON_parse deps now syncError srv req rawBody parsed
                Hpost Htoken Hbody Hparse
                (Processor.handleAfterThought deps parsed (processor srv))
                (or_intror (or_intror (conj Hpath eq_refl)))) as Hrun.
  fold run in Hrun. rewrite Hrun. clear Hrun.
  unfold Processor.handleAfterThought. fold duration.
  assert (Hnull : Processor.isNull parsed = true <-> parsed = Processor.JNull)
    by (destruct parsed; cbn; by split).
  destruct srv as [tok st]. cbn [token processor].
  destruct (hasLogger deps); cbn [negb].
  2: { repeat split; try done. }
  destruct (Processor.isNull parsed).
  { assert (N : parsed = Processor.JNull) by (by apply Hnull).
    repeat split; try done; intros text _ Hne; by destruct Hne. }
  assert (Hne : parsed <> Processor.JNull).
  { intros E. apply Hnull in E. discriminate. }
  destruct (Processor.printable duration); cbn [negb].
  2: { repeat split; try done. }
  destruct (Processor.textOf (Processor.get parsed "text")) as [text|].
  - repeat split; try done.
    + by intros text' _ _ _ [= <-].
    + by intros _ [E|[E|E]].
  - repeat split; try done.
Qed.

Lemma thought_events_change_nothing_witness :
  requestListener parse_after deps_logger 0 None server0 post_thought =
    (server0, [LogCursorContext "done"], {| status := 200; body := Ok |}).
Proof.
  destruct (thought_events_change_nothing
              parse_after deps_logger 0 None server0 post_thought raw_after parsed_after
              eq_refl eq_refl eq_refl eq_refl eq_refl)
    as (_ & _ & Hlog & _).
  apply (Hlog "done"); (reflexivity || discriminate).
Defined.

End IntakeFacts.

(** ** The dispatcher and the server agree *)

Module HookRunnerFacts.
Import Correlator Server HookRunner Examples MoreExamples.

Lemma incoming_dispatch event payload config :
  payload <> "" ->
  incoming (dispatchEvent event payload config) =
    {| method := "POST"; pathname := "/hook/" +:+ event;
       headers := <["content-type" := "application/json"]>
                    (<["x-odam-hook-token" := HookRunner.token config]> ∅);
       chunks := [payload] |}.
Proof.
  intros Hne. destruct payload as [|c payload]; [done|]. reflexivity.
Qed.

Lemma hookTypes_cases type :
  existsb (String.eqb type) hookTypes = true ->
  type = "before" \/ type = "after" \/ type = "thought".
Proof.
  unfold hookTypes. cbn [existsb]. rewrite orb_false_r.
  rewrite !orb_true_iff, !String.eqb_eq. tauto.
Qed.

(** X8.  The dispatcher and the server agree.  When the dispatcher is
    started with a hook type (up to case and surrounding white space), a
    non-blank payload and the discovery file the server wrote, it sends
    exactly one request; that request passes the token check of the server
    and reaches a route, so the answer is 200, 400 or 500, never 401, 404
    or 405; it is 400 exactly when the payload does not parse; and the
    dispatcher exits with 0 exactly when the answer is 200. *)
Theorem dispatcher_request_is_accepted
  JSON_parse deps now syncError (srv : Server) port updatedAt file argv2 stdin :
  Server.token srv <> "" ->
  writeConfig srv (Some port) updatedAt = Some file ->
  existsb (String.eqb (Js.toLowerCase (Js.trim (Js.orElse argv2 "")))) hookTypes = true ->
  Js.trim stdin <> "" ->
  let type := Js.toLowerCase (Js.trim (Js.orElse argv2 "")) in
  let request := dispatchEvent type stdin {| port := port; token := Server.token srv |} in
  let answer r := (requestListener JSON_parse deps now syncError srv (incoming r)).2 in
  let out := main argv2 stdin (Some file) (fun r => Some (status (answer r))) in
  out.2 = [request] /\
  validateToken srv (incoming request) = true /\
  status (answer request) ∈ [200; 400; 500] /\
  (status (answer request) = 400 <-> JSON_parse stdin = None) /\
  (out.1 = 0 <-> status (answer request) = 200).
Proof.
  intros Htoken [= <-] Htype Hstdin type request answer out.
  assert (Hne : stdin <> "") by (intros ->; by apply Hstdin).
  assert (Hin : incoming request =
    {| method := "POST"; pathname := "/hook/" +:+ type;
       headers := <["content-type" := "application/json"]>
                    (<["x-odam-hook-token" := Server.token srv]> ∅);
       chunks := [stdin] |}) by (by apply incoming_dispatch).
  assert (Hvalid : validateToken srv (incoming request) = true).
  { apply ServerFacts.validateToken_spec. split; [|done]. by rewrite Hin. }
  assert (Hraw : readRawBody (incoming request) = Some stdin).
  { rewrite Hin. unfold readRawBody. cbn [chunks String.concat].
    apply JsFacts.truthy_spec in Hstdin. by rewrite Hstdin. }
  assert (Hout : out = match status (answer request) with
                       | 200 => (0, [request])
                       | _ => (1, [request])
                       end).
  { unfold out, main. cbv zeta. rewrite Htype. cbn [negb].
    apply JsFacts.truthy_spec in Hne. rewrite Hne. cbn [negb orb].
    destruct (Js.trim stdin) as [|c t] eqn:E; [done|]. cbn [String.length Nat.eqb].
    cbn [loadConfig cfg_port cfg_token]. reflexivity. }
  assert (Hanswer :
    (JSON_parse stdin = None /\ status (answer request) = 400) \/
    (JSON_parse stdin <> None /\
     (status (answer request) = 200 \/ status (answer request) = 500))).
  { unfold answer, requestListener, handleRequest. rewrite Hvalid, Hraw.
    rewrite Hin. cbn [method pathname]. simpl String.eqb. cbn [negb].
    destruct (JSON_parse stdin) as [parsed|]; [right|by left].
    split; [done|].
    destruct (hookTypes_cases type Htype) as [E | [E | E]]; rewrite E;
      simpl String.eqb; cbv iota.
    - destruct (Processor.handleBeforePrompt _ _ _ _) as [[st effects] [|e]]; simpl; auto.
    - destruct (Processor.handleAfterResponse _ _ _ _) as [[st effects] [|e]]; simpl; auto.
    - destruct (Processor.handleAfterThought _ _ _) as [[st effects] [|e]]; simpl; auto. }
  split.
  { rewrite Hout. by destruct Hanswer as [[_ ->]|[_ [-> | ->]]]. }
  split; [exact Hvalid|]. split; [|split].
  - destruct Hanswer as [[_ ->]|[_ [-> | ->]]]; in_list.
  - destruct Hanswer as [[Hp ->]|[Hp [-> | ->]]]; split; done.
  - rewrite Hout. destruct Hanswer as [[_ ->]|[_ [-> | ->]]]; split; done.
Qed.

Lemma dispatcher_request_is_accepted_witness :
  let answer r := (requestListener parse_after deps0 0 None server0 (incoming r)).2 in
  let out := main (Some " After ") raw_after
               (writeConfig server0 (Some 41234) "2026-01-01T00:00:00.000Z")
               (fun r => Some (status (answer r))) in
  Server.token server0 <> "" /\ Js.trim raw_after <> "" /\
  out.1 = 0 /\ List.map req_path out.2 = ["/hook/after"].
Proof.
  intros answer out.
  assert (H1 : Server.token server0 <> "") by discriminate.
  assert (H2 : Js.trim raw_after <> "") by discriminate.
  destruct (dispatcher_request_is_accepted parse_after deps0 0 None server0 41234
              "2026-01-01T00:00:00.000Z" _ (Some " After ") raw_after
              H1 eq_refl eq_refl H2) as (Hsent & _ & _ & _ & Hexit).
  split; [exact H1|]. split; [exact H2|]. split.
  - apply Hexit. reflexivity.
  - change out.2 with (main (Some " After ") raw_after
               (writeConfig server0 (Some 41234) "2026-01-01T00:00:00.000Z")
               (fun r => Some (status (answer r)))).2.
    etrans; [exact (f_equal (List.map req_path) Hsent) | reflexivity].
Defined.

End HookRunnerFacts.

(** ** Memory statistics *)

Module MemoryStatsFacts.
Import MemoryStats MoreExamples.

(** The model follows the recursion of the source: when the answer has no
    statistics and [retryCount < 2], the call waits a second and continues
    as the call with [retryCount + 1]. *)
Lemma getMemoryStats_retry userId sessionId retryCount remote clock :
  (retryCount < 2)%nat ->
  remote retryCount = AttemptAnswered None ->
  getMemoryStats userId sessionId retryCount remote clock =
    (let '(result, steps) := getMemoryStats userId sessionId (S retryCount) remote clock in
     (result, Post (statsPayload userId sessionId) :: Wait 1000 :: steps)).
Proof.
  intros Hlt Hnone. unfold getMemoryStats.
  destruct retryCount as [|[|n]]; [| |lia]; cbn [Nat.sub retryLoop]; by rewrite Hnone.
Qed.

Lemma getMemoryStats_give_up userId sessionId retryCount remote clock :
  (2 <= retryCount)%nat ->
  remote retryCount = AttemptAnswered None ->
  getMemoryStats userId sessionId retryCount remote clock =
    (None, [Post (statsPayload userId sessionId)]).
Proof.
  intros Hge Hnone. unfold getMemoryStats.
  replace (2 - retryCount)%nat with 0%nat by lia. cbn [retryLoop]. by rewrite Hnone.
Qed.


Example stats_after_one_retry :
  getMemoryStats "user-1" (Some "9f86d081884c7d65") 0 stats_later clock_by_attempt =
    (Some {| user_id := "user-1"; total_memories := 2; entities_count := 4;
             stats_graph_nodes := 7; memory_health_score := HealthOf 2;
             last_updated := "2025-01-01T00:00:01.000Z" |},
     [ Post (statsPayload "user-1" (Some "9f86d081884c7d65")); Wait 1000;
       Post (statsPayload "user-1" (Some "9f86d081884c7d65")) ]).
Proof. reflexivity. Qed.

End MemoryStatsFacts.

(** ** The memory file *)

Module MemoryFileFacts.
Import OdamClient FileUpdater MemoryFile Examples MoreExamples.

Lemma hasQuery_spec q : hasQuery q = true <-> Js.trim q <> "".
Proof.
  unfold hasQuery. destruct q as [|c q]; [by split|]. cbn [Js.truthy andb].
  destruct (Js.trim (String c q)); cbn; split; (done || lia || congruence).
Qed.

Lemma hasQuery_false q : hasQuery q = false <-> Js.trim q = "".
Proof.
  pose proof (hasQuery_spec q) as H. destruct (hasQuery q).
  - split; [done|]. intros E. by apply H in E.
  - split; [|done]. intros _. destruct (Js.trim q); [done|].
    by assert (false = true) by (by apply H).
Qed.

Lemma hasQuery_fixed q : q <> "" -> Js.trim q = q -> hasQuery q = true.
Proof. intros Hne Ht. apply hasQuery_spec. by rewrite Ht. Qed.

Lemma clientQuery_cases q :
  clientQuery q = if hasQuery q then Js.trim q else "Get user memory context".
Proof. reflexivity. Qed.

Lemma clientQuery_trimmed q :
  clientQuery q <> "" /\ Js.trim (clientQuery q) = clientQuery q.
Proof.
  rewrite clientQuery_cases. destruct (hasQuery q) eqn:H; [|by split].
  split; [by apply hasQuery_spec | apply TrimFacts.trim_idempotent].
Qed.

Lemma clientQuery_fixed q : q <> "" -> Js.trim q = q -> clientQuery q = q.
Proof.
  intros Hne Ht. by rewrite clientQuery_cases, (hasQuery_fixed q Hne Ht).
Qed.

Lemma clientQuery_idempotent q : clientQuery (clientQuery q) = clientQuery q.
Proof. by destruct (clientQuery_trimmed q) as [Hne Ht]; apply clientQuery_fixed. Qed.

Section Updates.

Variable getSessionId : string -> string.
Variable formatCodeMemorySectionsAsContext : CodeMemoryResponse -> string.
Variable formatArtifactForContext : Entity -> bool -> option string.
Variable toPropertyKey : JsValue -> option string.
Variable formatContextForRulesFile : string -> Z -> option CodeMemoryResponse -> string.

Local Abbreviation update :=
  (updateMemoryFile getSessionId formatCodeMemorySectionsAsContext
                    formatArtifactForContext toPropertyKey formatContextForRulesFile).

Local Abbreviation updateAfter :=
  (updateMemoryAfterResponse getSessionId formatCodeMemorySectionsAsContext
                             formatArtifactForContext toPropertyKey
                             formatContextForRulesFile).

(** The code memory of the fetched result after the enhancer, [None] when
    the enhancer throws. *)
Local Abbreviation enhanced remote :=
  (enhancement formatArtifactForContext toPropertyKey
               (fetchMemoryContext formatCodeMemorySectionsAsContext remote)).

(** The content of the fallback file. *)
Local Abbreviation basicContext :=
  {| formatted := formatContextForRulesFile "" 0 None; onboarding := false |}.

(** The shape of a run that is not skipped. *)
Lemma updateMemoryFile_runs u userQuery ws remote writeThrows fallbackThrows :
  hasQuery userQuery = true \/ lastQuery u <> "" ->
  let fetch :=
    PostContext (contextPayload (if hasQuery userQuery then Js.trim userQuery
                                 else lastQuery u)
                                (userId u) (Some (getSessionId ws))) in
  let fallback := WriteMemoryFile ws basicContext (negb fallbackThrows) in
  exists content,
    update u userQuery (Some ws) remote writeThrows fallbackThrows =
      match enhanced remote with
      | None => (u, [fetch; fallback])
      | Some _ =>
          if writeThrows
          then (u, [fetch; WriteMemoryFile ws content false; fallback])
          else ({| userId := userId u; lastQuery := userQuery;
                   lastContext := Some content |},
                [fetch; WriteMemoryFile ws content true])
      end.
Proof.
  intros Hq. unfold updateMemoryFile, effectiveQuery.
  assert (negb (hasQuery userQuery) && negb (Js.truthy (lastQuery u)) = false) as ->.
  { destruct Hq as [->|Hl]; [done|]. apply JsFacts.truthy_spec in Hl. rewrite Hl.
    by rewrite andb_false_r. }
  assert ((if hasQuery userQuery then Js.trim userQuery
           else Js.orElse (Some (lastQuery u)) "Fetch ODAM memory context")
          = (if hasQuery userQuery then Js.trim userQuery else lastQuery u)) as ->.
  { destruct (hasQuery userQuery); [done|]. destruct Hq as [?|Hl]; [done|].
    unfold Js.orElse. apply JsFacts.truthy_spec in Hl. by rewrite Hl. }
  cbv zeta.
  destruct (enhanced remote) as [cm|].
  - eexists. reflexivity.
  - by exists basicContext.
Qed.

Lemma updateMemoryFile_skips u userQuery workspaceFolder remote writeThrows fallbackThrows :
  workspaceFolder = None \/ (Js.trim userQuery = "" /\ lastQuery u = "") ->
  update u userQuery workspaceFolder remote writeThrows fallbackThrows = (u, []).
Proof.
  unfold updateMemoryFile. intros [->|[Ht Hl]]; [done|].
  destruct workspaceFolder as [ws|]; [|done].
  apply hasQuery_false in Ht. by rewrite Ht, Hl.
Qed.

Lemma updateMemoryAfterResponse_runs u userQuery assistantResponse artifacts ws metadata
    remote writeThrows fallbackThrows :
  updateAfter u userQuery assistantResponse artifacts (Some ws) metadata remote
              writeThrows fallbackThrows =
    ((update u userQuery (Some ws) remote writeThrows fallbackThrows).1,
     GetGitMetadata ws
       :: RecordCodeArtifact (recordPayload (userId u) (getSessionId ws) userQuery
                                            assistantResponse artifacts metadata)
       :: Delay 2000
       :: (update u userQuery (Some ws) remote writeThrows fallbackThrows).2).
Proof.
  unfold updateMemoryAfterResponse.
  by destruct (update u userQuery (Some ws) remote writeThrows fallbackThrows).
Qed.

(** A run is skipped or not. *)
Lemma updateMemoryFile_runs_or_skips u userQuery (workspaceFolder : option string) :
  (workspaceFolder = None \/ (Js.trim userQuery = "" /\ lastQuery u = ""))
  \/ exists ws, workspaceFolder = Some ws
                /\ (hasQuery userQuery = true \/ lastQuery u <> "").
Proof.
  destruct workspaceFolder as [ws|]; [|by left; left].
  destruct (hasQuery userQuery) eqn:Hh; [right; exists ws; by split; [|left]|].
  destruct (decide (lastQuery u = "")) as [Hl|Hl].
  - left. right. split; [by apply hasQuery_false|done].
  - right. exists ws. by split; [|right].
Qed.

(** The one context request of a run. *)
Lemma context_request_payload u userQuery workspaceFolder remote writeThrows
    fallbackThrows payload :
  PostContext payload
    ∈ (update u userQuery workspaceFolder remote writeThrows fallbackThrows).2 ->
  exists ws,
    workspaceFolder = Some ws /\
    payload = contextPayload (if hasQuery userQuery then Js.trim userQuery
                              else lastQuery u)
                             (userId u) (Some (getSessionId ws)).
Proof.
  intros Hin.
  destruct (updateMemoryFile_runs_or_skips u userQuery workspaceFolder)
    as [Hskip|(ws & -> & Hq)].
  { rewrite updateMemoryFile_skips in Hin by done. by apply elem_of_nil in Hin. }
  exists ws. split; [done|].
  destruct (updateMemoryFile_runs u userQuery ws remote writeThrows fallbackThrows Hq)
    as (content & Hrun).
  rewrite Hrun in Hin.
  destruct (enhanced remote), writeThrows; cbn [snd] in Hin;
    repeat (apply elem_of_cons in Hin as [Hin|Hin]; [congruence|]);
    by apply elem_of_nil in Hin.
Qed.

(** X10.  Whatever the user query and the remembered query are, the
    context request that [updateMemoryFile] sends carries a query that is
    not empty and has no white space around it: the trimmed user query when
    there is one, else the trimmed remembered query, else the client's
    default.  The updater's own default query is never sent.  The request
    carries the updater's user id and the session id of the workspace. *)
Theorem context_request_is_never_blank (u : Updater) (userQuery : string)
    (workspaceFolder : option string) (remote : Remote)
    (writeThrows fallbackThrows : bool) (payload : ContextPayload) :
  PostContext payload
    ∈ (update u userQuery workspaceFolder remote writeThrows fallbackThrows).2 ->
  cp_query payload <> "" /\
  Js.trim (cp_query payload) = cp_query payload /\
  cp_query payload = clientQuery (if hasQuery userQuery then userQuery else lastQuery u) /\
  cp_user_id payload = userId u /\
  exists ws, workspaceFolder = Some ws /\ cp_session_id payload = Some (getSessionId ws).
Proof.
  intros Hin.
  destruct (context_request_payload _ _ _ _ _ _ _ Hin) as (ws & -> & ->).
  cbn [contextPayload cp_query cp_user_id cp_session_id].
  rewrite clientQuery_idempotent.
  assert (clientQuery (if hasQuery userQuery then Js.trim userQuery else lastQuery u)
          = clientQuery (if hasQuery userQuery then userQuery else lastQuery u)) as ->.
  { destruct (hasQuery userQuery) eqn:Hq; [|done].
    rewrite (clientQuery_cases userQuery), Hq. apply clientQuery_fixed.
    - by apply hasQuery_spec.
    - apply TrimFacts.trim_idempotent. }
  destruct (clientQuery_trimmed (if hasQuery userQuery then userQuery else lastQuery u)).
  repeat split; try done. by exists ws.
Qed.



End Updates.

Lemma context_request_is_never_blank_witness :
  let payload :=
    contextPayload "how do I sort a list?" "user-1" (Some "9f86d081884c7d65") in
  PostContext payload
    ∈ (updateMemoryFile session_of_path format_titles format_by_name key_of_value
                        format_rules updater_after_query "  " (Some "test")
                        (RemoteData memory_with_context) false false).2 /\
  cp_query payload = "how do I sort a list?".
Proof.
  intros payload.
  assert (Hin : PostContext payload
                  ∈ (updateMemoryFile session_of_path format_titles format_by_name
                                      key_of_value format_rules updater_after_query
                                      "  " (Some "test")
                                      (RemoteData memory_with_context) false false).2)
    by apply list_elem_of_here.
  split; [exact Hin|].
  destruct (context_request_is_never_blank _ _ _ _ _ _ _ _ _ _ _ _ Hin)
    as (_ & _ & Hq & _).
  exact Hq.
Defined.


(** An artifact in the language [constructor] makes the enhancer throw:
    the fallback content is the only write and nothing is remembered. *)
Example enhancer_failure_writes_fallback :
  updateMemoryFile session_of_path format_titles format_by_name key_of_value
                   format_rules updater_after_query "sort" (Some "test")
                   (RemoteData memory_constructor) false false
    = (updater_after_query,
       [ PostContext (contextPayload "sort" "user-1" (Some "9f86d081884c7d65"));
         WriteMemoryFile "test" {| formatted := format_rules "" 0 None;
                                   onboarding := false |} true ]).
Proof. vm_compute. reflexivity. Qed.

End MemoryFileFacts.

(** ** From the hook events to the memory file *)

Module SynchronizationFacts.
Import OdamClient HookRuns Examples MoreExamples.

(** The requests a handler makes carry recorded queries: not empty and
    without white space around them. *)
Lemma handle_effects st event e :
  trimmedQueries st ->
  e ∈ (handle event st).2 ->
  match e with
  | Correlator.UpdateMemoryFile q _ =>
      q <> "" /\ Js.trim q = q /\ recordedQuery event = Some q
  | Correlator.UpdateMemoryAfterResponse q a _ =>
      q <> "" /\ Js.trim q = q /\ a <> "" /\ exists i, i ∈ pending st /\ Correlator.query i = q
  | _ => True
  end.
Proof.
  intros Htrim Hin. destruct event as [deps now payload|deps syncError payload
                                      |deps payload|]; cbn [handle] in Hin.
  - destruct (HookRunsFacts.handleBeforePrompt_cases deps now payload st)
      as [(w & i & _ & Hrec & Hq & Hne & _ & _ & Hrun)|[_ Hrun]].
    + rewrite Hrun in Hin. cbn [fst snd] in Hin.
      apply list_elem_of_singleton in Hin as ->.
      split; [done|]. split; [|done]. rewrite Hq. apply TrimFacts.trim_idempotent.
    + rewrite Hrun in Hin. by apply elem_of_nil in Hin.
  - unfold Correlator.handleAfterResponse in Hin.
    destruct (Correlator.workspace deps) as [w|]; [|by apply elem_of_nil in Hin].
    destruct (HookRunsFacts.lookupInteraction_cases
                (Correlator.conversation_id payload) (Correlator.generation_id payload) st)
      as [(i & E & Hi)|E]; rewrite E in Hin; [|by apply elem_of_nil in Hin].
    destruct (Htrim i Hi) as [Hne Ht].
    destruct (Js.truthy (Correlator.query i)); cbn [negb orb] in Hin;
      [|by apply elem_of_nil in Hin].
    destruct (Js.truthy (Js.trim (Js.orElse (Correlator.text payload) ""))) eqn:Ta;
      cbn [negb] in Hin; [|by apply elem_of_nil in Hin].
    apply JsFacts.truthy_spec in Ta.
    destruct syncError as [err|];
      [|destruct (Correlator.hasStatusBar deps && Js.truthyO (Correlator.userId deps))];
      cbn [fst snd] in Hin;
      repeat (apply elem_of_cons in Hin as [->|Hin]; [by eauto 10|]);
      by apply elem_of_nil in Hin.
  - unfold Correlator.handleAfterThought in Hin.
    destruct (negb (Correlator.hasLogger deps)); cbn [fst snd] in Hin;
      [by apply elem_of_nil in Hin|].
    by apply list_elem_of_singleton in Hin as ->.
  - by apply elem_of_nil in Hin.
Qed.

Section Pipeline.

Variable getSessionId : string -> string.
Variable formatCodeMemorySectionsAsContext : CodeMemoryResponse -> string.
Variable formatArtifactForContext : Entity -> bool -> option string.
Variable toPropertyKey : JsValue -> option string.
Variable formatContextForRulesFile : string -> Z -> option CodeMemoryResponse -> string.

Local Abbreviation perform :=
  (MemoryFile.perform getSessionId formatCodeMemorySectionsAsContext
                      formatArtifactForContext toPropertyKey formatContextForRulesFile).

(** The code memory of the fetched result after the enhancer, [None] when
    the enhancer throws. *)
Local Abbreviation enhanced remote :=
  (MemoryFile.enhancement formatArtifactForContext toPropertyKey
                          (fetchMemoryContext formatCodeMemorySectionsAsContext remote)).

(** An update for a query that is not blank and has no white space around
    it fetches the context of that very query and writes the file. *)
Lemma update_for_recorded_query u q ws remote writeThrows fallbackThrows :
  q <> "" -> Js.trim q = q ->
  exists c writes,
    (MemoryFile.updateMemoryFile getSessionId formatCodeMemorySectionsAsContext
       formatArtifactForContext toPropertyKey formatContextForRulesFile
       u q (Some ws) remote writeThrows fallbackThrows).2
      = MemoryFile.PostContext c :: writes /\
    MemoryFile.cp_query c = q /\
    MemoryFile.cp_user_id c = MemoryFile.userId u /\
    MemoryFile.cp_session_id c = Some (getSessionId ws) /\
    writes <> [] /\
    (writeThrows = false -> is_Some (enhanced remote) ->
     MemoryFile.lastQuery
       (MemoryFile.updateMemoryFile getSessionId formatCodeMemorySectionsAsContext
          formatArtifactForContext toPropertyKey formatContextForRulesFile
          u q (Some ws) remote writeThrows fallbackThrows).1 = q) /\
    (writeThrows = true \/ enhanced remote = None ->
     (MemoryFile.updateMemoryFile getSessionId formatCodeMemorySectionsAsContext
        formatArtifactForContext toPropertyKey formatContextForRulesFile
        u q (Some ws) remote writeThrows fallbackThrows).1 = u).
Proof.
  intros Hne Ht.
  pose proof (MemoryFileFacts.hasQuery_fixed q Hne Ht) as Hq.
  destruct (MemoryFileFacts.updateMemoryFile_runs
              getSessionId formatCodeMemorySectionsAsContext formatArtifactForContext
              toPropertyKey formatContextForRulesFile
              u q ws remote writeThrows fallbackThrows (or_introl Hq))
    as (content & ->).
  rewrite Hq, Ht.
  assert (MemoryFile.cp_query
            (MemoryFile.contextPayload q (MemoryFile.userId u) (Some (getSessionId ws)))
          = q) as Hc.
  { cbn [MemoryFile.contextPayload MemoryFile.cp_query].
    by rewrite MemoryFileFacts.clientQuery_idempotent,
               (MemoryFileFacts.clientQuery_fixed q Hne Ht). }
  destruct (enhanced remote) as [cm|]; [destruct writeThrows|]; cbn [fst snd];
    eexists _, _; (split; [reflexivity|]); (split; [exact Hc|]);
    repeat split; try done; first [by intros [?|?] | by intros _ [? ?]].
Qed.


End Pipeline.


End SynchronizationFacts.

(** ** The context cache: what a lookup leaves alone *)

Module CacheFacts.
Import OdamClient ContextProvider Examples.

Section Frame.

Variable getSessionId : string -> string.
Variable formatCodeMemorySectionsAsContext : CodeMemoryResponse -> string.

(** X14.  A lookup changes at most the cache entry under its own key, and
    only by storing the non-empty context it has just fetched, stamped with
    the time of the store.  Entries under other keys are untouched, no key
    is ever removed (an expired entry stays until it is overwritten), the
    cache grows by at most one entry per fetch, a hit leaves the provider
    as it was, and the user id never changes. *)
Theorem lookup_touches_own_entry (p : Provider) (q : string) (ws : option string)
    (now stored : Z) (remote : Remote) :
  let r := getMemoryContext getSessionId formatCodeMemorySectionsAsContext
                            p q ws now stored remote in
  let key := cacheKey getSessionId p q ws in
  userId (provider r) = userId p /\
  (forall k, k <> key -> cache (provider r) !! k = cache p !! k) /\
  (forall k, is_Some (cache p !! k) -> is_Some (cache (provider r) !! k)) /\
  (size (cache (provider r)) <= size (cache p) + length (fetches r))%nat /\
  (length (fetches r) <= 1)%nat /\
  (fetches r = [] -> provider r = p) /\
  (provider r <> p ->
   returned r <> "" /\
   cache (provider r) !! key = Some {| entry_context := returned r; timestamp := stored |}).
Proof.
  intros r key. subst r. unfold getMemoryContext. fold key.
  assert (Hstore :
    forall c, c <> "" ->
      let p' := {| userId := userId p;
                   cache := <[key := {| entry_context := c; timestamp := stored |}]>
                              (cache p) |} in
      (forall k, k <> key -> cache p' !! k = cache p !! k) /\
      (forall k, is_Some (cache p !! k) -> is_Some (cache p' !! k)) /\
      (size (cache p') <= size (cache p) + 1)%nat /\
      cache p' !! key = Some {| entry_context := c; timestamp := stored |}).
  { intros c Hc p'. subst p'. cbn [cache]. split; [|split; [|split]].
    - intros k Hk. by apply lookup_insert_ne.
    - intros k Hk. apply lookup_insert_is_Some'. by right.
    - rewrite map_size_insert. destruct (cache p !! key); cbn; lia.
    - apply lookup_insert_eq. }
  assert (Hmiss :
    let result := fetchMemoryContext formatCodeMemorySectionsAsContext remote in
    let r := if Js.truthy (context result)
             then {| returned := context result;
                     provider := {| userId := userId p;
                                    cache := <[key := {| entry_context := context result;
                                                         timestamp := stored |}]>
                                               (cache p) |};
                     fetches := [fetchOf getSessionId p q ws] |}
             else {| returned := context result; provider := p;
                     fetches := [fetchOf getSessionId p q ws] |} in
    userId (provider r) = userId p /\
    (forall k, k <> key -> cache (provider r) !! k = cache p !! k) /\
    (forall k, is_Some (cache p !! k) -> is_Some (cache (provider r) !! k)) /\
    (size (cache (provider r)) <= size (cache p) + length (fetches r))%nat /\
    (length (fetches r) <= 1)%nat /\
    (fetches r = [] -> provider r = p) /\
    (provider r <> p ->
     returned r <> "" /\
     cache (provider r) !! key =
       Some {| entry_context := returned r; timestamp := stored |})).
  { intros result r. subst r.
    destruct (Js.truthy (context result)) eqn:T; cbn [returned provider fetches length].
    - apply JsFacts.truthy_spec in T. destruct (Hstore _ T) as (H1 & H2 & H3 & H4).
      repeat split; try done.
    - repeat split; try done; lia. }
  destruct (cache p !! key) as [cached|]; [|exact Hmiss].
  destruct (now - timestamp cached <? cacheTimeout); [|exact Hmiss].
  cbn [returned provider fetches length]. repeat split; try done; lia.
Qed.

End Frame.

End CacheFacts.

(** ** Chunk ids are a prefix code of 24 bytes *)

Module ChunkIdFacts.
Import FileUpdater Indexer Examples.

Lemma utf8_app a b : utf8 (a +:+ b) = utf8 a ++ utf8 b.
Proof.
  induction a as [|c a IH]; [done|]. simpl. by rewrite IH, app_assoc.
Qed.

Lemma utf8Char_length c : (1 <= length (utf8Char c))%nat.
Proof. unfold utf8Char. destruct (_ <? _)%N; cbn; lia. Qed.

Lemma utf8_length s : (String.length s <= length (utf8 s))%nat.
Proof.
  induction s as [|c s IH]; [done|]. cbn [String.length utf8].
  rewrite length_app. pose proof (utf8Char_length c). lia.
Qed.

Lemma prefix_length n s : (String.length (Js.prefix n s) <= n)%nat.
Proof.
  revert s. induction n as [|n IH]; intros [|c s]; cbn; try lia.
  specialize (IH s). lia.
Qed.

(** The first [4 * k] digits of the base64 text are those of the first
    [3 * k] bytes. *)
Lemma base64_prefix k bytes :
  Js.prefix (4 * k) (base64 bytes) = Js.prefix (4 * k) (base64 (take (3 * k) bytes)).
Proof.
  revert bytes. induction k as [|k IH]; intros bytes; [done|].
  replace (4 * S k)%nat with (S (S (S (S (4 * k)))))%nat by lia.
  replace (3 * S k)%nat with (S (S (S (3 * k))))%nat by lia.
  destruct bytes as [|a [|b [|c rest]]].
  - done.
  - done.
  - done.
  - cbn [take]. cbn [base64 Js.prefix]. by rewrite IH.
Qed.

Lemma chunkIdOf_bytes identifier path :
  chunkIdOf identifier path =
    Js.prefix 32 (base64 (take 24 (utf8 (identifier +:+ ":" +:+ path)))).
Proof. unfold chunkIdOf. apply (base64_prefix 8). Qed.

(** X15.  A derived chunk id has at most 32 characters and is determined
    by the first 24 bytes of the UTF-8 text of [identifier:path]: two
    artifacts whose texts agree on these bytes are given the same chunk
    id, however they continue. *)
Theorem chunk_id_reads_24_bytes (identifier path identifier' path' : string) :
  take 24 (utf8 (identifier +:+ ":" +:+ path)) =
    take 24 (utf8 (identifier' +:+ ":" +:+ path')) ->
  chunkIdOf identifier path = chunkIdOf identifier' path' /\
  (String.length (chunkIdOf identifier path) <= 32)%nat.
Proof.
  intros Hbytes. split; [|apply prefix_length].
  by rewrite !chunkIdOf_bytes, Hbytes.
Qed.

Lemma chunk_id_reads_24_bytes_witness :
  chunkIdOf "updateMemoryFile" "src/memoryFileUpdater.ts" =
    chunkIdOf "updateMemoryFile" "src/memoryFileUpdater.test.ts".
Proof.
  exact (proj1 (chunk_id_reads_24_bytes
                  "updateMemoryFile" "src/memoryFileUpdater.ts"
                  "updateMemoryFile" "src/memoryFileUpdater.test.ts" eq_refl)).
Defined.

(** X16.  The sections of one document are told apart by their title
    only after the path: when the relative path of the document has 24
    characters or more, every section of it is recorded with the same
    chunk id, whatever its title.  The artifact of a section comes with
    its chunk id, and the updater's derivation leaves it as it is. *)
Theorem sections_of_long_paths_share_chunk_id (relativePath title title' : string)
    (summary : string) (tags : list string) :
  (24 <= String.length relativePath)%nat ->
  sectionChunkId relativePath title = sectionChunkId relativePath title' /\
  sectionChunkId relativePath title
    = chunkIdOf (identifier (sectionArtifact relativePath title summary tags))
                relativePath /\
  withChunkId (sectionArtifact relativePath title summary tags)
    = sectionArtifact relativePath title summary tags.
Proof.
  intros Hlen.
  assert (Hbytes : forall t,
    take 24 (utf8 (artifactIdentifier relativePath t +:+ ":" +:+ relativePath))
    = take 24 (utf8 relativePath)).
  { intros t. unfold artifactIdentifier. rewrite !utf8_app, <- !app_assoc.
    apply take_app_le. pose proof (utf8_length relativePath). lia. }
  split; [|split].
  - unfold sectionChunkId. rewrite (base64_prefix 8 (utf8 (_ title +:+ _))).
    rewrite (base64_prefix 8 (utf8 (_ title' +:+ _))).
    cbn [Nat.mul Nat.add]. by rewrite !Hbytes.
  - reflexivity.
  - unfold withChunkId. cbn [path sectionArtifact chunk_id identifier].
    assert (Js.truthyO (Some (sectionChunkId relativePath title)) = true) as ->; [|done].
    destruct relativePath as [|c s]; [cbn in Hlen; lia|].
    apply (FileUpdaterFacts.chunkIdOf_truthy
             (artifactIdentifier (String c s) title) (String c s)).
    reflexivity.
Qed.

Lemma sections_of_long_paths_share_chunk_id_witness :
  sectionChunkId "docs/architecture/overview.md" "Introduction" =
    sectionChunkId "docs/architecture/overview.md" "Deployment".
Proof.
  assert (H : (24 <= String.length "docs/architecture/overview.md")%nat)
    by (vm_compute; lia).
  exact (proj1 (sections_of_long_paths_share_chunk_id
                  "docs/architecture/overview.md" "Introduction" "Deployment"
                  "" [] H)).
Defined.

End ChunkIdFacts.

(** ** The technical profile is reused *)

Module TechProfileFacts.
Import OdamClient Enhancer Examples.

Section Reuse.

Variable formatArtifactForContext : Entity -> bool -> option string.
Variable toPropertyKey : JsValue -> option string.

Local Abbreviation buildEnhancedSections :=
  (buildEnhancedSections formatArtifactForContext toPropertyKey).
Local Abbreviation techProfileSection :=
  (techProfileSection formatArtifactForContext toPropertyKey).
Local Abbreviation languageItems := (languageItems formatArtifactForContext toPropertyKey).
Local Abbreviation formatAll := (formatAll formatArtifactForContext).

(** X17.  Whenever [buildEnhancedSections] returns, which it does
    exactly when the grouping of the successful artifacts and every
    rendering return, the list it returns starts with the technical
    profile.  When a section of the input has [technical profile] in its
    lower-cased title, the first such section is reused: the profile keeps
    its title and its items, in front of the generated ones, and is that
    section itself when there is no successful artifact.  Otherwise the
    profile is a new section titled [Technical Profile].  Either way no
    later section of the output has the profile's title, in any case of the
    letters: the reused section is not listed a second time. *)
Theorem technical_profile_is_reused (existing : list CodeMemorySection)
    (successful problematic effective : list Entity) :
  (is_Some (buildEnhancedSections existing successful problematic effective) <->
   (successful = [] \/ is_Some (languageItems successful)) /\
   is_Some (formatAll true effective) /\ is_Some (formatAll false problematic)) /\
  forall out,
    buildEnhancedSections existing successful problematic effective = Some out ->
    exists tech rest,
      out = tech :: rest /\
      techProfileSection existing successful = Some tech /\
      Js.includes "technical profile" (lowerTitle tech) = true /\
      (forall s,
         List.find (fun s => Js.includes "technical profile" (lowerTitle s)) existing
           = Some s ->
         s ∈ existing /\ title tech = title s /\
         (exists generated, items tech = items s ++ generated) /\
         (successful = [] -> tech = s)) /\
      (List.find (fun s => Js.includes "technical profile" (lowerTitle s)) existing = None ->
       title tech = "Technical Profile" /\
       (successful = [] -> items tech = [])) /\
      (forall s, s ∈ rest -> lowerTitle s <> lowerTitle tech).
Proof.
  split.
  { rewrite <- !(EnhancerFacts.generatedSection_is_Some formatArtifactForContext).
    split.
    - intros [out Hout]. apply EnhancerFacts.buildEnhancedSections_Some in Hout
        as (tech & solutions & problems & Ht & Hs & Hp & _).
      split; [|split; by eexists].
      unfold Enhancer.techProfileSection in Ht. destruct successful; [by left|right].
      destruct (languageItems (e :: successful)); [by eexists|done].
    - intros (Ht & [solutions Hs] & [problems Hp]).
      assert (exists tech, techProfileSection existing successful = Some tech)
        as [tech Htech].
      { unfold Enhancer.techProfileSection. destruct successful as [|a l]; [by eexists|].
        destruct Ht as [[=]|[generated ->]]. by eexists. }
      eexists. apply EnhancerFacts.buildEnhancedSections_Some.
      by exists tech, solutions, problems. }
  intros out Hout.
  apply EnhancerFacts.buildEnhancedSections_Some in Hout
    as (tech & solutions & problems & Ht & Hs & Hp & ->).
  rewrite EnhancerFacts.keepOthers_unfold.
  exists tech. eexists. split; [rewrite <- app_comm_cons; reflexivity|].
  split; [exact Ht|].
  pose proof (EnhancerFacts.techProfile_title formatArtifactForContext toPropertyKey
                existing successful tech Ht) as Htech.
  split; [exact Htech|]. split; [|split].
  - intros s Hfind. unfold Enhancer.techProfileSection, findTechProfile in Ht.
    rewrite Hfind in Ht.
    split; [by apply find_some in Hfind as [Hin _]; apply list_elem_of_In|].
    destruct successful as [|a l].
    + injection Ht as <-. split; [done|]. split; [|done]. exists []. by rewrite app_nil_r.
    + destruct (languageItems (a :: l)) as [generated|]; [|done].
      injection Ht as <-. cbn [title items]. split; [done|]. split; [by eexists|done].
  - intros Hfind. unfold Enhancer.techProfileSection, findTechProfile in Ht.
    rewrite Hfind in Ht.
    destruct successful as [|a l].
    + injection Ht as <-. by split.
    + destruct (languageItems (a :: l)) as [generated|]; [|done].
      injection Ht as <-. by split.
  - intros s Hin. rewrite !elem_of_app in Hin. destruct Hin as [[Hin|Hin]|Hin].
    + apply EnhancerFacts.generatedSection_cases in Hs
        as [[_ ->]|(_ & values & _ & ->)]; [by apply elem_of_nil in Hin|].
      apply list_elem_of_singleton in Hin as ->. intros E. rewrite <- E in Htech.
      discriminate.
    + apply EnhancerFacts.generatedSection_cases in Hp
        as [[_ ->]|(_ & values & _ & ->)]; [by apply elem_of_nil in Hin|].
      apply list_elem_of_singleton in Hin as ->. intros E. rewrite <- E in Htech.
      discriminate.
    + apply list_elem_of_In, filter_In in Hin as [_ Hkeep].
      apply negb_true_iff, not_true_iff_false in Hkeep.
      intros E. apply Hkeep. apply EnhancerFacts.includesTitle_spec.
      rewrite E. cbn [List.map]. apply list_elem_of_here.
Qed.

End Reuse.

Lemma technical_profile_is_reused_witness :
  exists tech rest,
    Enhancer.buildEnhancedSections format_by_name key_of_value
      [section_titled "Notes"; section_titled "technical profile"]
      [entity_A] [entity_B] [entity_A] = Some (tech :: rest) /\
    title tech = "technical profile" /\
    forall s, s ∈ rest -> lowerTitle s <> lowerTitle tech.
Proof.
  destruct (technical_profile_is_reused format_by_name key_of_value
              [section_titled "Notes"; section_titled "technical profile"]
              [entity_A] [entity_B] [entity_A]) as [_ H].
  destruct (H _ eq_refl) as (tech & rest & E & _ & _ & Hfound & _ & Hrest).
  exists tech, rest. split; [by rewrite <- E|].
  split; [|exact Hrest].
  by destruct (Hfound (section_titled "technical profile") eq_refl) as (_ & -> & _).
Defined.

Example technical_profile_reused_once :
  List.map title
    <$> Enhancer.buildEnhancedSections format_by_name key_of_value
          [section_titled "Notes"; section_titled "technical profile"]
          [entity_A] [entity_B] [entity_A]
  = Some ["technical profile"; "Proven Solutions"; "Known Issues"; "Notes"].
Proof. vm_compute. reflexivity. Qed.

(** An artifact in the language [toString] among the successful ones:
    nothing is returned. *)
Example technical_profile_not_returned :
  Enhancer.buildEnhancedSections format_by_name key_of_value
    [section_titled "technical profile"]
    [entity_in "A" "python"; entity_in "B" "toString"] [] []
  = None.
Proof. vm_compute. reflexivity. Qed.

End TechProfileFacts.

(** ** The status bar item *)

Module StatusBarFacts.
Import StatusBar.

Lemma consistent_call c s : consistent s -> consistent (call c s).
Proof.
  unfold consistent. intros [Hb Ht].
  destruct c as [[|]| | |]; cbn [call]; unfold updateStatus, updateTooltip,
    showActivity, hideActivity, updateStatus;
    destruct (enabled s) eqn:E; cbn [enabled text warningBackground];
    rewrite ?E; auto.
Qed.

Lemma consistent_calls cs s : consistent s -> consistent (calls cs s).
Proof.
  unfold calls. revert s. induction cs as [|c cs IH]; intros s Hs; [done|].
  cbn [fold_left]. by apply IH, consistent_call.
Qed.

(** X18.  Whatever calls were made on the status bar item since it was
    created, its text says [(off)] exactly when the extension is disabled,
    the warning background is shown exactly then, and the spinner is shown
    only while the extension is enabled: [showActivity] does nothing when
    it is disabled.  [hideActivity] brings back the idle text of the
    current state, also when no activity was shown, and only
    [updateTooltip] changes the tooltip. *)
Theorem status_follows_enabled_flag (cs : list Call) :
  let s := calls cs create in
  (text s = "$(brain) ODAM (off)" <-> enabled s = false) /\
  (warningBackground s = true <-> enabled s = false) /\
  (text s = "$(sync~spin) ODAM" -> enabled s = true) /\
  (enabled s = false -> showActivity s = s) /\
  hideActivity (showActivity s) = hideActivity s /\
  text (hideActivity s)
    = (if enabled s then "$(brain) ODAM" else "$(brain) ODAM (off)") /\
  (forall c, (forall stats, c <> UpdateTooltip stats) -> tooltip (call c s) = tooltip s).
Proof.
  intros s.
  assert (Hs : consistent s) by (apply consistent_calls; by split).
  clearbody s. destruct Hs as [Hb Ht]. rewrite Hb.
  destruct (enabled s) eqn:E.
  - split; [split; [intros H|done]|].
    { destruct Ht as [Ht|Ht]; rewrite Ht in H; discriminate. }
    split; [done|]. split; [done|]. split; [done|]. split.
    + unfold hideActivity, showActivity. rewrite E. reflexivity.
    + split; [unfold hideActivity; by rewrite E|].
      intros [[|]|stats| |] Hc; cbn [call]; unfold updateStatus, showActivity,
        hideActivity, updateStatus; rewrite ?E; try done.
      by destruct (Hc stats).
  - split; [done|]. split; [done|]. split; [intros H; rewrite Ht in H; discriminate|].
    split; [intros _; unfold showActivity; by rewrite E|]. split.
    + unfold showActivity. by rewrite E.
    + split; [unfold hideActivity; by rewrite E|].
      intros [[|]|stats| |] Hc; cbn [call]; unfold updateStatus, showActivity,
        hideActivity, updateStatus; rewrite ?E; try done.
      by destruct (Hc stats).
Qed.

End StatusBarFacts.
